(** * Job trend analyzer: date normalizer, skill extractor, skill aggregator
      and job record store

    A shallow embedding of [utils/data_parser.py] and [utils/db_manager.py]
    of the [job_trend_analyzer] package, and the properties of the pipeline
    they implement.  The repository also holds an older copy of both files
    at its top level; the package is the version the dashboard and the
    scrapers of the package import, and the one embedded here.

    Conventions of the embedding.
    - A Python [str] is a [string]; a character stands for the code point of
      the same number, so the texts of the model are the texts over
      U+0000..U+00FF.  Character classes ([str.isspace], [str.lower], the
      classes [\s], [\d], [\w] of [re]) are the ones Python has on those
      code points.
    - A call that can raise returns a [py_result].
    - A Python [set] is a [gset]; iterating over it, or turning it into a
      list, goes through an explicit enumeration function, since Python
      fixes no order for it.
    - The SQLite table [jobs] is a list of rows in insertion order together
      with the AUTOINCREMENT counter. *)

From Stdlib Require Import ZArith NArith Ascii String List Bool Lia.
From stdpp Require Import base option list gmap sets strings sorting pretty.

Local Open Scope string_scope.
Local Open Scope list_scope.

(** ** Results of calls that may raise *)

Inductive exn : Type :=
| OverflowError
| ValueError
| SqliteError
| DatabaseError
| UnboundLocalError.

Inductive py_result (A : Type) : Type :=
| Return (a : A)
| Raise (e : exn).

Arguments Return {A} a.
Arguments Raise {A} e.

#[global] Instance py_result_ret : MRet py_result := fun A a => Return a.

#[global] Instance py_result_bind : MBind py_result := fun A B k m =>
  match m with
  | Return a => k a
  | Raise e => Raise e
  end.

(** ** Python string primitives *)

Module Py.

Definition code (c : ascii) : N := N_of_ascii c.

(** [str.isspace] on one character: TAB..CR, FS..US, SPACE, NEL, NBSP. *)
Definition isspace (c : ascii) : bool :=
  let n := code c in
  (((9 <=? n) && (n <=? 13)) || ((28 <=? n) && (n <=? 32))
   || (n =? 133) || (n =? 160))%N.

(** The class [\d] of [re] on a [str] pattern. *)
Definition isdecimal (c : ascii) : bool :=
  let n := code c in ((48 <=? n) && (n <=? 57))%N.

Definition isupper (c : ascii) : bool :=
  let n := code c in
  (((65 <=? n) && (n <=? 90))
   || ((192 <=? n) && (n <=? 222) && negb (n =? 215)))%N.

(** The class [\w] of [re] on a [str] pattern: [str.isalnum] or ['_']. *)
Definition isword (c : ascii) : bool :=
  let n := code c in
  (((48 <=? n) && (n <=? 57)) || ((65 <=? n) && (n <=? 90))
   || (n =? 95) || ((97 <=? n) && (n <=? 122))
   || (n =? 170) || (n =? 178) || (n =? 179) || (n =? 181)
   || (n =? 185) || (n =? 186) || ((188 <=? n) && (n <=? 190))
   || ((192 <=? n) && (n <=? 214)) || ((216 <=? n) && (n <=? 246))
   || (248 <=? n))%N.

(** [str.isalnum] on one character. *)
Definition isalnum (c : ascii) : bool := isword c && negb (Ascii.eqb c "_").

Definition lower_char (c : ascii) : ascii :=
  if isupper c then ascii_of_N (code c + 32) else c.

(** [s.lower()] *)
Fixpoint lower (s : string) : string :=
  match s with
  | EmptyString => EmptyString
  | String c t => String (lower_char c) (lower t)
  end.

Fixpoint lstrip (s : string) : string :=
  match s with
  | EmptyString => EmptyString
  | String c t => if isspace c then lstrip t else s
  end.

Fixpoint rstrip (s : string) : string :=
  match s with
  | EmptyString => EmptyString
  | String c t =>
      match rstrip t with
      | EmptyString => if isspace c then EmptyString else String c EmptyString
      | t' => String c t'
      end
  end.

(** [s.strip()] *)
Definition strip (s : string) : string := rstrip (lstrip s).

(** Whether every character of [s] satisfies [p]; whether [c] occurs in
    [s]. *)
Fixpoint all (p : ascii -> bool) (s : string) : bool :=
  match s with
  | EmptyString => true
  | String c t => p c && all p t
  end.

Fixpoint occurs (c : ascii) (s : string) : bool :=
  match s with
  | EmptyString => false
  | String d t => Ascii.eqb c d || occurs c t
  end.

(** The truth value of a [str]. *)
Definition nonempty (s : string) : bool := negb (String.eqb s EmptyString).

(** [sub in s] *)
Fixpoint contains (sub s : string) : bool :=
  String.prefix sub s ||
  match s with
  | EmptyString => false
  | String _ t => contains sub t
  end.

(** [s.startswith(c)] and [s.endswith(c)] for a one-character argument. *)
Definition startswith (c : ascii) (s : string) : bool :=
  match s with
  | String d _ => Ascii.eqb c d
  | EmptyString => false
  end.

Fixpoint endswith (c : ascii) (s : string) : bool :=
  match s with
  | EmptyString => false
  | String d EmptyString => Ascii.eqb c d
  | String _ t => endswith c t
  end.

(** [s[1:]], [s[:-1]] and [s[1:-1]]. *)
Definition drop_first (s : string) : string :=
  match s with
  | EmptyString => EmptyString
  | String _ t => t
  end.

Fixpoint drop_last (s : string) : string :=
  match s with
  | EmptyString => EmptyString
  | String _ EmptyString => EmptyString
  | String c t => String c (drop_last t)
  end.

Definition slice_1_m1 (s : string) : string := drop_last (drop_first s).

(** [s.split(sep)] for a one-character separator: never an empty list. *)
Fixpoint split (sep : ascii) (s : string) : list string :=
  match s with
  | EmptyString => [EmptyString]
  | String c t =>
      if Ascii.eqb c sep then EmptyString :: split sep t
      else match split sep t with
           | h :: r => String c h :: r
           | [] => [String c EmptyString]
           end
  end.

(** [s.replace(old, new)] for a non-empty [old]: every occurrence, left to
    right, without overlap.  [skip] counts the characters of an occurrence
    that are still to be passed over. *)
Fixpoint replace_from (old new : string) (skip : nat) (s : string) : string :=
  match s with
  | EmptyString => EmptyString
  | String c t =>
      match skip with
      | S k => replace_from old new k t
      | O =>
          if String.prefix old s
          then new ++ replace_from old new (String.length old - 1) t
          else String c (replace_from old new 0 t)
      end
  end.

Definition replace (old new s : string) : string := replace_from old new 0 s.

(** Value of a run of decimal digits, most significant first. *)
Definition digit_value (c : ascii) : Z := (Z.of_N (code c) - 48)%Z.

Fixpoint decimal_from (acc : Z) (s : string) : Z :=
  match s with
  | EmptyString => acc
  | String c t => decimal_from (10 * acc + digit_value c)%Z t
  end.

Definition decimal (s : string) : Z := decimal_from 0%Z s.

(** [sorted] on strings compares code point by code point. *)
Definition str_le (s1 s2 : string) : Prop := String.leb s1 s2 = true.

#[global] Instance str_le_dec s1 s2 : Decision (str_le s1 s2) :=
  decide (String.leb s1 s2 = true).

Definition sorted (l : list string) : list string := merge_sort str_le l.

End Py.

(** ** [utils/data_parser.py] *)

Module DataParser.

Local Open Scope Z_scope.

(** *** Date normalizer *)

(** A [datetime.date] is its proleptic Gregorian ordinal ([date.toordinal]):
    [date.min], 0001-01-01, is 1 and [date.max], 9999-12-31, is 3652059. *)
Definition MINORDINAL : Z := 1.
Definition MAXORDINAL : Z := 3652059.

(** [timedelta(days=d)]: the magnitude is limited. *)
Definition timedelta (days : Z) : py_result Z :=
  if Z.abs days <=? 999999999 then Return days else Raise OverflowError.

(** [(current_time - delta).date()] where [today] is the date of
    [current_time]: the time of day is kept by the subtraction and dropped
    by [.date()]; a result outside [date.min .. date.max] raises. *)
Definition minus_delta (today delta : Z) : py_result Z :=
  let d := today - delta in
  if (MINORDINAL <=? d) && (d <=? MAXORDINAL) then Return d
  else Raise OverflowError.

(** [int(s)] on a run of decimal digits.  [int_max_str_digits] is the
    interpreter's limit on the length of the text ([sys.get_int_max_str_digits()]:
    4300 by default from CPython 3.11 on, and never between 1 and 639);
    0 stands for no limit, as in the interpreter. *)
Definition py_int (int_max_str_digits : nat) (digits : string) : py_result Z :=
  if (0 <? int_max_str_digits)%nat && (int_max_str_digits <? String.length digits)%nat
  then Raise ValueError
  else Return (Py.decimal digits).

(** Longest prefix of [s] whose characters satisfy [p], and what follows. *)
Fixpoint span (p : ascii -> bool) (s : string) : string * string :=
  match s with
  | EmptyString => (EmptyString, EmptyString)
  | String c t =>
      if p c then let '(a, b) := span p t in (String c a, b)
      else (EmptyString, s)
  end.

Fixpoint strip_prefix (pre s : string) : option string :=
  match pre with
  | EmptyString => Some s
  | String c pre' =>
      match s with
      | String d s' => if Ascii.eqb c d then strip_prefix pre' s' else None
      | EmptyString => None
      end
  end.

(** The pattern [(\d+)\s+UNIT(s)?\s+ago] matched at the start of [s];
    the result is group 1.  Each greedy repetition is followed by a
    character outside its class, so only the longest run can lead to a
    match; and when an ['s'] follows the unit, leaving it out puts [\s+] in
    front of that ['s'], which fails. *)
Definition match_ago (unit : string) (s : string) : option string :=
  let '(digits, r1) := span Py.isdecimal s in
  let '(ws1, r2) := span Py.isspace r1 in
  match strip_prefix unit r2 with
  | None => None
  | Some r3 =>
      let '(ws2, r4) :=
        span Py.isspace (if Py.startswith "s" r3 then Py.drop_first r3 else r3) in
      if Py.nonempty digits && Py.nonempty ws1 && Py.nonempty ws2
         && String.prefix "ago" r4
      then Some digits else None
  end.

(** [re.search] of that pattern: the leftmost start that matches. *)
Fixpoint re_search_ago (unit : string) (s : string) : option string :=
  match match_ago unit s with
  | Some g => Some g
  | None =>
      match s with
      | EmptyString => None
      | String _ t => re_search_ago unit t
      end
  end.

Section parse_relative_date.

(** [dateparser.parse(date_str, settings={'PREFER_DATES_FROM': 'past',
    'RELATIVE_BASE': current_time})], followed by [.date()] on a result:
    a third-party parser, taken as given. *)
Variable dateparser_parse : string -> Z -> py_result (option Z).
Variable int_max_str_digits : nat.

(** [today] is [datetime.now().date()]; [date_str] is [None] for a Python
    [None] or NaN. *)
Definition parse_relative_date (today : Z) (date_str : option string)
  : py_result (option Z) :=
  match date_str with
  | None => Return None
  | Some EmptyString => Return None
  | Some text =>
      let date_str_lower := Py.strip (Py.lower text) in
      if existsb (fun term => Py.contains term date_str_lower)
           ["just posted"; "posted today"; "active today"; "today"]
      then Return (Some today)
      else
        match re_search_ago "day" date_str_lower with
        | Some g =>
            days ← py_int int_max_str_digits g;
            delta ← timedelta days;
            d ← minus_delta today delta;
            Return (Some d)
        | None =>
            if Py.contains "hour" date_str_lower
               || Py.contains "minute" date_str_lower
               || Py.contains "moment" date_str_lower
            then Return (Some today)
            else
              match re_search_ago "week" date_str_lower with
              | Some g =>
                  weeks ← py_int int_max_str_digits g;
                  delta ← timedelta (7 * weeks);
                  d ← minus_delta today delta;
                  Return (Some d)
              | None =>
                  match re_search_ago "month" date_str_lower with
                  | Some g =>
                      months ← py_int int_max_str_digits g;
                      delta ← timedelta (months * 30);
                      d ← minus_delta today delta;
                      Return (Some d)
                  | None =>
                      match dateparser_parse text today with
                      | Return (Some d) => Return (Some d)
                      | Return None => Return None
                      | Raise _ => Return None
                      end
                  end
              end
        end
  end.

End parse_relative_date.

(** *** Skill extractor *)

(** The literal list from which [COMMON_SKILLS] is built. *)
Definition COMMON_SKILLS_literal : list string :=
  [ "python"; "java"; "c++"; "c#"; "javascript"; "typescript"; "html"; "css";
    "sql"; "nosql"; "mongodb"; "postgresql"; "mysql";
    "react"; "angular"; "vue"; "node.js"; "express.js"; "next.js"; "reactjs";
    "vuejs"; "angularjs";
    "django"; "flask"; "spring"; "spring boot"; ".net"; "ruby on rails";
    "asp.net";
    "aws"; "azure"; "gcp"; "docker"; "kubernetes"; "k8s"; "terraform";
    "ansible"; "ci/cd"; "jenkins"; "gitlab ci"; "github actions";
    "machine learning"; "ml"; "deep learning"; "dl"; "data science";
    "data analysis"; "artificial intelligence"; "ai"; "nlp"; "computer vision";
    "pandas"; "numpy"; "scipy"; "scikit-learn"; "sklearn"; "tensorflow";
    "keras"; "pytorch"; "opencv";
    "agile"; "scrum"; "kanban"; "git"; "github"; "jira"; "rest"; "api";
    "graphql"; "microservices"; "restful apis";
    "big data"; "hadoop"; "spark"; "kafka"; "data warehousing"; "etl";
    "data pipelines"; "airflow";
    "cybersecurity"; "information security"; "penetration testing"; "linux";
    "unix"; "bash"; "shell scripting";
    "devops"; "sre"; "ui/ux"; "figma"; "adobe xd"; "sketch"; "swift"; "kotlin";
    "php"; "laravel"; "go"; "golang"; "rust"; "scala";
    "power bi"; "tableau"; "excel"; "communication"; "problem solving";
    "teamwork"; "leadership"; "project management";
    "data visualization"; "r"; "statistics"; "algorithms"; "data structures";
    "oop"; "object-oriented programming";
    "cloud computing"; "serverless"; "selenium"; "beautifulsoup";
    "api development" ].

(** The skills that are looked up with [in] rather than with a pattern. *)
Definition substring_skills : list string :=
  [ ".net"; "c#"; "c++"; "node.js"; "express.js"; "react.js"; "vue.js";
    "asp.net"; "ui/ux" ].

Definition head_isword (s : string) : bool :=
  match s with
  | String c _ => Py.isword c
  | EmptyString => false
  end.

(** Whether the last character of [lit] is a word character; [prev] tells
    it for the character before [lit]. *)
Fixpoint last_isword (prev : bool) (lit : string) : bool :=
  match lit with
  | EmptyString => prev
  | String c t => last_isword (Py.isword c) t
  end.

(** [\b] between a character that is a word character or not ([prev]) and
    the text [s] that follows it; the two ends of the text count as
    non-word characters. *)
Definition word_boundary (prev : bool) (s : string) : bool :=
  xorb prev (head_isword s).

(** The pattern [\b] + [re.escape(lit)] + [\b] matched at the start of
    [s]: the escaped text matches [lit] itself, character by character. *)
Definition match_word (prev : bool) (lit s : string) : bool :=
  match strip_prefix lit s with
  | Some rest => word_boundary prev s && word_boundary (last_isword prev lit) rest
  | None => false
  end.

(** [re.search] of that pattern in the part [s] of a text; [prev] tells
    whether the character before [s] is a word character. *)
Fixpoint search_word_from (prev : bool) (lit s : string) : bool :=
  match_word prev lit s ||
  match s with
  | EmptyString => false
  | String c t => search_word_from (Py.isword c) lit t
  end.

Definition re_search_word (lit text : string) : bool :=
  search_word_from false lit text.

(** The conditional expression of the set comprehension that normalizes a
    skill.  Its first test covers the later ones. *)
Definition normalize_skill (skill : string) : string :=
  if Py.contains ".js" skill then Py.replace ".js" "js" skill
  else if String.eqb "react.js" skill then Py.replace "react.js" "reactjs" skill
  else if String.eqb "vue.js" skill then Py.replace "vue.js" "vuejs" skill
  else if String.eqb "express.js" skill then Py.replace "express.js" "expressjs" skill
  else if String.eqb "node.js" skill then Py.replace "node.js" "nodejs" skill
  else skill.

(** The test made for one skill: [in] for the listed skills, the pattern
    for the others.  The pattern is an escaped literal, so [re.search]
    cannot raise [re.error] and the handler of that exception is never
    entered. *)
Definition skill_found (text_blob_lower skill : string) : bool :=
  if bool_decide (skill ∈ substring_skills) then Py.contains skill text_blob_lower
  else re_search_word skill text_blob_lower.

(** One turn of the loop over [COMMON_SKILLS]. *)
Definition scan_skill (text_blob_lower : string) (found_skills : gset string)
    (skill : string) : gset string :=
  if String.eqb skill EmptyString then found_skills
  else if skill_found text_blob_lower skill then {[ skill ]} ∪ found_skills
  else found_skills.

Section extract_skills.

(** The order in which a [set] of strings is enumerated, by [list(...)]
    or by a comprehension. *)
Variable set_order : gset string -> list string.

(** [COMMON_SKILLS = sorted(list(set([...])))] *)
Definition COMMON_SKILLS : list string :=
  Py.sorted (set_order (list_to_set COMMON_SKILLS_literal)).

(** [text_blob] is [None] for a Python [None] or NaN. *)
Definition extract_skills_from_text (text_blob : option string) : list string :=
  match text_blob with
  | None => []
  | Some EmptyString => []
  | Some text =>
      let text_blob_lower := Py.lower text in
      let found_skills := foldl (scan_skill text_blob_lower) ∅ COMMON_SKILLS in
      let normalized_skills : gset string :=
        list_to_set (normalize_skill <$> set_order found_skills) in
      Py.sorted (set_order normalized_skills)
  end.

End extract_skills.

(** *** Skill aggregator *)

(** An element of the series given to [analyze_skills]: a missing value
    ([None] or NaN), a [str], a [list] (each element given by its [str(...)])
    or a value of another type. *)
Inductive skill_entry : Type :=
| EntryNA
| EntryStr (s : string)
| EntryList (l : list string)
| EntryOther.

Definition entry_isna (e : skill_entry) : bool :=
  match e with
  | EntryNA => true
  | _ => false
  end.

(** [series.dropna()] *)
Definition dropna (series : list skill_entry) : list skill_entry :=
  filter (fun e => entry_isna e = false) series.

(** [collections.Counter(l)] *)
Definition Counter (l : list string) : gmap string nat :=
  foldl (fun m k => <[ k := S (default 0%nat (m !! k)) ]> m) ∅ l.

(** The contribution of one entry to [all_skills_flat_list]. *)
Definition entry_skills (skill_entry : skill_entry) : list string :=
  let current_skills :=
    match skill_entry with
    | EntryStr s =>
        let cleaned_entry := Py.strip s in
        let cleaned_entry :=
          if Py.startswith "[" cleaned_entry && Py.endswith "]" cleaned_entry
          then Py.slice_1_m1 cleaned_entry else cleaned_entry in
        (fun s => Py.lower (Py.strip s)) <$>
          filter (fun s => Py.nonempty (Py.strip s) = true) (Py.split "," cleaned_entry)
    | EntryList l =>
        (fun s => Py.lower (Py.strip s)) <$>
          filter (fun s => Py.nonempty (Py.strip s) = true) l
    | _ => []
    end in
  filter (fun s => Py.nonempty s = true) current_skills.

(** [skills_series] is [None] for a Python [None]. *)
Definition analyze_skills (skills_series : option (list skill_entry))
  : gmap string nat :=
  match skills_series with
  | None => Counter []
  | Some series =>
      match dropna series with
      | [] => Counter []
      | entries =>
          Counter (foldl (fun all_skills_flat_list e =>
                            all_skills_flat_list ++ entry_skills e) [] entries)
      end
  end.

End DataParser.

(** ** [utils/db_manager.py] *)

Module DbManager.

(** *** The input of [store_jobs] *)

(** A cell of a DataFrame: [None], NaN, NaT, or a value given by its
    [str(...)]. *)
Inductive pyval : Type :=
| PyNone
| PyNaN
| PyNaT
| PyVal (repr : string).

Definition pd_isna (v : pyval) : bool :=
  match v with
  | PyVal _ => false
  | _ => true
  end.

Definition py_str (v : pyval) : string :=
  match v with
  | PyNone => "None"
  | PyNaN => "nan"
  | PyNaT => "NaT"
  | PyVal repr => repr
  end.

(** A DataFrame: its column labels and its rows, each row a mapping from a
    label to a cell. *)
Record DataFrame : Type := {
  columns : list string;
  rows : list (gmap string pyval)
}.

(** [df.empty] *)
Definition df_empty (df : DataFrame) : bool :=
  match columns df, rows df with
  | [], _ | _, [] => true
  | _, _ => false
  end.

(** [df[col] = v] for a label that is not a column yet. *)
Definition set_column (col : string) (v : pyval) (df : DataFrame) : DataFrame :=
  {| columns := columns df ++ [col];
     rows := (fun row => <[ col := v ]> row) <$> rows df |}.

(** [row.get(col, default)] *)
Definition row_get (row : gmap string pyval) (col : string) (default : pyval) : pyval :=
  match row !! col with
  | Some v => v
  | None => default
  end.

Definition required_cols : list string :=
  [ "title"; "company"; "location"; "skills"; "date_posted"; "parsed_date";
    "source"; "search_keyword"; "url" ].

(** The loop over [required_cols]: [None] when it returns from
    [store_jobs] because the column [url] is missing. *)
Definition add_missing_columns (jobs_df : DataFrame) : option DataFrame :=
  foldl (fun acc col =>
           df ← acc;
           if bool_decide (col ∈ columns df) then Some df
           else if String.eqb col "parsed_date" then Some (set_column col PyNaT df)
           else if String.eqb col "skills" then Some (set_column col (PyVal "N/A") df)
           else if String.eqb col "url" then None
           else Some (set_column col PyNone df))
        (Some jobs_df) required_cols.

(** *** The table [jobs] *)

Record job : Type := {
  id : Z;
  title : string;
  company : string;
  location : string;
  skills : string;
  date_posted : string;
  parsed_date : option string;
  source : string;
  search_keyword : string;
  url : string;
  scraped_at : string
}.

(** The rows in insertion order, and the last value given out by
    AUTOINCREMENT. *)
Record table : Type := {
  jobs : list job;
  sqlite_sequence : Z
}.

(** What [init_db] creates in a new database file. *)
Definition empty_table : table := {| jobs := []; sqlite_sequence := 0 |}.

(** The database file: [sqlite3.connect] cannot open it; or it opens, but
    every statement on the table [jobs] raises [sqlite3.Error] (the table
    is missing, the file is no database); or it holds the table. *)
Inductive storage : Type :=
| Unavailable
| Unqueryable
| Available (t : table).

(** [sqlite3.connect(DATABASE_NAME)]: it raises [sqlite3.Error], or gives
    a connection, on the table or on a file without a usable table. *)
Definition connect (st : storage) : py_result (option table) :=
  match st with
  | Unavailable => Raise SqliteError
  | Unqueryable => Return None
  | Available t => Return (Some t)
  end.

Definition data_tuple : Type :=
  string * string * string * string * string * option string
  * string * string * string.

Inductive insert_outcome : Type :=
| Inserted (t : table)
| UniqueConstraintFailed.

Section store.

(** The value of [CURRENT_TIMESTAMP] when the row of a given [id] is
    inserted. *)
Variable CURRENT_TIMESTAMP : Z -> string.

(** [cursor.execute(insert_query, data_tuple)]: the column [url] is
    UNIQUE. *)
Definition execute_insert (t : table) (d : data_tuple) : insert_outcome :=
  let '(d_title, d_company, d_location, d_skills, d_date_posted,
        d_parsed_date, d_source, d_search_keyword, d_url) := d in
  if bool_decide (d_url ∈ url <$> jobs t) then UniqueConstraintFailed
  else
    let new_id := (sqlite_sequence t + 1)%Z in
    Inserted
      {| jobs := jobs t ++
           [ {| id := new_id; title := d_title; company := d_company;
                location := d_location; skills := d_skills;
                date_posted := d_date_posted; parsed_date := d_parsed_date;
                source := d_source; search_keyword := d_search_keyword;
                url := d_url; scraped_at := CURRENT_TIMESTAMP new_id |} ];
         sqlite_sequence := new_id |}.

(** The three counters of [store_jobs]; it returns [inserted_rows] and
    writes all three to the log. *)
Record counters : Type := {
  inserted_rows : nat;
  skipped_due_to_duplicate : nat;
  error_rows : nat
}.

Definition no_rows : counters :=
  {| inserted_rows := 0; skipped_due_to_duplicate := 0; error_rows := 0 |}.

(** One turn of the loop over [jobs_df.iterrows()]. *)
Definition store_row (state : table * counters) (row : gmap string pyval)
  : table * counters :=
  let '(t, n) := state in
  if pd_isna (row_get row "url" PyNone)
     || negb (Py.nonempty (Py.strip (py_str (row_get row "url" PyNone))))
  then
    (t, {| inserted_rows := inserted_rows n;
           skipped_due_to_duplicate := skipped_due_to_duplicate n;
           error_rows := error_rows n + 1 |})
  else
    let parsed_date_val :=
      if pd_isna (row_get row "parsed_date" PyNone) then None
      else Some (py_str (row_get row "parsed_date" PyNone)) in
    let skills_val := py_str (row_get row "skills" (PyVal "N/A")) in
    let d : data_tuple :=
      (py_str (row_get row "title" (PyVal "N/A")),
       py_str (row_get row "company" (PyVal "N/A")),
       py_str (row_get row "location" (PyVal "N/A")),
       skills_val,
       py_str (row_get row "date_posted" (PyVal "Unknown")),
       parsed_date_val,
       py_str (row_get row "source" (PyVal "Unknown")),
       py_str (row_get row "search_keyword" (PyVal "Unknown")),
       Py.strip (py_str (row_get row "url" PyNone))) in
    match execute_insert t d with
    | Inserted t' =>
        (t', {| inserted_rows := inserted_rows n + 1;
                skipped_due_to_duplicate := skipped_due_to_duplicate n;
                error_rows := error_rows n |})
    | UniqueConstraintFailed =>
        (t, {| inserted_rows := inserted_rows n;
               skipped_due_to_duplicate := skipped_due_to_duplicate n + 1;
               error_rows := error_rows n |})
    end.

(** The same turn on a connection without a usable table:
    [cursor.execute] raises a [sqlite3.Error] that is no [IntegrityError],
    and the last handler counts the record as an error, as the first test
    does for a record without url. *)
Definition store_row_failed (n : counters) (row : gmap string pyval) : counters :=
  if pd_isna (row_get row "url" PyNone)
     || negb (Py.nonempty (Py.strip (py_str (row_get row "url" PyNone))))
  then
    {| inserted_rows := inserted_rows n;
       skipped_due_to_duplicate := skipped_due_to_duplicate n;
       error_rows := error_rows n + 1 |}
  else
    {| inserted_rows := inserted_rows n;
       skipped_due_to_duplicate := skipped_due_to_duplicate n;
       error_rows := error_rows n + 1 |}.

(** [jobs_df] is [None] for an argument that is not a DataFrame.  The
    result is the database after the call and the counters.  When
    [sqlite3.connect] raises, the handler logs the error and 0 is
    returned. *)
Definition store_jobs (st : storage) (jobs_df : option DataFrame)
  : storage * counters :=
  match jobs_df with
  | None => (st, no_rows)
  | Some df =>
      if df_empty df then (st, no_rows)
      else
        match add_missing_columns df with
        | None => (st, no_rows)
        | Some df =>
            match connect st with
            | Raise _ => (st, no_rows)
            | Return None => (st, foldl store_row_failed no_rows (rows df))
            | Return (Some t) =>
                let '(t', n) := foldl store_row (t, no_rows) (rows df) in
                (Available t', n)
            end
        end
  end.

(** A sequence of calls of [store_jobs], and what each returned. *)
Fixpoint store_calls (st : storage) (batches : list (option DataFrame))
  : storage * list nat :=
  match batches with
  | [] => (st, [])
  | b :: bs =>
      let '(st', n) := store_jobs st b in
      let '(st'', ns) := store_calls st' bs in
      (st'', inserted_rows n :: ns)
  end.

End store.

(** *** [fetch_jobs] *)

(** SQLite's [lower]: the letters A..Z only. *)
Definition sql_lower_char (c : ascii) : ascii :=
  let n := Py.code c in
  if ((65 <=? n) && (n <=? 90))%N then ascii_of_N (n + 32) else c.

Fixpoint sql_lower (s : string) : string :=
  match s with
  | EmptyString => EmptyString
  | String c t => String (sql_lower_char c) (sql_lower t)
  end.

(** SQLite's [LIKE] without ESCAPE: ['%'] stands for any run of
    characters, ['_'] for any one character, and the letters A..Z match in
    both cases. *)
Fixpoint sql_like (pattern : string) : string -> bool :=
  match pattern with
  | EmptyString => fun s => String.eqb s EmptyString
  | String p pattern' =>
      if Ascii.eqb p "%" then
        fix any_run (s : string) : bool :=
          sql_like pattern' s ||
          match s with
          | EmptyString => false
          | String _ s' => any_run s'
          end
      else
        fun s =>
          match s with
          | EmptyString => false
          | String c s' =>
              (Ascii.eqb p "_" || Ascii.eqb (sql_lower_char p) (sql_lower_char c))
              && sql_like pattern' s'
          end
  end.

(** The WHERE clause built from the two optional filters; an empty filter
    is no filter. *)
Definition where_clause (keyword source_filter : option string) (j : job) : bool :=
  match keyword with
  | None | Some EmptyString => true
  | Some k => sql_like (sql_lower ("%" ++ k ++ "%")) (sql_lower (search_keyword j))
  end
  &&
  match source_filter with
  | None | Some EmptyString => true
  | Some src => String.eqb (sql_lower (source j)) (sql_lower src)
  end.

(** [COALESCE(parsed_date, '1970-01-01')] *)
Definition coalesce_parsed_date (j : job) : string :=
  match parsed_date j with
  | Some d => d
  | None => "1970-01-01"
  end.

(** [ORDER BY COALESCE(parsed_date, '1970-01-01') DESC, scraped_at DESC]:
    [a] may stand before [b].  Text values compare code point by code
    point. *)
Definition order_by (a b : job) : Prop :=
  match String.compare (coalesce_parsed_date a) (coalesce_parsed_date b) with
  | Gt => True
  | Eq => String.leb (scraped_at b) (scraped_at a) = true
  | Lt => False
  end.

#[global] Instance order_by_dec a b : Decision (order_by a b).
Proof.
  unfold order_by.
  destruct (String.compare (coalesce_parsed_date a) (coalesce_parsed_date b)).
  - apply bool_eq_dec.
  - right; exact (fun f => f).
  - left; exact I.
Defined.

(** The rows of the query.  SQL leaves the order of rows with equal sort
    keys open; the sort used here fixes one, and no property below depends
    on which. *)
Definition select_jobs (keyword source_filter : option string) (t : table) : list job :=
  merge_sort order_by
    (filter (fun j => where_clause keyword source_filter j = true) (jobs t)).

(** What [fetch_jobs] returns: the labels of the columns and the rows.
    The conversion of two columns by [pd.to_datetime] changes the
    representation of cells, not the rows or their order, and is left out. *)
Record frame : Type := {
  frame_columns : list string;
  frame_rows : list job
}.

(** [pd.DataFrame()] *)
Definition empty_frame : frame := {| frame_columns := []; frame_rows := [] |}.

Definition selected_columns : list string :=
  [ "id"; "title"; "company"; "location"; "skills"; "date_posted";
    "parsed_date"; "source"; "search_keyword"; "url"; "scraped_at" ].

(** [pd.read_sql_query(query, conn, params=params)]: pandas raises its
    own [DatabaseError] when the statement fails. *)
Definition read_sql_query (conn : option table) (keyword source_filter : option string)
  : py_result frame :=
  match conn with
  | None => Raise DatabaseError
  | Some t =>
      Return {| frame_columns := selected_columns;
                frame_rows := select_jobs keyword source_filter t |}
  end.

(** [df] starts as [pd.DataFrame()].  [query] and [params] are assigned
    after [sqlite3.connect]; the handler of [sqlite3.Error] formats both
    into its message, so when it was [sqlite3.connect] that raised, the
    handler itself raises [UnboundLocalError], and this exception leaves
    the function.  A failure of the query is logged by one of the two
    handlers, and [return df] follows. *)
Definition fetch_jobs (st : storage) (keyword source_filter : option string)
  : py_result frame :=
  match connect st with
  | Raise _ => Raise UnboundLocalError
  | Return conn =>
      match read_sql_query conn keyword source_filter with
      | Return df => Return df
      | Raise _ => Return empty_frame
      end
  end.

End DbManager.

(** ** Vocabulary of the properties *)

Module Spec.

Import Py DataParser DbManager.

(** *** Relative dates *)

(** The three relative units, the word of each in the pattern, and the
    number of days the code counts for one. *)
Inductive ago_unit : Type := Days | Weeks | Months.

Definition unit_word (u : ago_unit) : string :=
  match u with
  | Days => "day"
  | Weeks => "week"
  | Months => "month"
  end.

Definition unit_days (u : ago_unit) : Z :=
  match u with
  | Days => 1%Z
  | Weeks => 7%Z
  | Months => 30%Z
  end.

(** A text of the form "<N> day(s) ago": a run of digits, white space, the
    unit with or without its plural, white space, "ago". *)
Definition ago_text (digits ws1 : string) (u : ago_unit) (plural : bool)
    (ws2 : string) : string :=
  digits +:+ ws1 +:+ unit_word u +:+ (if plural then "s" else "") +:+ ws2 +:+ "ago".

Definition head_fails (p : ascii -> bool) (s : string) : bool :=
  match s with
  | EmptyString => true
  | String c _ => negb (p c)
  end.

(** *** Skills *)

(** A skill that passes the test of the loop for the lower-cased text. *)
Definition matched (text_blob_lower skill : string) : Prop :=
  skill ∈ COMMON_SKILLS_literal /\ skill <> "" /\
  skill_found text_blob_lower skill = true.

(** The aggregation as the specification words it.  One layer of
    surrounding brackets is looked for around the trimmed entry. *)
Definition unbracket (s : string) : string :=
  if startswith "[" s && endswith "]" s then slice_1_m1 s else s.

Definition spec_tokens (e : skill_entry) : list string :=
  match e with
  | EntryNA => []
  | EntryStr s =>
      filter (fun t => t <> "")
        (lower <$> (strip <$> split "," (unbracket (strip s))))
  | EntryList l =>
      filter (fun t => t <> "") (strip <$> (lower <$> l))
  | EntryOther => []
  end.

Definition occurrences (token : string) (l : list string) : nat :=
  length (filter (fun t => t = token) l).

Definition spec_count (series : list skill_entry) (token : string) : nat :=
  occurrences token (series ≫= spec_tokens).

(** *** The store *)

(** The UNIQUE constraint of the column [url]. *)
Definition unique_urls (t : table) : Prop := NoDup (url <$> jobs t).

(** A cell that [store_jobs] accepts as a url, and the url it stores for
    it. *)
Definition stored_url (row : gmap string pyval) : string :=
  strip (py_str (row_get row "url" PyNone)).

Definition url_rejected (row : gmap string pyval) : bool :=
  pd_isna (row_get row "url" PyNone) || negb (nonempty (stored_url row)).

Definition count_error (n : counters) : counters :=
  {| inserted_rows := inserted_rows n;
     skipped_due_to_duplicate := skipped_due_to_duplicate n;
     error_rows := error_rows n + 1 |}.

Definition count_duplicate (n : counters) : counters :=
  {| inserted_rows := inserted_rows n;
     skipped_due_to_duplicate := skipped_due_to_duplicate n + 1;
     error_rows := error_rows n |}.

Definition count_inserted (n : counters) : counters :=
  {| inserted_rows := inserted_rows n + 1;
     skipped_due_to_duplicate := skipped_due_to_duplicate n;
     error_rows := error_rows n |}.

(** The database of a storage that holds a table. *)
Definition rows_of (st : storage) : list job :=
  match st with
  | Available t => jobs t
  | Unavailable | Unqueryable => []
  end.

Definition storage_unique (st : storage) : Prop :=
  match st with
  | Available t => unique_urls t
  | Unavailable | Unqueryable => True
  end.

(** The cells of the column [url] of a frame. *)
Definition url_cells (df : DataFrame) : list (option pyval) :=
  (fun row => row !! "url") <$> rows df.

(** A keyword without the two characters that [LIKE] gives a meaning to. *)
Definition no_wildcard (keyword : string) : bool :=
  all (fun c => negb (Ascii.eqb c "%") && negb (Ascii.eqb c "_")) keyword.

(** The keyword is part of the search keyword of the row, the letters A..Z
    taken for a..z on both sides. *)
Definition keyword_in (keyword : string) (j : job) : Prop :=
  contains (sql_lower keyword) (sql_lower (search_keyword j)) = true.

#[global] Instance keyword_in_dec keyword j : Decision (keyword_in keyword j) :=
  decide (contains (sql_lower keyword) (sql_lower (search_keyword j)) = true).

(** Two rows stored for the keyword "python": one without a parsed date,
    one dated 1969-12-31; and a row whose keyword starts with U+00E9. *)
Definition undated_job : job :=
  {| id := 1; title := "T"; company := "C"; location := "L"; skills := "python";
     date_posted := "n/a"; parsed_date := None; source := "Indeed";
     search_keyword := "python"; url := "a"; scraped_at := "2025-01-01 00:00:00" |}.

Definition old_job : job :=
  {| id := 2; title := "T"; company := "C"; location := "L"; skills := "python";
     date_posted := "20500 days ago"; parsed_date := Some "1969-12-31";
     source := "Indeed"; search_keyword := "python"; url := "b";
     scraped_at := "2025-01-01 00:00:01" |}.

Definition accent_job : job :=
  {| id := 3; title := "T"; company := "C"; location := "L"; skills := "";
     date_posted := "n/a"; parsed_date := None; source := "Indeed";
     search_keyword := String "233" "cole"; url := "c";
     scraped_at := "2025-01-02 00:00:00" |}.

Definition sample_table : table :=
  {| jobs := [undated_job; old_job; accent_job]; sqlite_sequence := 3 |}.

End Spec.

Import Spec.


(** ** Callers of the pipeline: [app.py] and the scrapers *)

Module Callers.

Import Py DataParser DbManager.

(** [str(n)] of an [int], as the f-strings of [generate_demo_data] format
    it. *)
Definition str_int (n : Z) : string := pretty n.

(** The text [date_str] of [generate_demo_data]: [days_ago] is the draw
    [random.randint(0, 30)], [choice] the index that [random.choice] picks
    in the list of three texts, [hours] the draw [random.randint(1, 23)]. *)
Definition demo_date_str (days_ago : Z) (choice : nat) (hours : Z) : string :=
  if (days_ago =? 0)%Z then
    match choice with
    | O => "Posted today"
    | S O => "Just posted"
    | _ => str_int hours +:+ " hours ago"
    end
  else if (days_ago =? 1)%Z then "1 day ago"
  else str_int days_ago +:+ " days ago".

(** [sep.join(l)] *)
Fixpoint join (sep : string) (l : list string) : string :=
  match l with
  | [] => ""
  | [x] => x
  | x :: rest => x +:+ sep +:+ join sep rest
  end.

(** The field [skills] of a scraped record:
    [", ".join(skills) if skills else "N/A"]. *)
Definition skills_field (skills : list string) : string :=
  match skills with
  | [] => "N/A"
  | _ => join ", " skills
  end.

(** [df.drop_duplicates(subset=['url'], keep='first')] of the scrapers: a
    row is dropped when an earlier row has an equal cell in the column
    [url].  [same_url] is the equality pandas uses for two cells; [seen]
    holds the cells of the rows before [rows]. *)
Section drop_duplicates.

Variable same_url : option pyval -> option pyval -> bool.

Fixpoint drop_duplicates_from (seen : list (option pyval))
    (rows : list (gmap string pyval)) : list (gmap string pyval) :=
  match rows with
  | [] => []
  | row :: rest =>
      if existsb (same_url (row !! "url")) seen
      then drop_duplicates_from (row !! "url" :: seen) rest
      else row :: drop_duplicates_from (row !! "url" :: seen) rest
  end.

Definition drop_duplicates (df : DataFrame) : DataFrame :=
  {| columns := columns df; rows := drop_duplicates_from [] (rows df) |}.

(** The last step of [scrape_indeed] and [scrape_linkedin]:
    [if not df.empty and 'url' in df.columns: df.drop_duplicates(...)]. *)
Definition unique_jobs (df : DataFrame) : DataFrame :=
  if negb (df_empty df) && bool_decide ("url" ∈ columns df)
  then drop_duplicates df
  else df.

End drop_duplicates.

(** The check that [app.py] makes when it starts:
    [fetch_jobs(keyword="selftest_app_startup")] inside [try]; the handler
    of [Exception] reports the error and ends the run with [st.stop()]. *)
Inductive startup : Type :=
| Started
| Stopped.

Definition startup_check (st : storage) : startup :=
  match fetch_jobs st (Some "selftest_app_startup") None with
  | Return _ => Started
  | Raise _ => Stopped
  end.

End Callers.

(** ** The older copy of the skill extractor: [src/data_parser.py] *)

Module Legacy.

Import Py DataParser.

Definition COMMON_SKILLS : list string :=
  [ "python"; "java"; "c++"; "c#"; "javascript"; "typescript"; "html"; "css";
    "sql"; "nosql";
    "react"; "angular"; "vue"; "node.js"; "django"; "flask"; "spring";
    "ruby on rails";
    "aws"; "azure"; "gcp"; "docker"; "kubernetes"; "terraform"; "ansible";
    "machine learning"; "deep learning"; "data science"; "data analysis";
    "artificial intelligence"; "ai";
    "pandas"; "numpy"; "scikit-learn"; "tensorflow"; "pytorch";
    "agile"; "scrum"; "git"; "jira"; "rest"; "api"; "microservices";
    "big data"; "hadoop"; "spark"; "kafka";
    "cybersecurity"; "devops"; "ui/ux"; "figma"; "swift"; "kotlin"; "php";
    "go" ].

(** One turn of the loop over [COMMON_SKILLS]. *)
Definition scan_skill (text_blob_lower : string) (found_skills : gset string)
    (skill : string) : gset string :=
  if contains skill text_blob_lower then
    if String.eqb skill "c++" && contains "c++" text_blob_lower
    then {[ "c++" ]} ∪ found_skills
    else if String.eqb skill "c#" && contains "c#" text_blob_lower
    then {[ "c#" ]} ∪ found_skills
    else if String.eqb skill "node.js" && contains "node.js" text_blob_lower
    then {[ "node.js" ]} ∪ found_skills
    else if String.eqb skill "ruby on rails"
            && contains "ruby on rails" text_blob_lower
    then {[ "ruby on rails" ]} ∪ found_skills
    else if negb (bool_decide (skill ∈ ["c"; "go"]))
            || re_search_word skill text_blob_lower
    then {[ replace ".js" "js" skill ]} ∪ found_skills
    else found_skills
  else found_skills.

Section extract_skills.

Variable set_order : gset string -> list string.

(** [text_blob] is [None] for a Python [None] or NaN; the result is
    [list(found_skills)]. *)
Definition extract_skills_from_text (text_blob : option string) : list string :=
  match text_blob with
  | None => []
  | Some EmptyString => []
  | Some text =>
      set_order (foldl (scan_skill (lower text)) ∅ COMMON_SKILLS)
  end.

End extract_skills.

End Legacy.

(** ** More vocabulary of the properties *)

Module Spec2.

Import Py DataParser DbManager Spec Callers.

(** The three steps behind a numeric rule of [parse_relative_date]. *)
Definition offset_date (int_max_str_digits : nat) (today factor : Z) (g : string)
  : py_result (option Z) :=
  n ← py_int int_max_str_digits g;
  delta ← timedelta (factor * n)%Z;
  d ← minus_delta today delta;
  Return (Some d).

(** The rules of [parse_relative_date] on the lower-cased and trimmed text
    [low]; [fallback] is what [dateparser.parse] gives for the text. *)
Definition date_rules (int_max_str_digits : nat) (today : Z) (low : string)
    (fallback : py_result (option Z)) : py_result (option Z) :=
  if existsb (fun term => contains term low)
       ["just posted"; "posted today"; "active today"; "today"]
  then Return (Some today)
  else
    match re_search_ago "day" low with
    | Some g => offset_date int_max_str_digits today 1 g
    | None =>
        if contains "hour" low || contains "minute" low || contains "moment" low
        then Return (Some today)
        else
          match re_search_ago "week" low with
          | Some g => offset_date int_max_str_digits today 7 g
          | None =>
              match re_search_ago "month" low with
              | Some g => offset_date int_max_str_digits today 30 g
              | None =>
                  match fallback with
                  | Return (Some d) => Return (Some d)
                  | Return None => Return None
                  | Raise _ => Return None
                  end
              end
          end
    end.

(** A token that survives the storage as part of a [skills] field: not
    empty, without comma, trimmed, lower-case, and not starting with a
    bracket. *)
Definition clean_token (x : string) : bool :=
  nonempty x && negb (occurs "," x) && String.eqb (lstrip x) x
  && String.eqb (rstrip x) x && String.eqb (lower x) x
  && negb (startswith "[" x).

(** The tokens that the field [skills] of a record stands for. *)
Definition field_tokens (skills : list string) : list string :=
  match skills with
  | [] => ["n/a"]
  | _ => skills
  end.

(** What [store_jobs] does with a cell of the column [url]: whether it
    rejects it, and the url it stores for it otherwise. *)
Definition cell_rejected (cell : option pyval) : bool :=
  let v := match cell with Some v => v | None => PyNone end in
  pd_isna v || negb (nonempty (strip (py_str v))).

Definition cell_url (cell : option pyval) : string :=
  strip (py_str match cell with Some v => v | None => PyNone end).

(** Two cells that [store_jobs] cannot tell apart: both rejected, or both
    accepted with the same url. *)
Definition same_for_store (a b : option pyval) : Prop :=
  cell_rejected a = cell_rejected b /\
  (cell_rejected a = false -> cell_url a = cell_url b).

(** Cells that hold the same text, or no value both, as
    [drop_duplicates] compares them. *)
Definition same_cell (a b : option pyval) : bool :=
  match a, b with
  | Some (PyVal x), Some (PyVal y) => String.eqb x y
  | Some (PyVal _), _ | _, Some (PyVal _) => false
  | _, _ => true
  end.

(** The ids of the table grow with the insertions and stay below the
    AUTOINCREMENT counter. *)
Definition ids_ordered (t : table) : Prop :=
  StronglySorted Z.lt (id <$> jobs t) /\
  Forall (fun j => (id j <= sqlite_sequence t)%Z) (jobs t).

Definition storage_ids_ordered (st : storage) : Prop :=
  match st with
  | Available t => ids_ordered t
  | Unavailable | Unqueryable => True
  end.

(** The filter on [source]: none, or the same text up to the case of the
    letters A..Z. *)
Definition source_matches (source_filter : option string) (j : job) : Prop :=
  match source_filter with
  | None | Some EmptyString => True
  | Some src => sql_lower (source j) = sql_lower src
  end.

(** The first and the last character of a text, if it has one. *)
Definition first_char (s : string) : option ascii :=
  match s with
  | String c _ => Some c
  | EmptyString => None
  end.

Fixpoint last_char (s : string) : option ascii :=
  match s with
  | EmptyString => None
  | String c t =>
      match last_char t with
      | Some d => Some d
      | None => Some c
      end
  end.

(** A letter, a digit or an underscore; white space.  Beyond the two ends
    of a text there is neither. *)
Definition word_char (c : option ascii) : bool :=
  match c with
  | Some c => isword c
  | None => false
  end.

Definition space_char (c : option ascii) : bool :=
  match c with
  | Some c => isspace c
  | None => false
  end.

(** [sub] is a part of [text]; [sub] stands in [text] as a word, with no
    word character next to it on either side. *)
Definition occurs_in (sub text : string) : Prop :=
  exists before after, text = before +:+ sub +:+ after.

Definition stands_as_word (sub text : string) : Prop :=
  exists before after,
    text = before +:+ sub +:+ after /\
    word_char (last_char before) = false /\
    word_char (first_char after) = false.

(** The date that a row is ordered by: its [parsed_date], and 1970-01-01
    for a row without one. *)
Definition date_or_1970 (j : job) : string :=
  match parsed_date j with
  | Some d => d
  | None => "1970-01-01"
  end.

(** [a] may stand before [b] in the result: the date of [a] is the later
    one, the texts compared code point by code point; or the dates are the
    same and [scraped_at] of [a] is not the earlier one. *)
Definition newest_first (a b : job) : Prop :=
  String.ltb (date_or_1970 b) (date_or_1970 a) = true \/
  (date_or_1970 a = date_or_1970 b /\
   String.leb (scraped_at b) (scraped_at a) = true).

(** A fragment of an entry of the series as it is written: white space,
    the text of a skill, white space.  The text of the skill has no comma
    and no white space at its ends; it may be empty. *)
Record fragment : Type := {
  lead : string;
  word : string;
  trail : string
}.

Definition fragment_text (f : fragment) : string :=
  lead f +:+ word f +:+ trail f.

Definition fragment_ok (f : fragment) : Prop :=
  all isspace (lead f) = true /\
  all isspace (trail f) = true /\
  occurs "," (word f) = false /\
  space_char (first_char (word f)) = false /\
  space_char (last_char (word f)) = false.

(** The fragments written one after the other with commas between. *)
Definition written (fragments : list fragment) : string :=
  join "," (fragment_text <$> fragments).

(** An entry of the series: a missing value; fragments with commas
    between; or fragments with commas between inside one pair of brackets,
    with white space around the brackets. *)
Inductive written_entry : Type :=
| Missing
| Plain (fragments : list fragment)
| Bracketed (before : string) (fragments : list fragment) (after : string).

Definition entry_of (e : written_entry) : skill_entry :=
  match e with
  | Missing => EntryNA
  | Plain fragments => EntryStr (written fragments)
  | Bracketed before fragments after =>
      EntryStr (before +:+ "[" +:+ written fragments +:+ "]" +:+ after)
  end.

(** The first skill starts with an opening bracket and the last one ends
    with a closing bracket: such fragments are written in brackets. *)
Definition in_brackets (fragments : list fragment) : Prop :=
  (head fragments ≫= fun f => first_char (word f)) = Some "["%char /\
  (last fragments ≫= fun f => last_char (word f)) = Some "]"%char.

Definition written_ok (e : written_entry) : Prop :=
  match e with
  | Missing => True
  | Plain fragments => Forall fragment_ok fragments /\ ~ in_brackets fragments
  | Bracketed before fragments after =>
      all isspace before = true /\ all isspace after = true /\
      Forall fragment_ok fragments
  end.

(** The tokens that an entry stands for: its skills in lower case, the empty
    ones left out. *)
Definition written_tokens (e : written_entry) : list string :=
  match e with
  | Missing => []
  | Plain fragments | Bracketed _ fragments _ =>
      lower <$> filter (fun w => w <> "") (word <$> fragments)
  end.

End Spec2.

(** * Properties *)

(** ** The primitives on sample inputs *)

Example lower_ex : Py.lower "Senior C++ Engineer" = "senior c++ engineer".
Proof. reflexivity. Qed.

Example strip_ex : Py.strip "  3 days ago " = "3 days ago".
Proof. reflexivity. Qed.

Example split_ex : Py.split "," "a,b,,c" = ["a"; "b"; ""; "c"].
Proof. reflexivity. Qed.

Example split_empty_ex : Py.split "," "" = [""].
Proof. reflexivity. Qed.

Example replace_ex : Py.replace ".js" "js" "x..jsjs" = "x.jsjs".
Proof. reflexivity. Qed.

Example slice_ex : Py.slice_1_m1 "[python, sql]" = "python, sql".
Proof. reflexivity. Qed.

Example sorted_ex : Py.sorted ["sql"; "c++"; "python"; "c#"] = ["c#"; "c++"; "python"; "sql"].
Proof. vm_compute. reflexivity. Qed.

Example prd1 : DataParser.parse_relative_date (fun _ _ => Return None) 4300 739924 (Some "3 days ago") = Return (Some 739921%Z).
Proof. vm_compute. reflexivity. Qed.
Example prd2 : DataParser.parse_relative_date (fun _ _ => Return None) 4300 739924 (Some "Posted 2 Weeks  ago ") = Return (Some 739910%Z).
Proof. vm_compute. reflexivity. Qed.
Example prd3 : DataParser.parse_relative_date (fun _ _ => Return None) 4300 739924 (Some "3 months ago") = Return (Some 739834%Z).
Proof. vm_compute. reflexivity. Qed.
Example prd4 : DataParser.parse_relative_date (fun _ _ => Return None) 4300 739924 (Some "1000000 days ago") = Raise OverflowError.
Proof. vm_compute. reflexivity. Qed.
Example prd5 : DataParser.parse_relative_date (fun _ _ => Return None) 4300 739924 (Some "1 day s ago") = Return None.
Proof. vm_compute. reflexivity. Qed.
Example prd6 : DataParser.re_search_ago "day" "5 days  ago3 days ago" = Some "5".
Proof. vm_compute. reflexivity. Qed.

Example es1 : DataParser.extract_skills_from_text elements (Some "Senior C++ Engineer") = ["c++"].
Proof. vm_compute. reflexivity. Qed.
Example es2 : DataParser.extract_skills_from_text elements (Some "We are going places") = [].
Proof. vm_compute. reflexivity. Qed.
Example as1 : DataParser.analyze_skills (Some [DataParser.EntryStr "python, sql"; DataParser.EntryStr "python, go"]) = {[ "python" := 2%nat; "sql" := 1%nat; "go" := 1%nat ]}.
Proof. vm_compute. reflexivity. Qed.

(** ** Facts about the string primitives *)

Module PyFacts.

Import Py.

Lemma str_app_nil_l s : "" +:+ s = s.
Proof. reflexivity. Qed.

Lemma str_app_cons c s t : String c s +:+ t = String c (s +:+ t).
Proof. reflexivity. Qed.

Lemma str_app_nil_r s : s +:+ "" = s.
Proof. induction s as [|c s IH]; [done | by rewrite str_app_cons, IH]. Qed.

Lemma str_app_assoc s t u : (s +:+ t) +:+ u = s +:+ (t +:+ u).
Proof. induction s as [|c s IH]; [done | by rewrite !str_app_cons, IH]. Qed.

Lemma all_app p s t : all p (s +:+ t) = all p s && all p t.
Proof.
  induction s as [|c s IH]; [done |].
  rewrite str_app_cons. simpl. by rewrite IH, andb_assoc.
Qed.

Lemma occurs_app c s t : occurs c (s +:+ t) = occurs c s || occurs c t.
Proof.
  induction s as [|d s IH]; [done |].
  rewrite str_app_cons. simpl. by rewrite IH, orb_assoc.
Qed.

Lemma occurs_all p c s : all p s = true -> p c = false -> occurs c s = false.
Proof.
  intros Hall Hc. induction s as [|d s IH]; simpl in *; [done |].
  apply andb_prop in Hall as [Hd Hs].
  rewrite (IH Hs), orb_false_r.
  destruct (Ascii.eqb_spec c d) as [->|]; [congruence | done].
Qed.

Lemma prefix_occurs c sub s :
  String.prefix sub s = true -> occurs c sub = true -> occurs c s = true.
Proof.
  revert s. induction sub as [|a sub IH]; intros s Hp Hc; [done |].
  destruct s as [|b s]; [done |]. simpl in *.
  destruct (ascii_dec a b) as [->|]; [| done].
  destruct (Ascii.eqb c b); [done |]. simpl in *. eauto.
Qed.

Lemma contains_nil sub : contains sub "" = String.prefix sub "".
Proof. unfold contains. apply orb_false_r. Qed.

Lemma contains_cons sub b s :
  contains sub (String b s) = String.prefix sub (String b s) || contains sub s.
Proof. reflexivity. Qed.

Lemma contains_occurs c sub s :
  contains sub s = true -> occurs c sub = true -> occurs c s = true.
Proof.
  intros Hs Hc. induction s as [|b s IH].
  - rewrite contains_nil in Hs. exact (prefix_occurs c sub _ Hs Hc).
  - rewrite contains_cons in Hs. apply orb_prop in Hs as [Hs|Hs].
    + exact (prefix_occurs c sub _ Hs Hc).
    + simpl. rewrite (IH Hs). apply orb_true_r.
Qed.

(** A text without the character [c] contains no string that has it. *)
Lemma contains_absent c sub s :
  occurs c sub = true -> occurs c s = false -> contains sub s = false.
Proof.
  intros Hc Hs. destruct (contains sub s) eqn:E; [| done].
  rewrite (contains_occurs c sub s E Hc) in Hs. done.
Qed.

Lemma prefix_app s t : String.prefix s (s +:+ t) = true.
Proof.
  induction s as [|c s IH]; [by destruct t |].
  rewrite str_app_cons. simpl. destruct (ascii_dec c c); [done | congruence].
Qed.

Lemma contains_app_r sub a b : contains sub b = true -> contains sub (a +:+ b) = true.
Proof.
  intros H. induction a as [|c a IH]; [done |].
  rewrite str_app_cons, contains_cons, IH. apply orb_true_r.
Qed.

Lemma contains_here sub a b : contains sub (a +:+ sub +:+ b) = true.
Proof.
  apply contains_app_r. destruct (sub +:+ b) eqn:E.
  - destruct sub; [done | discriminate].
  - rewrite contains_cons, <- E, prefix_app. done.
Qed.

Lemma lower_char_id c : isupper c = false -> lower_char c = c.
Proof. unfold lower_char. by intros ->. Qed.

Lemma lower_id s : all (fun c => negb (isupper c)) s = true -> lower s = s.
Proof.
  induction s as [|c s IH]; simpl; [done |].
  intros [Hc Hs]%andb_prop. rewrite IH by done.
  rewrite lower_char_id; [done | by destruct (isupper c)].
Qed.

Lemma all_impl (p q : ascii -> bool) s :
  (forall c, p c = true -> q c = true) -> all p s = true -> all q s = true.
Proof.
  intros Hpq. induction s as [|c s IH]; simpl; [done |].
  intros [Hc Hs]%andb_prop. rewrite (Hpq _ Hc), IH; done.
Qed.

Lemma isdecimal_not_upper c : isdecimal c = true -> negb (isupper c) = true.
Proof. destruct c as [[] [] [] [] [] [] [] []]; vm_compute; congruence. Qed.

Lemma isspace_not_upper c : isspace c = true -> negb (isupper c) = true.
Proof. destruct c as [[] [] [] [] [] [] [] []]; vm_compute; congruence. Qed.

Lemma isspace_not_decimal c : isspace c = true -> isdecimal c = false.
Proof. destruct c as [[] [] [] [] [] [] [] []]; vm_compute; congruence. Qed.

Lemma lstrip_id c s : isspace c = false -> lstrip (String c s) = String c s.
Proof. simpl. by intros ->. Qed.

Lemma rstrip_app a b : b <> "" -> rstrip b = b -> rstrip (a +:+ b) = a +:+ b.
Proof.
  intros Hne Hb. induction a as [|c a IH]; [done |].
  rewrite str_app_cons. simpl. rewrite IH. destruct (a +:+ b) eqn:E; [| done].
  destruct a; [by rewrite str_app_nil_l in E | by rewrite str_app_cons in E].
Qed.

Lemma digit_value_range c : isdecimal c = true -> (0 <= digit_value c <= 9)%Z.
Proof. destruct c as [[] [] [] [] [] [] [] []]; vm_compute; intuition congruence. Qed.

Lemma decimal_from_nonneg acc s :
  all isdecimal s = true -> (0 <= acc)%Z -> (0 <= decimal_from acc s)%Z.
Proof.
  revert acc. induction s as [|c s IH]; simpl; intros acc Hs Hacc; [done |].
  apply andb_prop in Hs as [Hc Hs]. apply IH; [done |].
  pose proof (digit_value_range c Hc). lia.
Qed.

Lemma decimal_nonneg s : all isdecimal s = true -> (0 <= decimal s)%Z.
Proof. intros H. by apply decimal_from_nonneg. Qed.

End PyFacts.

(** ** Date normalizer *)

Module DateFacts.

Import Py PyFacts DataParser.

Local Open Scope Z_scope.

Lemma span_app p a b :
  all p a = true -> head_fails p b = true -> span p (a +:+ b) = (a, b).
Proof.
  intros Ha Hb. induction a as [|c a IH].
  - destruct b as [|d b]; [done |]. simpl in *.
    by destruct (p d).
  - simpl in Ha. apply andb_prop in Ha as [Hc Ha].
    rewrite str_app_cons. simpl. by rewrite Hc, IH.
Qed.

Lemma span_eq p s a b : span p s = (a, b) -> s = a +:+ b.
Proof.
  revert a b. induction s as [|c s IH]; intros a b H; simpl in H.
  - by inversion H.
  - destruct (p c).
    + destruct (span p s) as [a' b'] eqn:E. inversion H; subst.
      by rewrite str_app_cons, <- (IH a' b).
    + by inversion H.
Qed.

Lemma strip_prefix_app pre r : strip_prefix pre (pre +:+ r) = Some r.
Proof.
  induction pre as [|c pre IH]; [done |].
  rewrite str_app_cons. simpl. by rewrite Ascii.eqb_refl.
Qed.

Lemma strip_prefix_eq pre s r : strip_prefix pre s = Some r -> s = pre +:+ r.
Proof.
  revert s. induction pre as [|c pre IH]; intros s H; simpl in H.
  - by inversion H.
  - destruct s as [|d s]; [done |].
    destruct (Ascii.eqb_spec c d) as [->|]; [| done].
    by rewrite str_app_cons, <- (IH s).
Qed.

Lemma nonempty_true s : s <> "" -> nonempty s = true.
Proof. by destruct s. Qed.

Lemma match_ago_occurs c unit s g :
  match_ago unit s = Some g -> occurs c unit = true -> occurs c s = true.
Proof.
  unfold match_ago. intros H Hc.
  destruct (span isdecimal s) as [digits r1] eqn:E1.
  destruct (span isspace r1) as [ws1 r2] eqn:E2.
  destruct (strip_prefix unit r2) as [r3|] eqn:E3; [| done].
  rewrite (span_eq _ _ _ _ E1), (span_eq _ _ _ _ E2), (strip_prefix_eq _ _ _ E3).
  rewrite !occurs_app, Hc. by rewrite !orb_true_r.
Qed.

Lemma re_search_ago_absent c unit s :
  occurs c unit = true -> occurs c s = false -> re_search_ago unit s = None.
Proof.
  intros Hc. induction s as [|d s IH]; intros Hs.
  - simpl. destruct (match_ago unit "") eqn:E; [| done].
    by rewrite (match_ago_occurs c _ _ _ E Hc) in Hs.
  - simpl. destruct (match_ago unit (String d s)) eqn:E.
    + by rewrite (match_ago_occurs c _ _ _ E Hc) in Hs.
    + apply IH. simpl in Hs. by apply orb_false_elim in Hs as [_ ?].
Qed.

Lemma re_search_ago_here unit s g :
  match_ago unit s = Some g -> re_search_ago unit s = Some g.
Proof. intros H. destruct s; simpl; by rewrite H. Qed.

Lemma head_fails_space_app ws r :
  ws <> "" -> all isspace ws = true -> head_fails isdecimal (ws +:+ r) = true.
Proof.
  destruct ws as [|w ws]; [done |]. intros _ [Hw _]%andb_prop.
  rewrite str_app_cons. simpl. by rewrite (isspace_not_decimal w Hw).
Qed.

Lemma startswith_s_space ws r :
  ws <> "" -> all isspace ws = true -> startswith "s" (ws +:+ r) = false.
Proof.
  destruct ws as [|w ws]; [done |]. intros _ [Hw _]%andb_prop.
  rewrite str_app_cons. unfold startswith.
  destruct (Ascii.eqb_spec "s" w) as [<-|]; [by vm_compute in Hw | done].
Qed.

Lemma match_ago_text digits ws1 u plural ws2 :
  digits <> "" -> all isdecimal digits = true ->
  ws1 <> "" -> all isspace ws1 = true ->
  ws2 <> "" -> all isspace ws2 = true ->
  match_ago (unit_word u) (ago_text digits ws1 u plural ws2) = Some digits.
Proof.
  intros Hd Hdd Hw1 Hww1 Hw2 Hww2. unfold match_ago, ago_text.
  rewrite (span_app isdecimal digits) by (by try apply head_fails_space_app).
  rewrite (span_app isspace ws1) by (by try destruct u).
  rewrite strip_prefix_app.
  assert ((if startswith "s" ((if plural then "s" else "") +:+ ws2 +:+ "ago")
           then drop_first ((if plural then "s" else "") +:+ ws2 +:+ "ago")
           else (if plural then "s" else "") +:+ ws2 +:+ "ago") = ws2 +:+ "ago") as ->.
  { destruct plural; [done |]. rewrite str_app_nil_l.
    by rewrite startswith_s_space. }
  rewrite (span_app isspace ws2) by done.
  by rewrite !nonempty_true.
Qed.

Section normalizer.

Variable dateparser_parse : string -> Z -> py_result (option Z).
Variable int_max_str_digits : nat.

Let normalize_date := parse_relative_date dateparser_parse int_max_str_digits.

Lemma normalize_date_text today text :
  text <> "" ->
  normalize_date today (Some text) =
    let date_str_lower := strip (lower text) in
    if existsb (fun term => contains term date_str_lower)
         ["just posted"; "posted today"; "active today"; "today"]
    then Return (Some today)
    else
      match re_search_ago "day" date_str_lower with
      | Some g =>
          days ← py_int int_max_str_digits g;
          delta ← timedelta days;
          d ← minus_delta today delta;
          Return (Some d)
      | None =>
          if contains "hour" date_str_lower
             || contains "minute" date_str_lower
             || contains "moment" date_str_lower
          then Return (Some today)
          else
            match re_search_ago "week" date_str_lower with
            | Some g =>
                weeks ← py_int int_max_str_digits g;
                delta ← timedelta (7 * weeks);
                d ← minus_delta today delta;
                Return (Some d)
            | None =>
                match re_search_ago "month" date_str_lower with
                | Some g =>
                    months ← py_int int_max_str_digits g;
                    delta ← timedelta (months * 30);
                    d ← minus_delta today delta;
                    Return (Some d)
                | None =>
                    match dateparser_parse text today with
                    | Return (Some d) => Return (Some d)
                    | Return None => Return None
                    | Raise _ => Return None
                    end
                end
            end
      end.
Proof. by destruct text. Qed.

Lemma py_int_ok digits :
  (int_max_str_digits = 0 \/ String.length digits <= int_max_str_digits)%nat ->
  py_int int_max_str_digits digits = Return (decimal digits).
Proof.
  intros H. unfold py_int.
  destruct (0 <? int_max_str_digits)%nat eqn:E1; [| done].
  destruct (int_max_str_digits <? String.length digits)%nat eqn:E2; [| done].
  apply Nat.ltb_lt in E1, E2. lia.
Qed.

Lemma ago_text_lower_strip digits ws1 u plural ws2 :
  digits <> "" -> all isdecimal digits = true ->
  all isspace ws1 = true -> all isspace ws2 = true ->
  strip (lower (ago_text digits ws1 u plural ws2)) = ago_text digits ws1 u plural ws2.
Proof.
  intros Hd Hdd Hw1 Hw2.
  rewrite lower_id.
  - unfold strip, ago_text. destruct digits as [|c digits]; [done |].
    simpl in Hdd. apply andb_prop in Hdd as [Hc _].
    rewrite str_app_cons, lstrip_id.
    + rewrite <- str_app_cons, <- !str_app_assoc. by apply rstrip_app.
    + destruct (isspace c) eqn:E; [| done].
      by rewrite (isspace_not_decimal c E) in Hc.
  - unfold ago_text. rewrite !all_app.
    rewrite (all_impl _ _ _ isdecimal_not_upper Hdd).
    rewrite (all_impl _ _ _ isspace_not_upper Hw1).
    rewrite (all_impl _ _ _ isspace_not_upper Hw2).
    by destruct u, plural.
Qed.

(** A character that is neither a digit nor white space, and in neither
    the unit nor "s" nor "ago", is not in the text. *)
Lemma ago_text_absent c digits ws1 u plural ws2 :
  all isdecimal digits = true -> all isspace ws1 = true -> all isspace ws2 = true ->
  isdecimal c = false -> isspace c = false ->
  occurs c (unit_word u +:+ "s" +:+ "ago") = false ->
  occurs c (ago_text digits ws1 u plural ws2) = false.
Proof.
  intros Hdd Hw1 Hw2 Hc1 Hc2 Hu. unfold ago_text.
  rewrite !occurs_app in *.
  rewrite (occurs_all _ _ _ Hdd Hc1), (occurs_all _ _ _ Hw1 Hc2),
    (occurs_all _ _ _ Hw2 Hc2).
  apply orb_false_elim in Hu as [-> [Hs ->]%orb_false_elim].
  destruct plural; [by rewrite Hs | done].
Qed.

Ltac absent c :=
  apply (contains_absent c); [reflexivity |];
  apply ago_text_absent; solve [assumption | reflexivity].

Ltac regex_absent c :=
  apply (re_search_ago_absent c); [reflexivity |];
  apply ago_text_absent; solve [assumption | reflexivity].

(** On such a text every rule before the one of its unit fails, and the
    rule of the unit takes the whole run of digits. *)
Lemma normalize_date_ago today digits ws1 u plural ws2 :
  digits <> "" -> all isdecimal digits = true ->
  ws1 <> "" -> all isspace ws1 = true ->
  ws2 <> "" -> all isspace ws2 = true ->
  normalize_date today (Some (ago_text digits ws1 u plural ws2)) =
    (n ← py_int int_max_str_digits digits;
     delta ← timedelta (unit_days u * n);
     d ← minus_delta today delta;
     Return (Some d)).
Proof.
  intros Hd Hdd Hw1 Hww1 Hw2 Hww2.
  rewrite normalize_date_text by (unfold ago_text; by destruct digits).
  cbv zeta. rewrite ago_text_lower_strip by done.
  set (text := ago_text digits ws1 u plural ws2).
  assert (existsb (fun term => contains term text)
            ["just posted"; "posted today"; "active today"; "today"] = false) as ->.
  { unfold existsb, text. destruct u; rewrite !orb_false_r.
    - repeat (apply orb_false_intro); absent "t"%char.
    - repeat (apply orb_false_intro); absent "d"%char.
    - repeat (apply orb_false_intro); absent "d"%char. }
  pose proof (match_ago_text digits ws1 u plural ws2 Hd Hdd Hw1 Hww1 Hw2 Hww2) as Hm.
  apply re_search_ago_here in Hm. fold text in Hm.
  destruct u; simpl unit_word in Hm.
  - rewrite Hm. destruct (py_int int_max_str_digits digits) as [n|e]; [| done].
    simpl. by rewrite Z.mul_1_l.
  - assert (re_search_ago "day" text = None) as -> by (unfold text; regex_absent "d"%char).
    assert (contains "hour" text = false) as -> by (unfold text; absent "h"%char).
    assert (contains "minute" text = false) as -> by (unfold text; absent "m"%char).
    assert (contains "moment" text = false) as -> by (unfold text; absent "m"%char).
    rewrite Hm. done.
  - assert (re_search_ago "day" text = None) as -> by (unfold text; regex_absent "d"%char).
    assert (contains "hour" text = false) as -> by (unfold text; absent "u"%char).
    assert (contains "minute" text = false) as -> by (unfold text; absent "i"%char).
    assert (contains "moment" text = false) as -> by (unfold text; absent "e"%char).
    assert (re_search_ago "week" text = None) as -> by (unfold text; regex_absent "w"%char).
    rewrite Hm. destruct (py_int int_max_str_digits digits) as [n|e]; [| done].
    simpl. by rewrite (Z.mul_comm n 30).
Qed.

End normalizer.

End DateFacts.

(** ** The date normalizer on relative dates *)

Import DataParser DateFacts.

(** C2, amended.  Take a text made of a run of decimal digits, white space,
    "day", "week" or "month" with or without a plural "s", white space and
    "ago", where the digits are few enough for [int] and write a number N
    such that today minus N days (7 N days for weeks, 30 N days for months)
    is not before 0001-01-01.  Then [parse_relative_date] returns today
    minus N days, minus 7 N days, or minus 30 N days. *)
Theorem parse_relative_date_offset
    (dateparser_parse : string -> Z -> py_result (option Z))
    (int_max_str_digits : nat) (today : Z)
    (digits ws1 : string) (u : ago_unit) (plural : bool) (ws2 : string) :
  digits <> "" -> Py.all Py.isdecimal digits = true ->
  ws1 <> "" -> Py.all Py.isspace ws1 = true ->
  ws2 <> "" -> Py.all Py.isspace ws2 = true ->
  (int_max_str_digits = 0 \/ String.length digits <= int_max_str_digits)%nat ->
  (today <= MAXORDINAL)%Z ->
  (MINORDINAL <= today - unit_days u * Py.decimal digits)%Z ->
  parse_relative_date dateparser_parse int_max_str_digits today
    (Some (ago_text digits ws1 u plural ws2))
  = Return (Some (today - unit_days u * Py.decimal digits)%Z).
Proof.
  intros Hd Hdd Hw1 Hww1 Hw2 Hww2 Hlim Hmax Hmin.
  rewrite normalize_date_ago by done.
  rewrite py_int_ok by done. simpl.
  pose proof (PyFacts.decimal_nonneg digits Hdd) as Hn.
  assert (0 <= unit_days u * Py.decimal digits)%Z as Hk by (destruct u; simpl; lia).
  unfold MINORDINAL, MAXORDINAL in *.
  unfold timedelta.
  destruct (Z.leb_spec (Z.abs (unit_days u * Py.decimal digits)) 999999999) as [_|Hbig];
    [| lia].
  simpl. unfold minus_delta, MINORDINAL, MAXORDINAL.
  destruct (Z.leb_spec 1 (today - unit_days u * Py.decimal digits)); [| lia].
  destruct (Z.leb_spec (today - unit_days u * Py.decimal digits) 3652059); [| lia].
  done.
Qed.

Lemma parse_relative_date_offset_witness :
  "3" <> "" /\ Py.all Py.isdecimal "3" = true /\
  " " <> "" /\ Py.all Py.isspace " " = true /\
  (4300 = 0 \/ String.length "3" <= 4300)%nat /\
  (739924 <= MAXORDINAL)%Z /\
  (MINORDINAL <= 739924 - unit_days Weeks * Py.decimal "3")%Z /\
  parse_relative_date (fun _ _ => Return None) 4300 739924 (Some "3 weeks ago")
  = Return (Some 739903%Z).
Proof.
  split; [done |]. split; [reflexivity |].
  split; [done |]. split; [reflexivity |].
  split; [right; simpl; lia |].
  split; [unfold MAXORDINAL; lia |].
  split; [vm_compute; discriminate |].
  apply (parse_relative_date_offset (fun _ _ => Return None) 4300 739924
           "3" " " Weeks true " ");
    [done | reflexivity | done | reflexivity | done | reflexivity
    | right; simpl; lia | unfold MAXORDINAL; lia | vm_compute; discriminate].
Defined.

(** C2 as stated fails: "1000000 days ago" has the form "<N> days ago",
    and on 2026-11-04 (ordinal 739924) the call raises instead of returning
    a date. *)
Lemma parse_relative_date_offset_fails :
  "1000000 days ago" = ago_text "1000000" " " Days true " " /\
  parse_relative_date (fun _ _ => Return None) 4300 739924 (Some "1000000 days ago")
  = Raise OverflowError /\
  parse_relative_date (fun _ _ => Return None) 4300 739924 (Some "1000000 days ago")
  <> Return (Some (739924 - 1000000)%Z).
Proof.
  split; [reflexivity |]. split; [vm_compute; reflexivity |].
  vm_compute. discriminate.
Qed.

(** C6, the failing input.  Whatever the date of the day, "3652059 days
    ago" makes [parse_relative_date] raise [OverflowError]: the subtraction
    leaves the range of [date], outside any [try] block. *)
Theorem parse_relative_date_raises
    (dateparser_parse : string -> Z -> py_result (option Z))
    (int_max_str_digits : nat) (today : Z) :
  (int_max_str_digits = 0 \/ 7 <= int_max_str_digits)%nat ->
  (today <= MAXORDINAL)%Z ->
  parse_relative_date dateparser_parse int_max_str_digits today
    (Some "3652059 days ago")
  = Raise OverflowError.
Proof.
  intros Hlim Hmax.
  change "3652059 days ago" with (ago_text "3652059" " " Days true " ").
  rewrite normalize_date_ago by done.
  rewrite py_int_ok by (simpl; lia).
  change (Py.decimal "3652059") with 3652059%Z.
  cbn [mbind py_result_bind].
  change (timedelta (unit_days Days * 3652059)) with (Return (A:=Z) 3652059%Z).
  cbn [mbind py_result_bind].
  unfold minus_delta, MINORDINAL, MAXORDINAL in *.
  destruct (Z.leb_spec 1 (today - 3652059)); [lia | done].
Qed.

Lemma parse_relative_date_raises_witness :
  (4300 = 0 \/ 7 <= 4300)%nat /\ (739924 <= MAXORDINAL)%Z /\
  parse_relative_date (fun _ _ => Return None) 4300 739924 (Some "3652059 days ago")
  = Raise OverflowError.
Proof.
  split; [right; lia |]. split; [unfold MAXORDINAL; lia |].
  apply (parse_relative_date_raises (fun _ _ => Return None) 4300 739924);
    [right; lia | unfold MAXORDINAL; lia].
Defined.

(** The part of C6 that holds: a missing or empty text gives no date. *)
Lemma parse_relative_date_absent dateparser_parse int_max_str_digits today :
  parse_relative_date dateparser_parse int_max_str_digits today None = Return None /\
  parse_relative_date dateparser_parse int_max_str_digits today (Some "") = Return None.
Proof. done. Qed.

(** ** Sorting strings *)

Module SortFacts.

Import Py.

Lemma ascii_compare_refl a : Ascii.compare a a = Eq.
Proof. unfold Ascii.compare. apply N.compare_refl. Qed.

Lemma ascii_compare_lt_trans a b c :
  Ascii.compare a b = Lt -> Ascii.compare b c = Lt -> Ascii.compare a c = Lt.
Proof. unfold Ascii.compare. rewrite !N.compare_lt_iff. lia. Qed.

Lemma compare_lt_trans s1 s2 s3 :
  String.compare s1 s2 = Lt -> String.compare s2 s3 = Lt -> String.compare s1 s3 = Lt.
Proof.
  revert s2 s3. induction s1 as [|a s1 IH]; intros [|b s2] [|c s3]; simpl; try done.
  destruct (Ascii.compare a b) eqn:Eab; try done.
  - apply Ascii.compare_eq_iff in Eab as ->.
    destruct (Ascii.compare b c) eqn:Ebc; try done. apply IH.
  - destruct (Ascii.compare b c) eqn:Ebc; try done.
    + apply Ascii.compare_eq_iff in Ebc as ->. by rewrite Eab.
    + by rewrite (ascii_compare_lt_trans a b c).
Qed.

Lemma str_le_cases s1 s2 : str_le s1 s2 <-> s1 = s2 \/ String.compare s1 s2 = Lt.
Proof.
  unfold str_le, String.leb. split.
  - destruct (String.compare s1 s2) eqn:E; [| by right | done].
    left. by apply String.compare_eq_iff.
  - intros [->| ->]; [| done].
    destruct (String.compare s2 s2) eqn:E; try done.
    pose proof (String.compare_antisym s2 s2) as H. rewrite E in H. done.
Qed.

#[global] Instance str_le_trans : Transitive str_le.
Proof.
  intros a b c. rewrite !str_le_cases. intros [->|Hab] [->|Hbc]; auto.
  right. by apply (compare_lt_trans a b c).
Qed.

#[global] Instance str_le_total : Total str_le.
Proof. intros a b. apply String.leb_total. Qed.

#[global] Instance str_le_antisym : AntiSymm (=) str_le.
Proof. intros a b. apply String.leb_antisym. Qed.

Lemma sorted_perm l : sorted l ≡ₚ l.
Proof. apply merge_sort_Permutation. Qed.

Lemma sorted_sorted l : StronglySorted str_le (sorted l).
Proof. apply (StronglySorted_merge_sort str_le). Qed.

(** [sorted] does not depend on the order of its argument. *)
Lemma sorted_order_irrelevant l1 l2 : l1 ≡ₚ l2 -> sorted l1 = sorted l2.
Proof.
  intros H. apply (StronglySorted_unique str_le); try apply sorted_sorted.
  by rewrite !sorted_perm.
Qed.

Lemma elem_of_sorted x l : x ∈ sorted l <-> x ∈ l.
Proof. by rewrite sorted_perm. Qed.

End SortFacts.

(** ** Skill extractor *)

Module ExtractFacts.

Import Py PyFacts SortFacts DataParser.

Lemma elem_of_scan text l init x :
  x ∈ foldl (scan_skill text) init l <->
  x ∈ init \/ (x ∈ l /\ x <> "" /\ skill_found text x = true).
Proof.
  revert init. induction l as [|skill l IH]; intros init; simpl.
  - rewrite elem_of_nil. tauto.
  - rewrite IH, elem_of_cons. unfold scan_skill.
    destruct (String.eqb_spec skill "") as [->|Hne].
    + split; [| by intros [?|[[->|?] [? ?]]]; auto].
      intros [?|(? & ? & ?)]; auto.
    + destruct (skill_found text skill) eqn:E.
      * rewrite elem_of_union, elem_of_singleton.
        split; [intros [[->|?]|(? & ? & ?)]; auto 6 |].
        intros [?|[[->|?] [? ?]]]; auto.
      * split; [intros [?|(? & ? & ?)]; auto |].
        intros [?|[[->|?] [? ?]]]; auto. congruence.
Qed.

Section order.

Variable set_order : gset string -> list string.
Hypothesis set_order_perm : forall s, set_order s ≡ₚ elements s.

Lemma elem_of_set_order x s : x ∈ set_order s <-> x ∈ s.
Proof. by rewrite set_order_perm, elem_of_elements. Qed.

Lemma NoDup_set_order s : NoDup (set_order s).
Proof. rewrite set_order_perm. apply NoDup_elements. Qed.

Lemma COMMON_SKILLS_order : COMMON_SKILLS set_order = COMMON_SKILLS elements.
Proof. apply sorted_order_irrelevant, set_order_perm. Qed.

Lemma elem_of_COMMON_SKILLS x :
  x ∈ COMMON_SKILLS set_order <-> x ∈ COMMON_SKILLS_literal.
Proof.
  unfold COMMON_SKILLS.
  by rewrite elem_of_sorted, elem_of_set_order, elem_of_list_to_set.
Qed.

Lemma extract_skills_text text :
  text <> "" ->
  extract_skills_from_text set_order (Some text) =
    sorted (set_order (list_to_set (normalize_skill <$>
      set_order (foldl (scan_skill (lower text)) ∅ (COMMON_SKILLS set_order))))).
Proof. by destruct text. Qed.

(** The members of the result are the normalized forms of the matched
    skills. *)
Lemma elem_of_extract_skills text x :
  text <> "" ->
  x ∈ extract_skills_from_text set_order (Some text) <->
  exists skill, matched (lower text) skill /\ x = normalize_skill skill.
Proof.
  intros Hne. rewrite extract_skills_text by done.
  rewrite elem_of_sorted, elem_of_set_order, elem_of_list_to_set, list_elem_of_fmap.
  unfold matched. split.
  - intros (skill & -> & Hs). exists skill. split; [| done].
    rewrite elem_of_set_order, elem_of_scan, elem_of_COMMON_SKILLS in Hs.
    destruct Hs as [Hs|Hs]; [by apply not_elem_of_empty in Hs | done].
  - intros (skill & Hs & ->). exists skill. split; [done |].
    rewrite elem_of_set_order, elem_of_scan, elem_of_COMMON_SKILLS. by right.
Qed.

Lemma extract_skills_sorted text_blob :
  StronglySorted str_le (extract_skills_from_text set_order text_blob).
Proof.
  destruct text_blob as [[|c text]|]; try constructor.
  rewrite extract_skills_text by done. apply sorted_sorted.
Qed.

Lemma extract_skills_NoDup text_blob :
  NoDup (extract_skills_from_text set_order text_blob).
Proof.
  destruct text_blob as [[|c text]|]; try constructor.
  rewrite extract_skills_text by done.
  rewrite sorted_perm. apply NoDup_set_order.
Qed.

(** The result does not depend on the order in which sets are
    enumerated. *)
Lemma extract_skills_order text_blob :
  extract_skills_from_text set_order text_blob =
  extract_skills_from_text elements text_blob.
Proof.
  destruct text_blob as [[|c text]|]; try done.
  rewrite !extract_skills_text by done.
  apply sorted_order_irrelevant. rewrite set_order_perm.
  rewrite COMMON_SKILLS_order.
  assert (normalize_skill <$> set_order (foldl (scan_skill (lower (String c text))) ∅ (COMMON_SKILLS elements))
          ≡ₚ normalize_skill <$> elements (foldl (scan_skill (lower (String c text))) ∅ (COMMON_SKILLS elements))) as H.
  { by rewrite set_order_perm. }
  by rewrite (list_to_set_perm_L _ _ H).
Qed.

End order.

End ExtractFacts.

(** ** The skill extractor *)

Import Py SortFacts ExtractFacts.

Lemma no_member_nil {A} (l : list A) : (forall x, x ∉ l) -> l = [].
Proof.
  destruct l as [|a l]; [done |]. intros H.
  destruct (H a). apply elem_of_cons. by left.
Qed.

(** C8.  Two runs of [extract_skills_from_text] on the same text give the
    same list, whatever order the interpreter enumerates its sets in; the
    list is sorted and has no duplicates; a missing or empty text, or a text
    in which no skill is matched, gives the empty list. *)
Theorem extract_skills_deterministic_sorted
    (set_order1 set_order2 : gset string -> list string)
    (text_blob : option string) :
  (forall s, set_order1 s ≡ₚ elements s) ->
  (forall s, set_order2 s ≡ₚ elements s) ->
  extract_skills_from_text set_order1 text_blob =
    extract_skills_from_text set_order2 text_blob /\
  StronglySorted Py.str_le (extract_skills_from_text set_order1 text_blob) /\
  NoDup (extract_skills_from_text set_order1 text_blob) /\
  extract_skills_from_text set_order1 None = [] /\
  extract_skills_from_text set_order1 (Some "") = [] /\
  (forall text, text_blob = Some text ->
     (forall skill, ~ matched (Py.lower text) skill) ->
     extract_skills_from_text set_order1 text_blob = []).
Proof.
  intros H1 H2. split; [| split; [| split; [| split; [| split]]]]; try done.
  - by rewrite (extract_skills_order set_order1 H1), (extract_skills_order set_order2 H2).
  - by apply extract_skills_sorted.
  - by apply extract_skills_NoDup.
  - intros text -> Hnone. destruct (decide (text = "")) as [->|Hne]; [done |].
    apply no_member_nil. intros x Hx.
    apply (elem_of_extract_skills set_order1 H1) in Hx as (skill & Hm & _); [| done].
    by apply (Hnone skill).
Qed.

Lemma extract_skills_deterministic_sorted_witness :
  (forall s : gset string, elements s ≡ₚ elements s) /\
  (forall s : gset string, reverse (elements s) ≡ₚ elements s) /\
  extract_skills_from_text elements (Some "Python and SQL, python") =
    extract_skills_from_text (fun s => reverse (elements s)) (Some "Python and SQL, python") /\
  StronglySorted Py.str_le (extract_skills_from_text elements (Some "Python and SQL, python")) /\
  NoDup (extract_skills_from_text elements (Some "Python and SQL, python")).
Proof.
  split; [done |]. split; [intros s; apply reverse_Permutation |].
  pose proof (extract_skills_deterministic_sorted elements
                (fun s => reverse (elements s)) (Some "Python and SQL, python")
                (fun s => reflexivity (elements s))
                (fun s => reverse_Permutation (elements s))) as (H1 & H2 & H3 & _).
  exact (conj H1 (conj H2 H3)).
Defined.

(** C9.  The members of the result are the images of the matched skills
    under [normalize_skill]; when "node.js" is matched, "nodejs" is in the
    result and "node.js" is not. *)
Theorem extract_skills_canonical (set_order : gset string -> list string)
    (text : string) :
  (forall s, set_order s ≡ₚ elements s) ->
  text <> "" ->
  (forall x, x ∈ extract_skills_from_text set_order (Some text) <->
     exists skill, matched (Py.lower text) skill /\ x = normalize_skill skill) /\
  normalize_skill "node.js" = "nodejs" /\
  (matched (Py.lower text) "node.js" ->
     "nodejs" ∈ extract_skills_from_text set_order (Some text) /\
     "node.js" ∉ extract_skills_from_text set_order (Some text)).
Proof.
  intros Hperm Hne.
  split; [intros x; by apply elem_of_extract_skills |]. split; [done |].
  intros Hm. split.
  - apply (elem_of_extract_skills set_order Hperm); [done |]. by exists "node.js".
  - intros Hin.
    apply (elem_of_extract_skills set_order Hperm) in Hin as (skill & (Hs & _) & Heq); [| done].
    revert Heq. unfold COMMON_SKILLS_literal in Hs.
    repeat (apply elem_of_cons in Hs as [->|Hs]; [by vm_compute |]).
    by apply elem_of_nil in Hs.
Qed.

Lemma extract_skills_canonical_witness :
  (forall s : gset string, elements s ≡ₚ elements s) /\
  "We use Node.js" <> "" /\
  matched (Py.lower "We use Node.js") "node.js" /\
  "nodejs" ∈ extract_skills_from_text elements (Some "We use Node.js") /\
  "node.js" ∉ extract_skills_from_text elements (Some "We use Node.js").
Proof.
  assert (matched (Py.lower "We use Node.js") "node.js") as Hm.
  { split; [| split; [done | by vm_compute]].
    unfold COMMON_SKILLS_literal. apply list_elem_of_In. simpl. tauto. }
  split; [done |]. split; [done |]. split; [exact Hm |].
  apply (extract_skills_canonical elements "We use Node.js"); done.
Defined.

(** ** Skill aggregator *)

Module AggregateFacts.

Import Py PyFacts DataParser.

Lemma isspace_lower_char c : isspace (lower_char c) = isspace c.
Proof. destruct c as [[] [] [] [] [] [] [] []]; vm_compute; reflexivity. Qed.

Lemma lstrip_lower s : lstrip (lower s) = lower (lstrip s).
Proof.
  induction s as [|c s IH]; [done |]. simpl.
  rewrite isspace_lower_char. by destruct (isspace c).
Qed.

Lemma rstrip_lower s : rstrip (lower s) = lower (rstrip s).
Proof.
  induction s as [|c s IH]; [done |]. simpl. rewrite IH.
  destruct (rstrip s); simpl; [| done].
  rewrite isspace_lower_char. by destruct (isspace c).
Qed.

Lemma strip_lower s : strip (lower s) = lower (strip s).
Proof. unfold strip. by rewrite lstrip_lower, rstrip_lower. Qed.

Lemma nonempty_iff s : nonempty s = true <-> s <> "".
Proof. by destruct s. Qed.

Lemma lower_nonempty s : lower s <> "" <-> s <> "".
Proof. by destruct s. Qed.

Lemma tokens_of_fragments (l : list string) :
  filter (fun s => nonempty s = true)
    ((fun s => lower (strip s)) <$> filter (fun s => nonempty (strip s) = true) l)
  = filter (fun t => t <> "") (lower <$> (strip <$> l)).
Proof.
  induction l as [|s l IH]; [done |].
  rewrite !fmap_cons, (filter_cons (fun s => nonempty (strip s) = true)).
  rewrite (filter_cons (fun t => t <> "") (lower (strip s))).
  destruct (decide (nonempty (strip s) = true)) as [Hs|Hs].
  - rewrite fmap_cons, filter_cons.
    apply nonempty_iff in Hs as Hs'. apply lower_nonempty in Hs' as Hs''.
    destruct (decide (nonempty (lower (strip s)) = true)) as [|Hn];
      [| by apply nonempty_iff in Hs''].
    destruct (decide (lower (strip s) <> "")); [| done].
    by rewrite IH.
  - destruct (decide (lower (strip s) <> "")) as [Hl|]; [| done].
    destruct Hs. apply nonempty_iff. by apply (proj1 (lower_nonempty (strip s))).
Qed.

Lemma entry_skills_spec e : entry_skills e = spec_tokens e.
Proof.
  destruct e as [|s|l|]; try done.
  - unfold entry_skills, spec_tokens, unbracket. apply tokens_of_fragments.
  - unfold entry_skills, spec_tokens. rewrite tokens_of_fragments.
    rewrite <- !list_fmap_compose. f_equal.
    apply list_fmap_ext. intros _ s _. simpl. by rewrite strip_lower.
Qed.

Lemma flat_list_bind (entries : list skill_entry) acc :
  foldl (fun all_skills_flat_list e => all_skills_flat_list ++ entry_skills e) acc entries
  = acc ++ (entries ≫= entry_skills).
Proof.
  revert acc. induction entries as [|e entries IH]; intros acc; simpl.
  - by rewrite app_nil_r.
  - by rewrite IH, <- app_assoc.
Qed.

Lemma bind_dropna series : dropna series ≫= entry_skills = series ≫= entry_skills.
Proof.
  induction series as [|e series IH]; [done |].
  unfold dropna in *. rewrite filter_cons.
  destruct e; case_decide; try done; rewrite !bind_cons, ?IH; done.
Qed.

Lemma Counter_fold_lookup (l : list string) (m : gmap string nat) token :
  foldl (fun m k => <[ k := S (default 0%nat (m !! k)) ]> m) m l !! token
  = match occurrences token l with
    | O => m !! token
    | S n => Some (S n + default 0%nat (m !! token))%nat
    end.
Proof.
  revert m. induction l as [|k l IH]; intros m; [done |].
  simpl. rewrite IH. unfold occurrences. rewrite filter_cons.
  destruct (decide (k = token)) as [->|Hne].
  - rewrite lookup_insert_eq. simpl.
    destruct (length (filter (fun t => t = token) l)); simpl; f_equal; lia.
  - by rewrite lookup_insert_ne.
Qed.

Lemma Counter_lookup l token :
  Counter l !! token =
  match occurrences token l with O => None | S n => Some (S n) end.
Proof.
  unfold Counter. rewrite Counter_fold_lookup, lookup_empty. simpl.
  destruct (occurrences token l); [done | f_equal; lia].
Qed.

Lemma analyze_skills_flat series :
  analyze_skills (Some series) = Counter (series ≫= spec_tokens).
Proof.
  unfold analyze_skills.
  assert (series ≫= spec_tokens = dropna series ≫= entry_skills) as ->.
  { rewrite bind_dropna. induction series as [|e series IH]; [done |].
    by rewrite !bind_cons, IH, entry_skills_spec. }
  destruct (dropna series) as [|e entries] eqn:E; [done |].
  by rewrite flat_list_bind.
Qed.

End AggregateFacts.

Import AggregateFacts.

(** ** Job record store: [store_jobs] *)

Module StoreFacts.

Import Py PyFacts DbManager.

Lemma lstrip_spaces s : all isspace s = true -> lstrip s = "".
Proof.
  induction s as [|c s IH]; [done |]. simpl.
  intros [-> Hs]%andb_prop. by apply IH.
Qed.

Lemma strip_spaces s : all isspace s = true -> strip s = "".
Proof. intros H. unfold strip. by rewrite lstrip_spaces. Qed.

(** On a connection without a usable table every record is counted as an
    error. *)
Lemma store_rows_failed rows n :
  inserted_rows (foldl store_row_failed n rows) = inserted_rows n /\
  skipped_due_to_duplicate (foldl store_row_failed n rows)
    = skipped_due_to_duplicate n /\
  error_rows (foldl store_row_failed n rows) = error_rows n + length rows.
Proof.
  revert n. induction rows as [|row rows IH]; intros n; [simpl; lia |].
  cbn [foldl]. destruct (IH (store_row_failed n row)) as (H1 & H2 & H3).
  rewrite H1, H2, H3. unfold store_row_failed.
  destruct (_ || _); simpl; lia.
Qed.

Section store.

Variable CURRENT_TIMESTAMP : Z -> string.

Let store_row := store_row CURRENT_TIMESTAMP.
Let store_jobs := store_jobs CURRENT_TIMESTAMP.
Let store_calls := store_calls CURRENT_TIMESTAMP.

(** The three outcomes of one record. *)
Lemma store_row_rejected t n row :
  url_rejected row = true -> store_row (t, n) row = (t, count_error n).
Proof.
  unfold url_rejected, stored_url, store_row, DbManager.store_row.
  by intros ->.
Qed.

Lemma store_row_duplicate t n row :
  url_rejected row = false -> stored_url row ∈ url <$> jobs t ->
  store_row (t, n) row = (t, count_duplicate n).
Proof.
  unfold url_rejected, stored_url, store_row, DbManager.store_row.
  intros -> Hin. unfold execute_insert. by rewrite bool_decide_eq_true_2.
Qed.

Lemma store_row_inserted t n row :
  url_rejected row = false -> stored_url row ∉ url <$> jobs t ->
  exists j,
    url j = stored_url row /\
    store_row (t, n) row =
      ({| jobs := jobs t ++ [j]; sqlite_sequence := (sqlite_sequence t + 1)%Z |},
       count_inserted n).
Proof.
  unfold url_rejected, stored_url, store_row, DbManager.store_row.
  intros -> Hin. unfold execute_insert. rewrite bool_decide_eq_false_2 by done.
  eexists. split; [| reflexivity]. done.
Qed.

(** What one record leaves unchanged or adds. *)
Lemma store_row_invariant t n row t' n' :
  store_row (t, n) row = (t', n') ->
  unique_urls t ->
  unique_urls t' /\
  (exists new, jobs t' = jobs t ++ new /\
     length new + inserted_rows n = inserted_rows n')%nat.
Proof.
  intros Hrow Huniq.
  destruct (url_rejected row) eqn:Hrej.
  { rewrite store_row_rejected in Hrow by done. inversion Hrow; subst.
    split; [done |]. exists []. by rewrite app_nil_r. }
  destruct (decide (stored_url row ∈ url <$> jobs t)) as [Hin|Hin].
  { rewrite store_row_duplicate in Hrow by done. inversion Hrow; subst.
    split; [done |]. exists []. by rewrite app_nil_r. }
  destruct (store_row_inserted t n row Hrej Hin) as (j & Hj & Heq).
  rewrite Heq in Hrow. inversion Hrow; subst. split.
  - unfold unique_urls. simpl. rewrite fmap_app. simpl.
    apply NoDup_app. split; [done |]. split; [| apply NoDup_singleton].
    intros u Hu ->%list_elem_of_singleton. by rewrite Hj in Hu.
  - exists [j]. simpl. split; [done | lia].
Qed.

Lemma store_rows_invariant rows t n t' n' :
  foldl store_row (t, n) rows = (t', n') ->
  unique_urls t ->
  unique_urls t' /\
  (exists new, jobs t' = jobs t ++ new /\
     length new + inserted_rows n = inserted_rows n')%nat.
Proof.
  revert t n. induction rows as [|row rows IH]; intros t n Hfold Huniq.
  - inversion Hfold; subst. split; [done |]. exists []. by rewrite app_nil_r.
  - change (foldl store_row (store_row (t, n) row) rows = (t', n')) in Hfold.
    destruct (store_row (t, n) row) as [t1 n1] eqn:E1.
    destruct (store_row_invariant _ _ _ _ _ E1 Huniq) as (Hu1 & new1 & Hj1 & Hc1).
    destruct (IH _ _ Hfold Hu1) as (Hu' & new & Hj & Hc).
    split; [done |]. exists (new1 ++ new).
    rewrite Hj, Hj1, <- app_assoc, length_app. split; [done | lia].
Qed.

Lemma store_jobs_invariant st jobs_df st' n :
  store_jobs st jobs_df = (st', n) ->
  storage_unique st ->
  storage_unique st' /\
  (exists new, rows_of st' = rows_of st ++ new /\ length new = inserted_rows n).
Proof.
  unfold store_jobs, DbManager.store_jobs. intros H Huniq.
  assert (forall st0 n0, (st0, n0) = (st, no_rows) ->
            storage_unique st0 /\
            (exists new, rows_of st0 = rows_of st ++ new /\ length new = inserted_rows n0)) as Hsame.
  { intros ? ? [= -> ->]. split; [done |]. exists []. by rewrite app_nil_r. }
  destruct jobs_df as [df|]; [| by apply Hsame].
  destruct (df_empty df); [by apply Hsame |].
  destruct (add_missing_columns df) as [df'|]; [| by apply Hsame].
  destruct st as [| |t]; simpl in H; [by apply Hsame | |].
  { inversion H; subst. split; [done |]. exists []. split; [done |].
    by rewrite (proj1 (store_rows_failed _ _)). }
  destruct (foldl (DbManager.store_row CURRENT_TIMESTAMP) (t, no_rows) (rows df'))
    as [t' n'] eqn:E.
  inversion H; subst.
  destruct (store_rows_invariant _ _ _ _ _ E Huniq) as (Hu & new & Hj & Hc).
  split; [done |]. exists new. simpl in *. split; [done | lia].
Qed.

Lemma store_calls_invariant batches st st' counts :
  store_calls st batches = (st', counts) ->
  storage_unique st ->
  storage_unique st' /\
  (exists new, rows_of st' = rows_of st ++ new /\ length new = sum_list counts).
Proof.
  revert st st' counts. induction batches as [|b batches IH]; intros st st' counts H Huniq.
  - inversion H; subst. split; [done |]. exists []. by rewrite app_nil_r.
  - unfold store_calls in H. cbn [DbManager.store_calls] in H.
    destruct (DbManager.store_jobs CURRENT_TIMESTAMP st b) as [st1 n1] eqn:E1.
    destruct (DbManager.store_calls CURRENT_TIMESTAMP st1 batches) as [st2 ns] eqn:E2.
    inversion H; subst.
    destruct (store_jobs_invariant _ _ _ _ E1 Huniq) as (Hu1 & new1 & Hj1 & Hc1).
    destruct (IH _ _ _ E2 Hu1) as (Hu2 & new2 & Hj2 & Hc2).
    split; [done |]. exists (new1 ++ new2).
    rewrite Hj2, Hj1, <- app_assoc, length_app. simpl. split; [done | lia].
Qed.

(** Where the rows of the table come from. *)
Lemma store_row_origin t n row t' n' j :
  store_row (t, n) row = (t', n') -> j ∈ jobs t' ->
  j ∈ jobs t \/ (url_rejected row = false /\ url j = stored_url row).
Proof.
  intros Hrow Hj.
  destruct (url_rejected row) eqn:Hrej.
  { rewrite store_row_rejected in Hrow by done. inversion Hrow; subst. by left. }
  destruct (decide (stored_url row ∈ url <$> jobs t)) as [Hin|Hin].
  { rewrite store_row_duplicate in Hrow by done. inversion Hrow; subst. by left. }
  destruct (store_row_inserted t n row Hrej Hin) as (j' & Hj' & Heq).
  rewrite Heq in Hrow. inversion Hrow; subst. simpl in Hj.
  apply elem_of_app in Hj as [Hj|Hj]; [by left |].
  apply list_elem_of_singleton in Hj as ->. by right.
Qed.

Lemma store_rows_origin rows t n t' n' j :
  foldl store_row (t, n) rows = (t', n') -> j ∈ jobs t' ->
  j ∈ jobs t \/
  (exists row, row ∈ rows /\ url_rejected row = false /\ url j = stored_url row).
Proof.
  revert t n. induction rows as [|row rows IH]; intros t n Hfold Hj.
  - inversion Hfold; subst. by left.
  - change (foldl store_row (store_row (t, n) row) rows = (t', n')) in Hfold.
    destruct (store_row (t, n) row) as [t1 n1] eqn:E1.
    destruct (IH _ _ Hfold Hj) as [Hj1|(row' & Hin & Hr)].
    + destruct (store_row_origin _ _ _ _ _ _ E1 Hj1) as [?|[? ?]]; [by left |].
      right. exists row. split; [apply elem_of_cons; by left | done].
    + right. exists row'. split; [apply elem_of_cons; by right | done].
Qed.

End store.

(** Adding the missing columns leaves the cells of the column [url] as
    they are. *)
Lemma set_column_url_cells col v df :
  col <> "url" -> url_cells (set_column col v df) = url_cells df.
Proof.
  intros Hne. unfold url_cells, set_column. simpl.
  rewrite <- list_fmap_compose. apply list_fmap_ext.
  intros _ row _. simpl. by rewrite lookup_insert_ne.
Qed.

Lemma add_missing_columns_from cols acc df' :
  foldl (fun acc col =>
           df ← acc;
           if bool_decide (col ∈ columns df) then Some df
           else if String.eqb col "parsed_date" then Some (set_column col PyNaT df)
           else if String.eqb col "skills" then Some (set_column col (PyVal "N/A") df)
           else if String.eqb col "url" then None
           else Some (set_column col PyNone df)) acc cols = Some df' ->
  exists df, acc = Some df /\ url_cells df' = url_cells df.
Proof.
  revert acc. induction cols as [|col cols IH]; intros acc H.
  - exists df'. by simpl in H.
  - cbn [foldl] in H. apply IH in H as (df1 & H & Heq).
    destruct acc as [df|]; [| done]. exists df. split; [done |].
    rewrite Heq. simpl in H. case_bool_decide; [by inversion H |].
    destruct (String.eqb_spec col "parsed_date") as [->|];
      [inversion H; by apply set_column_url_cells |].
    destruct (String.eqb_spec col "skills") as [->|];
      [inversion H; by apply set_column_url_cells |].
    destruct (String.eqb_spec col "url") as [->|]; [done |].
    inversion H. by apply set_column_url_cells.
Qed.

Lemma add_missing_columns_url_cells df df' :
  add_missing_columns df = Some df' -> url_cells df' = url_cells df.
Proof.
  intros H. apply add_missing_columns_from in H as (? & [= <-] & ?). done.
Qed.

Lemma row_get_url row row' :
  row !! "url" = row' !! "url" -> row_get row "url" PyNone = row_get row' "url" PyNone.
Proof. unfold row_get. by intros ->. Qed.

End StoreFacts.

Import DbManager StoreFacts.

(** C1.  In any sequence of calls of [store_jobs] on a table whose urls are
    distinct, the urls stay distinct, no row is removed, and the counts
    returned add up to the number of rows added.  A record whose url is
    stored already is counted as a duplicate and changes nothing; of two
    records of a batch with the same new url, the first is inserted and the
    second is counted as a duplicate, and the loop goes on with the
    following records. *)
Theorem store_jobs_one_row_per_url (CURRENT_TIMESTAMP : Z -> string) :
  (forall st batches st' counts,
     storage_unique st ->
     store_calls CURRENT_TIMESTAMP st batches = (st', counts) ->
     NoDup (url <$> rows_of st') /\
     exists new, rows_of st' = rows_of st ++ new /\ length new = sum_list counts) /\
  (forall t n row,
     url_rejected row = false -> stored_url row ∈ url <$> jobs t ->
     store_row CURRENT_TIMESTAMP (t, n) row = (t, count_duplicate n)) /\
  (forall t row1 row2 rest,
     url_rejected row1 = false -> url_rejected row2 = false ->
     stored_url row1 = stored_url row2 -> stored_url row1 ∉ url <$> jobs t ->
     exists j,
       url j = stored_url row1 /\
       foldl (store_row CURRENT_TIMESTAMP) (t, no_rows) (row1 :: row2 :: rest) =
       foldl (store_row CURRENT_TIMESTAMP)
         ({| jobs := jobs t ++ [j]; sqlite_sequence := (sqlite_sequence t + 1)%Z |},
          {| inserted_rows := 1; skipped_due_to_duplicate := 1; error_rows := 0 |})
         rest) /\
  (exists t1,
     store_jobs CURRENT_TIMESTAMP (Available empty_table)
       (Some {| columns := ["url"];
                rows := [ {[ "url" := PyVal "a" ]}; {[ "url" := PyVal "a" ]} ] |})
     = (Available t1,
        {| inserted_rows := 1; skipped_due_to_duplicate := 1; error_rows := 0 |}) /\
     length (jobs t1) = 1%nat /\
     store_jobs CURRENT_TIMESTAMP (Available t1)
       (Some {| columns := ["url"]; rows := [ {[ "url" := PyVal "a" ]} ] |})
     = (Available t1,
        {| inserted_rows := 0; skipped_due_to_duplicate := 1; error_rows := 0 |})).
Proof.
  split; [| split; [| split]].
  - intros st batches st' counts Huniq Hcalls.
    destruct (store_calls_invariant _ _ _ _ _ Hcalls Huniq) as (Hu & Hnew).
    split; [| done]. destruct st'; [constructor | constructor | done].
  - intros t n row. apply store_row_duplicate.
  - intros t row1 row2 rest Hr1 Hr2 Heq Hnew.
    destruct (store_row_inserted CURRENT_TIMESTAMP t no_rows row1 Hr1 Hnew) as (j & Hj & E1).
    exists j. split; [done |].
    cbn [foldl]. rewrite E1. f_equal.
    rewrite (store_row_duplicate CURRENT_TIMESTAMP) ; [done | done |].
    simpl. rewrite fmap_app, <- Heq, <- Hj. apply elem_of_app. right.
    apply list_elem_of_singleton. done.
  - eexists. split; [vm_compute; reflexivity |]. split; [reflexivity |].
    vm_compute. reflexivity.
Qed.

Lemma store_jobs_one_row_per_url_witness :
  storage_unique (Available empty_table) /\
  NoDup (url <$> rows_of
    (store_calls (fun _ => "2025-01-01 00:00:00") (Available empty_table)
       [ Some {| columns := ["url"];
                 rows := [ {[ "url" := PyVal "a" ]}; {[ "url" := PyVal " a" ]} ] |};
         Some {| columns := ["url"]; rows := [ {[ "url" := PyVal "a" ]} ] |} ]).1).
Proof.
  split; [apply NoDup_nil_2 |].
  eapply (proj1 (store_jobs_one_row_per_url (fun _ => "2025-01-01 00:00:00"))).
  2: apply surjective_pairing.
  apply NoDup_nil_2.
Defined.

(** C10.  A record whose url is missing, empty or made of white space only
    is counted as an error and leaves the table as it is; and the url of
    every row that a call of [store_jobs] adds is the url of a record of the
    batch with the white space around it removed. *)
Theorem store_jobs_url_stripped (CURRENT_TIMESTAMP : Z -> string) :
  (forall t n row,
     pd_isna (row_get row "url" PyNone) = true \/
     Py.all Py.isspace (py_str (row_get row "url" PyNone)) = true ->
     store_row CURRENT_TIMESTAMP (t, n) row = (t, count_error n)) /\
  (forall st df st' n j,
     store_jobs CURRENT_TIMESTAMP st (Some df) = (st', n) ->
     j ∈ rows_of st' ->
     j ∈ rows_of st \/
     exists row,
       row ∈ rows df /\
       pd_isna (row_get row "url" PyNone) = false /\
       url j = Py.strip (py_str (row_get row "url" PyNone)) /\
       url j <> "").
Proof.
  split.
  - intros t n row H. apply store_row_rejected. unfold url_rejected, stored_url.
    destruct H as [-> | H]; [done |].
    rewrite (strip_spaces _ H). apply orb_true_r.
  - intros st df st' n j Hstore Hj. unfold store_jobs in Hstore.
    destruct (df_empty df); [inversion Hstore; subst; by left |].
    destruct (add_missing_columns df) as [df'|] eqn:Hcols;
      [| inversion Hstore; subst; by left].
    destruct st as [| |t]; simpl in Hstore;
      [inversion Hstore; subst; by left | inversion Hstore; subst; by left |].
    destruct (foldl (store_row CURRENT_TIMESTAMP) (t, no_rows) (rows df'))
      as [t' n'] eqn:E.
    inversion Hstore; subst. simpl in Hj.
    destruct (store_rows_origin _ _ _ _ _ _ _ E Hj) as [?|(row' & Hin & Hrej & Hurl)];
      [by left |].
    right. apply add_missing_columns_url_cells in Hcols.
    assert (row' !! "url" ∈ url_cells df) as Hcell.
    { rewrite <- Hcols. unfold url_cells. apply list_elem_of_fmap. by exists row'. }
    unfold url_cells in Hcell. apply list_elem_of_fmap in Hcell as (row & Hcell & Hrow).
    exists row. split; [done |].
    unfold url_rejected, stored_url in *.
    rewrite <- (row_get_url row' row Hcell).
    apply orb_false_elim in Hrej as [Hna Hne]. split; [done |]. split; [done |].
    rewrite Hurl. apply AggregateFacts.nonempty_iff. by destruct (Py.nonempty _).
Qed.

(** ** Job record store: [fetch_jobs] *)

Module FetchFacts.

Import Py PyFacts SortFacts DbManager.

Lemma sql_lower_app s t : sql_lower (s +:+ t) = sql_lower s +:+ sql_lower t.
Proof. induction s as [|c s IH]; [done |]. rewrite !str_app_cons. simpl. by rewrite IH. Qed.

Lemma sql_lower_char_idem c : sql_lower_char (sql_lower_char c) = sql_lower_char c.
Proof. destruct c as [[] [] [] [] [] [] [] []]; vm_compute; reflexivity. Qed.

Lemma sql_lower_char_wildcard c :
  negb (Ascii.eqb c "%") && negb (Ascii.eqb c "_") = true ->
  Ascii.eqb (sql_lower_char c) "%" = false /\ Ascii.eqb (sql_lower_char c) "_" = false.
Proof. destruct c as [[] [] [] [] [] [] [] []]; vm_compute; intuition congruence. Qed.

Lemma like_percent pattern s :
  sql_like (String "%" pattern) s =
  sql_like pattern s ||
  match s with
  | EmptyString => false
  | String _ s' => sql_like (String "%" pattern) s'
  end.
Proof. by destruct s. Qed.

Lemma like_char p pattern s :
  Ascii.eqb p "%" = false ->
  sql_like (String p pattern) s =
  match s with
  | EmptyString => false
  | String c s' =>
      (Ascii.eqb p "_" || Ascii.eqb (sql_lower_char p) (sql_lower_char c))
      && sql_like pattern s'
  end.
Proof. intros H. simpl. by rewrite H. Qed.

Lemma like_any s : sql_like "%" s = true.
Proof.
  induction s as [|c s IH]; [done |].
  rewrite like_percent, IH. apply orb_true_r.
Qed.

Lemma prefix_nil s : String.prefix "" s = true.
Proof. by destruct s. Qed.

Lemma prefix_cons c d s t :
  String.prefix (String c s) (String d t) = Ascii.eqb c d && String.prefix s t.
Proof.
  simpl. destruct (ascii_dec c d) as [->|Hne].
  - by rewrite Ascii.eqb_refl.
  - by apply Ascii.eqb_neq in Hne as ->.
Qed.

(** A literal followed by ['%'] matches the texts that start with the
    literal. *)
Lemma like_literal keyword s :
  no_wildcard keyword = true ->
  sql_like (sql_lower keyword +:+ "%") (sql_lower s)
  = String.prefix (sql_lower keyword) (sql_lower s).
Proof.
  revert s. induction keyword as [|c keyword IH]; intros s Hk.
  - by rewrite like_any, prefix_nil.
  - simpl in Hk. apply andb_prop in Hk as [Hc Hk].
    apply sql_lower_char_wildcard in Hc as [Hc1 Hc2].
    cbn [sql_lower]. rewrite str_app_cons, like_char by done.
    destruct s as [|d s]; [done |].
    cbn [sql_lower]. rewrite prefix_cons, Hc2, !sql_lower_char_idem, IH by done.
    done.
Qed.

Lemma like_contains keyword s :
  no_wildcard keyword = true ->
  sql_like (sql_lower ("%" +:+ keyword +:+ "%")) (sql_lower s)
  = contains (sql_lower keyword) (sql_lower s).
Proof.
  intros Hk. rewrite sql_lower_app. change (sql_lower "%") with "%".
  rewrite str_app_cons, str_app_nil_l, sql_lower_app. change (sql_lower "%") with "%".
  induction s as [|d s IH].
  - cbn [sql_lower]. rewrite like_percent, contains_nil, orb_false_r.
    apply (like_literal keyword "" Hk).
  - cbn [sql_lower]. rewrite like_percent, contains_cons, IH.
    f_equal. apply (like_literal keyword (String d s) Hk).
Qed.

(** The order of the query is total and transitive. *)
Lemma compare_refl s : String.compare s s = Eq.
Proof.
  destruct (String.compare s s) eqn:E; [done | |];
    pose proof (String.compare_antisym s s) as H; rewrite E in H; done.
Qed.

Lemma compare_gt_lt s1 s2 : String.compare s1 s2 = Gt <-> String.compare s2 s1 = Lt.
Proof.
  rewrite (String.compare_antisym s2 s1).
  destruct (String.compare s1 s2); simpl; split; congruence.
Qed.

#[global] Instance order_by_total : Total order_by.
Proof.
  intros a b. unfold order_by.
  rewrite (String.compare_antisym (coalesce_parsed_date b) (coalesce_parsed_date a)).
  destruct (String.compare (coalesce_parsed_date a) (coalesce_parsed_date b)); simpl; auto.
  destruct (String.leb_total (scraped_at a) (scraped_at b)); auto.
Qed.

#[global] Instance order_by_trans : Transitive order_by.
Proof.
  intros a b c. unfold order_by.
  destruct (String.compare (coalesce_parsed_date a) (coalesce_parsed_date b)) eqn:Eab;
    [| done |].
  - apply String.compare_eq_iff in Eab. rewrite Eab.
    destruct (String.compare (coalesce_parsed_date b) (coalesce_parsed_date c)); try done.
    intros H1 H2. by apply (str_le_trans _ _ _ H2 H1).
  - intros _.
    destruct (String.compare (coalesce_parsed_date b) (coalesce_parsed_date c)) eqn:Ebc;
      [| done |].
    + apply String.compare_eq_iff in Ebc. rewrite <- Ebc, Eab. done.
    + intros _. apply compare_gt_lt in Eab, Ebc.
      rewrite (proj2 (compare_gt_lt _ _) (compare_lt_trans _ _ _ Ebc Eab)). done.
Qed.

Lemma select_jobs_perm keyword source_filter t :
  select_jobs keyword source_filter t ≡ₚ
  filter (fun j => where_clause keyword source_filter j = true) (jobs t).
Proof. apply merge_sort_Permutation. Qed.

Lemma select_jobs_sorted keyword source_filter t :
  StronglySorted order_by (select_jobs keyword source_filter t).
Proof. apply (StronglySorted_merge_sort order_by). Qed.

Lemma where_clause_keyword keyword j :
  no_wildcard keyword = true ->
  where_clause (Some keyword) None j = true <-> keyword_in keyword j.
Proof.
  intros Hk. unfold where_clause, keyword_in. rewrite andb_true_r.
  destruct keyword as [|c keyword]; [cbn [sql_lower]; by destruct (sql_lower (search_keyword j)) |].
  by rewrite like_contains.
Qed.

End FetchFacts.

Import FetchFacts.

(** C4 as stated fails in three ways.  The row without a date comes before
    the row dated 1969-12-31, so missing dates are not last; the keyword
    "_" finds rows whose search keyword has no "_"; and a keyword that
    differs from the stored one by the case of a letter outside A..Z finds
    nothing. *)
Lemma fetch_jobs_filter_order_fails :
  fetch_jobs (Available sample_table) (Some "python") None
    = Return {| frame_columns := selected_columns;
                frame_rows := [undated_job; old_job] |} /\
  parsed_date undated_job = None /\
  parsed_date old_job = Some "1969-12-31" /\
  fetch_jobs (Available sample_table) (Some "_") None
    = Return {| frame_columns := selected_columns;
                frame_rows := [accent_job; undated_job; old_job] |} /\
  Py.contains (Py.lower "_") (Py.lower (search_keyword undated_job)) = false /\
  fetch_jobs (Available sample_table) (Some (String "201" "COLE")) None
    = Return {| frame_columns := selected_columns; frame_rows := [] |} /\
  Py.contains (Py.lower (String "201" "COLE")) (Py.lower (search_keyword accent_job))
    = true.
Proof. repeat split; vm_compute; reflexivity. Qed.


(** * Further properties of the code *)

Import Callers Spec2.

(** ** More on the date normalizer *)

Module DateMore.

Import PyFacts.

Local Open Scope Z_scope.

Lemma span_all p s a b : span p s = (a, b) -> all p a = true.
Proof.
  revert a b. induction s as [|c s IH]; intros a b H; simpl in H.
  - by inversion H.
  - destruct (p c) eqn:Hc.
    + destruct (span p s) as [a' b'] eqn:E. inversion H; subst.
      simpl. by rewrite Hc, (IH a' b).
    + by inversion H.
Qed.

Lemma match_ago_digits unit s g :
  match_ago unit s = Some g -> all isdecimal g = true.
Proof.
  unfold match_ago.
  destruct (span isdecimal s) as [digits r1] eqn:E1.
  destruct (span isspace r1) as [ws1 r2].
  destruct (strip_prefix unit r2) as [r3|]; [| done].
  destruct (span isspace _) as [ws2 r4].
  destruct (_ && _); [| done].
  intros [= <-]. by apply (span_all _ _ _ _ E1).
Qed.

Lemma re_search_ago_digits unit s g :
  re_search_ago unit s = Some g -> all isdecimal g = true.
Proof.
  induction s as [|c s IH]; simpl.
  - destruct (match_ago unit "") eqn:E; [| done].
    intros [= <-]. by apply (match_ago_digits _ _ _ E).
  - destruct (match_ago unit (String c s)) eqn:E.
    + intros [= <-]. by apply (match_ago_digits _ _ _ E).
    + apply IH.
Qed.

Lemma offset_date_return lim today factor g d :
  0 <= factor -> all isdecimal g = true ->
  offset_date lim today factor g = Return (Some d) ->
  MINORDINAL <= d <= today.
Proof.
  intros Hf Hg. unfold offset_date, py_int.
  destruct (_ && _); [done |]. cbn [mbind py_result_bind].
  unfold timedelta. destruct (_ <=? _); [| done]. cbn [mbind py_result_bind].
  unfold minus_delta.
  destruct (Z.leb_spec MINORDINAL (today - factor * decimal g)); [| done].
  destruct (_ <=? _); [| done]. cbn [mbind py_result_bind].
  intros [= <-]. pose proof (decimal_nonneg g Hg). nia.
Qed.

Lemma offset_date_raise lim today factor g e :
  0 <= factor -> all isdecimal g = true -> MINORDINAL <= today <= MAXORDINAL ->
  offset_date lim today factor g = Raise e ->
  (e = ValueError /\ (0 < lim < String.length g)%nat) \/
  (e = OverflowError /\ today - factor * decimal g < MINORDINAL).
Proof.
  intros Hf Hg Ht. unfold offset_date, py_int.
  destruct (0 <? lim)%nat eqn:E1; [destruct (lim <? String.length g)%nat eqn:E2 |];
    cbn [andb mbind py_result_bind].
  { intros [= <-]. left. apply Nat.ltb_lt in E1, E2. split; [done | lia]. }
  all: unfold timedelta, MINORDINAL, MAXORDINAL in *;
    pose proof (decimal_nonneg g Hg);
    destruct (Z.leb_spec (Z.abs (factor * decimal g)) 999999999);
    cbn [mbind py_result_bind];
    [| intros [= <-]; right; split; [done | nia]];
    unfold minus_delta, MINORDINAL, MAXORDINAL;
    destruct (Z.leb_spec 1 (today - factor * decimal g)); cbn [andb];
    [| intros [= <-]; right; split; [done | lia]];
    destruct (Z.leb_spec (today - factor * decimal g) 3652059);
    cbn [mbind py_result_bind]; [done | nia].
Qed.

Section more.

Variable dateparser_parse : string -> Z -> py_result (option Z).
Variable int_max_str_digits : nat.

Let normalize_date := parse_relative_date dateparser_parse int_max_str_digits.

(** [parse_relative_date] applies the rules to the lower-cased and trimmed
    text. *)
Lemma normalize_date_rules today text :
  text <> "" ->
  normalize_date today (Some text) =
    date_rules int_max_str_digits today (strip (lower text))
      (dateparser_parse text today).
Proof.
  intros Hne. unfold normalize_date, date_rules.
  rewrite (normalize_date_text dateparser_parse int_max_str_digits today text Hne).
  cbv zeta. destruct (existsb _ _); [done |].
  destruct (re_search_ago "day" _) as [g|].
  { unfold offset_date. destruct (py_int _ g) as [n|]; [| done].
    cbn [mbind py_result_bind]. by rewrite Z.mul_1_l. }
  destruct (_ || _); [done |].
  destruct (re_search_ago "week" _) as [g|]; [done |].
  destruct (re_search_ago "month" _) as [g|]; [| done].
  unfold offset_date. destruct (py_int _ g) as [n|]; [| done].
  cbn [mbind py_result_bind]. by rewrite Z.mul_comm.
Qed.

End more.

(** On a text of the form "<N> unit(s) ago" the rules give the offset of
    its unit. *)
Lemma date_rules_ago lim today digits ws1 u plural ws2 fallback :
  digits <> "" -> all isdecimal digits = true ->
  ws1 <> "" -> all isspace ws1 = true ->
  ws2 <> "" -> all isspace ws2 = true ->
  date_rules lim today (ago_text digits ws1 u plural ws2) fallback
  = offset_date lim today (unit_days u) digits.
Proof.
  intros Hd Hdd Hw1 Hww1 Hw2 Hww2.
  pose proof (normalize_date_rules (fun _ _ => fallback) lim today
                (ago_text digits ws1 u plural ws2)) as H.
  rewrite ago_text_lower_strip in H by done.
  rewrite <- H by (unfold ago_text; by destruct digits).
  by rewrite normalize_date_ago.
Qed.

(** What the rules return is today or earlier, unless it comes from
    [dateparser]; and they raise only through a numeric rule. *)
Lemma date_rules_return lim today low fallback d :
  MINORDINAL <= today ->
  date_rules lim today low fallback = Return (Some d) ->
  MINORDINAL <= d <= today \/ fallback = Return (Some d).
Proof.
  intros Ht. unfold date_rules.
  destruct (existsb _ _); [intros [= <-]; left; lia |].
  destruct (re_search_ago "day" low) as [g|] eqn:E1.
  { intros H. left. apply (offset_date_return lim today 1 g); [lia | | done].
    by apply (re_search_ago_digits _ _ _ E1). }
  destruct (_ || _); [intros [= <-]; left; lia |].
  destruct (re_search_ago "week" low) as [g|] eqn:E2.
  { intros H. left. apply (offset_date_return lim today 7 g); [lia | | done].
    by apply (re_search_ago_digits _ _ _ E2). }
  destruct (re_search_ago "month" low) as [g|] eqn:E3.
  { intros H. left. apply (offset_date_return lim today 30 g); [lia | | done].
    by apply (re_search_ago_digits _ _ _ E3). }
  destruct fallback as [[d'|]|]; try done. intros [= <-]. by right.
Qed.

Lemma date_rules_raise lim today low fallback e :
  MINORDINAL <= today <= MAXORDINAL ->
  date_rules lim today low fallback = Raise e ->
  exists u g,
    re_search_ago (unit_word u) low = Some g /\
    ((e = ValueError /\ (0 < lim < String.length g)%nat) \/
     (e = OverflowError /\ today - unit_days u * decimal g < MINORDINAL)).
Proof.
  intros Ht. unfold date_rules.
  destruct (existsb _ _); [done |].
  destruct (re_search_ago "day" low) as [g|] eqn:E1.
  { intros H. exists Days, g. split; [done |].
    apply (offset_date_raise lim today 1 g e); [lia | | done | done].
    by apply (re_search_ago_digits _ _ _ E1). }
  destruct (_ || _); [done |].
  destruct (re_search_ago "week" low) as [g|] eqn:E2.
  { intros H. exists Weeks, g. split; [done |].
    apply (offset_date_raise lim today 7 g e); [lia | | done | done].
    by apply (re_search_ago_digits _ _ _ E2). }
  destruct (re_search_ago "month" low) as [g|] eqn:E3.
  { intros H. exists Months, g. split; [done |].
    apply (offset_date_raise lim today 30 g e); [lia | | done | done].
    by apply (re_search_ago_digits _ _ _ E3). }
  by destruct fallback as [[d'|]|].
Qed.

End DateMore.

Module StrIntFacts.

Import PyFacts.

Local Open Scope Z_scope.

Lemma pretty_N_char_digit d :
  (d < 10)%N ->
  isdecimal (pretty_N_char d) = true /\ digit_value (pretty_N_char d) = Z.of_N d.
Proof.
  intros Hd. destruct d as [|p]; [done |].
  do 4 (try destruct p as [p|p|]); try lia; done.
Qed.

Lemma pretty_N_go_decimal x s :
  decimal_from 0 (pretty_N_go x s) = decimal_from (Z.of_N x) s.
Proof.
  revert s. induction x as [x IH] using (well_founded_induction N.lt_wf_0).
  intros s. destruct (decide (x = 0%N)) as [->|Hx]; [by rewrite pretty_N_go_0 |].
  rewrite pretty_N_go_step by lia.
  rewrite IH by (apply N.div_lt; lia).
  cbn [decimal_from].
  destruct (pretty_N_char_digit (x `mod` 10)) as [_ ->]; [apply N.mod_lt; lia |].
  f_equal. pose proof (N.div_mod x 10 ltac:(lia)). lia.
Qed.

Lemma pretty_N_go_all x s :
  all isdecimal (pretty_N_go x s) = all isdecimal s.
Proof.
  revert s. induction x as [x IH] using (well_founded_induction N.lt_wf_0).
  intros s. destruct (decide (x = 0%N)) as [->|Hx]; [by rewrite pretty_N_go_0 |].
  rewrite pretty_N_go_step by lia.
  rewrite IH by (apply N.div_lt; lia).
  cbn [all].
  destruct (pretty_N_char_digit (x `mod` 10)) as [-> _]; [apply N.mod_lt; lia |].
  done.
Qed.

Lemma pretty_N_go_length k x s :
  (x < 10 ^ N.of_nat k)%N ->
  (String.length (pretty_N_go x s) <= k + String.length s)%nat.
Proof.
  revert x s. induction k as [|k IH]; intros x s Hx.
  - assert (x = 0%N) as -> by (simpl in Hx; lia). by rewrite pretty_N_go_0.
  - destruct (decide (x = 0%N)) as [->|Hx0]; [rewrite pretty_N_go_0; lia |].
    rewrite pretty_N_go_step by lia.
    etrans; [apply IH |]; [| simpl; lia].
    apply N.Div0.div_lt_upper_bound.
    rewrite Nat2N.inj_succ, N.pow_succ_r' in Hx. lia.
Qed.

Lemma pretty_N_go_length_ge x s :
  (String.length s <= String.length (pretty_N_go x s))%nat.
Proof.
  revert s. induction x as [x IH] using (well_founded_induction N.lt_wf_0).
  intros s. destruct (decide (x = 0%N)) as [->|Hx]; [by rewrite pretty_N_go_0 |].
  rewrite pretty_N_go_step by lia.
  etrans; [| apply IH; apply N.div_lt; lia]. simpl. lia.
Qed.

Lemma pretty_N_go_nonempty x s : (0 < x)%N -> pretty_N_go x s <> "".
Proof.
  intros Hx Heq. rewrite pretty_N_go_step in Heq by done.
  pose proof (pretty_N_go_length_ge (x `div` 10)
                (String (pretty_N_char (x `mod` 10)) s)) as Hl.
  rewrite Heq in Hl. simpl in Hl. lia.
Qed.

(** [int(str(n))] is [n], and [str(n)] is a non-empty run of decimal
    digits, for a natural number [n]. *)
Lemma str_int_digits n :
  0 <= n ->
  decimal (str_int n) = n /\ all isdecimal (str_int n) = true /\ str_int n <> "".
Proof.
  intros Hn. unfold str_int, pretty, pretty_Z.
  destruct n as [|p|p]; [done | | lia].
  unfold pretty, pretty_positive, pretty, pretty_N.
  destruct (decide (N.pos p = 0%N)); [done |].
  split; [| split].
  - unfold decimal. by rewrite pretty_N_go_decimal.
  - by rewrite pretty_N_go_all.
  - by apply pretty_N_go_nonempty.
Qed.

Lemma str_int_length n k :
  0 <= n < 10 ^ Z.of_nat k -> (String.length (str_int n) <= S k)%nat.
Proof.
  intros Hn. unfold str_int, pretty, pretty_Z.
  destruct n as [|p|p]; [simpl; lia | | lia].
  unfold pretty, pretty_positive, pretty, pretty_N.
  destruct (decide (N.pos p = 0%N)); [done |].
  etrans; [apply (pretty_N_go_length k) |]; [| simpl; lia].
  apply N2Z.inj_lt. rewrite N2Z.inj_pow, nat_N_Z. simpl. lia.
Qed.

End StrIntFacts.

Import PyFacts DateMore StrIntFacts.

Lemma offset_date_ok lim today factor digits :
  all isdecimal digits = true ->
  (lim = 0 \/ String.length digits <= lim)%nat ->
  (today <= MAXORDINAL)%Z ->
  (0 <= factor)%Z ->
  (MINORDINAL <= today - factor * decimal digits)%Z ->
  offset_date lim today factor digits
  = Return (Some (today - factor * decimal digits)%Z).
Proof.
  intros Hdd Hlim Hmax Hf Hmin. unfold offset_date.
  rewrite py_int_ok by done. cbn [mbind py_result_bind].
  pose proof (decimal_nonneg digits Hdd) as Hn.
  unfold MINORDINAL, MAXORDINAL, timedelta in *.
  destruct (Z.leb_spec (Z.abs (factor * decimal digits)) 999999999); [| nia].
  cbn [mbind py_result_bind]. unfold minus_delta, MINORDINAL, MAXORDINAL.
  destruct (Z.leb_spec 1 (today - factor * decimal digits)); [| lia].
  destruct (Z.leb_spec (today - factor * decimal digits) 3652059); [| nia].
  done.
Qed.

(** X1.  A date that [parse_relative_date] returns lies between 0001-01-01
    and the current date, unless it is the date [dateparser] gave for the
    text. *)
Theorem parse_relative_date_not_future
    (dateparser_parse : string -> Z -> py_result (option Z))
    (int_max_str_digits : nat) (today : Z) (date_str : option string) (d : Z) :
  (MINORDINAL <= today)%Z ->
  parse_relative_date dateparser_parse int_max_str_digits today date_str
    = Return (Some d) ->
  (MINORDINAL <= d <= today)%Z \/
  exists text, date_str = Some text /\ dateparser_parse text today = Return (Some d).
Proof.
  intros Ht H. destruct date_str as [text|]; [| done].
  destruct (decide (text = "")) as [->|Hne]; [done |].
  rewrite normalize_date_rules in H by done.
  apply date_rules_return in H; [| done].
  destruct H as [H|H]; [by left |]. right. by exists text.
Qed.

Lemma parse_relative_date_not_future_witness :
  (MINORDINAL <= 739924)%Z /\
  parse_relative_date (fun _ _ => Return None) 4300 739924 (Some "2 months ago")
    = Return (Some 739864%Z) /\
  ((MINORDINAL <= 739864 <= 739924)%Z \/
   exists text, Some "2 months ago" = Some text /\
     (fun _ _ => Return None) text 739924%Z = Return (Some 739864%Z)).
Proof.
  split; [unfold MINORDINAL; lia |]. split; [vm_compute; reflexivity |].
  apply (parse_relative_date_not_future (fun _ _ => Return None) 4300 739924
           (Some "2 months ago") 739864);
    [unfold MINORDINAL; lia | vm_compute; reflexivity].
Defined.

(** X2.  [parse_relative_date] raises only when one of the patterns
    "<N> day(s) ago", "<N> week(s) ago", "<N> month(s) ago" is found in the
    lower-cased text: [ValueError] when the run of digits is longer than
    [int] accepts, [OverflowError] when the offset leads before 0001-01-01.
    An exception of [dateparser] never reaches the caller. *)
Theorem parse_relative_date_raise_cause
    (dateparser_parse : string -> Z -> py_result (option Z))
    (int_max_str_digits : nat) (today : Z) (date_str : option string) (e : exn) :
  (MINORDINAL <= today <= MAXORDINAL)%Z ->
  parse_relative_date dateparser_parse int_max_str_digits today date_str
    = Raise e ->
  exists text u g,
    date_str = Some text /\
    re_search_ago (unit_word u) (Py.strip (Py.lower text)) = Some g /\
    ((e = ValueError /\ (0 < int_max_str_digits < String.length g)%nat) \/
     (e = OverflowError /\ (today - unit_days u * Py.decimal g < MINORDINAL)%Z)).
Proof.
  intros Ht H. destruct date_str as [text|]; [| done].
  destruct (decide (text = "")) as [->|Hne]; [done |].
  rewrite normalize_date_rules in H by done.
  apply date_rules_raise in H as (u & g & H1 & H2); [| done].
  by exists text, u, g.
Qed.

Lemma parse_relative_date_raise_cause_witness :
  (MINORDINAL <= 739924 <= MAXORDINAL)%Z /\
  parse_relative_date (fun _ _ => Raise SqliteError) 4300 739924
    (Some "Posted 105704 weeks ago") = Raise OverflowError /\
  exists text u g,
    Some "Posted 105704 weeks ago" = Some text /\
    re_search_ago (unit_word u) (Py.strip (Py.lower text)) = Some g /\
    ((OverflowError = ValueError /\ (0 < 4300 < String.length g)%nat) \/
     (OverflowError = OverflowError /\
      (739924 - unit_days u * Py.decimal g < MINORDINAL)%Z)).
Proof.
  split; [unfold MINORDINAL, MAXORDINAL; lia |].
  split; [vm_compute; reflexivity |].
  apply (parse_relative_date_raise_cause (fun _ _ => Raise SqliteError) 4300
           739924 (Some "Posted 105704 weeks ago") OverflowError);
    [unfold MINORDINAL, MAXORDINAL; lia | vm_compute; reflexivity].
Defined.

(** X3.  Letter case and white space around the text do not matter to the
    numeric rules: a text whose lower-cased and trimmed form is
    "<N> unit(s) ago" gives the current date minus N days, weeks of 7 days
    or months of 30 days. *)
Theorem parse_relative_date_case_space
    (dateparser_parse : string -> Z -> py_result (option Z))
    (int_max_str_digits : nat) (today : Z) (text : string)
    (digits ws1 : string) (u : ago_unit) (plural : bool) (ws2 : string) :
  Py.strip (Py.lower text) = ago_text digits ws1 u plural ws2 ->
  digits <> "" -> Py.all Py.isdecimal digits = true ->
  ws1 <> "" -> Py.all Py.isspace ws1 = true ->
  ws2 <> "" -> Py.all Py.isspace ws2 = true ->
  (int_max_str_digits = 0 \/ String.length digits <= int_max_str_digits)%nat ->
  (today <= MAXORDINAL)%Z ->
  (MINORDINAL <= today - unit_days u * Py.decimal digits)%Z ->
  parse_relative_date dateparser_parse int_max_str_digits today (Some text)
  = Return (Some (today - unit_days u * Py.decimal digits)%Z).
Proof.
  intros Hlow Hd Hdd Hw1 Hww1 Hw2 Hww2 Hlim Hmax Hmin.
  assert (text <> "") as Hne.
  { intros ->. simpl in Hlow. unfold ago_text in Hlow. by destruct digits. }
  rewrite normalize_date_rules, Hlow, date_rules_ago by done.
  apply offset_date_ok; try done. by destruct u.
Qed.

Lemma parse_relative_date_case_space_witness :
  Py.strip (Py.lower "  3 DAYS   Ago ") = ago_text "3" " " Days true "   " /\
  parse_relative_date (fun _ _ => Return None) 4300 739924 (Some "  3 DAYS   Ago ")
  = Return (Some 739921%Z).
Proof.
  split; [reflexivity |].
  apply (parse_relative_date_case_space (fun _ _ => Return None) 4300 739924
           "  3 DAYS   Ago " "3" " " Days true "   ");
    [reflexivity | done | reflexivity | done | reflexivity | done | reflexivity
    | right; simpl; lia | unfold MAXORDINAL; lia | vm_compute; discriminate].
Defined.

Lemma normalize_date_str_int
    (dateparser_parse : string -> Z -> py_result (option Z))
    (int_max_str_digits : nat) (today n : Z) (u : ago_unit) (plural : bool) :
  (int_max_str_digits = 0 \/ 8 <= int_max_str_digits)%nat ->
  (today <= MAXORDINAL)%Z ->
  (0 <= n)%Z ->
  (MINORDINAL <= today - unit_days u * n)%Z ->
  parse_relative_date dateparser_parse int_max_str_digits today
    (Some (str_int n +:+ " " +:+ unit_word u +:+ (if plural then "s" else "")
           +:+ " " +:+ "ago"))
  = Return (Some (today - unit_days u * n)%Z).
Proof.
  intros Hlim Hmax Hn Hmin.
  destruct (str_int_digits n Hn) as (Hdec & Hall & Hne).
  assert (n < 10 ^ Z.of_nat 7)%Z as Hlt.
  { unfold MINORDINAL, MAXORDINAL in *. destruct u; simpl in *; lia. }
  pose proof (str_int_length n 7 (conj Hn Hlt)) as Hlen.
  change (str_int n +:+ " " +:+ unit_word u +:+ (if plural then "s" else "")
          +:+ " " +:+ "ago") with (ago_text (str_int n) " " u plural " ").
  rewrite normalize_date_rules by (unfold ago_text; by destruct (str_int n)).
  rewrite ago_text_lower_strip, date_rules_ago by done.
  rewrite offset_date_ok;
    [by rewrite Hdec | done | lia | done | by destruct u | by rewrite Hdec].
Qed.

(** X4.  Formatting a number and parsing it back: for a natural number N,
    the text made of [str(N)], the unit and "ago" gives the current date
    minus N days, 7 N days or 30 N days, as long as that date exists. *)
Theorem parse_relative_date_str_int
    (dateparser_parse : string -> Z -> py_result (option Z))
    (int_max_str_digits : nat) (today n : Z) (u : ago_unit) (plural : bool) :
  (int_max_str_digits = 0 \/ 8 <= int_max_str_digits)%nat ->
  (today <= MAXORDINAL)%Z ->
  (0 <= n)%Z ->
  (MINORDINAL <= today - unit_days u * n)%Z ->
  parse_relative_date dateparser_parse int_max_str_digits today
    (Some (str_int n +:+ " " +:+ unit_word u +:+ (if plural then "s" else "")
           +:+ " " +:+ "ago"))
  = Return (Some (today - unit_days u * n)%Z).
Proof. apply normalize_date_str_int. Qed.

Lemma parse_relative_date_str_int_witness :
  (4300 = 0 \/ 8 <= 4300)%nat /\ (739924 <= MAXORDINAL)%Z /\ (0 <= 17)%Z /\
  (MINORDINAL <= 739924 - unit_days Days * 17)%Z /\
  parse_relative_date (fun _ _ => Return None) 4300 739924 (Some "17 days ago")
  = Return (Some 739907%Z).
Proof.
  split; [right; lia |]. split; [unfold MAXORDINAL; lia |]. split; [lia |].
  split; [vm_compute; discriminate |].
  apply (parse_relative_date_str_int (fun _ _ => Return None) 4300 739924 17
           Days true);
    [right; lia | unfold MAXORDINAL; lia | lia | vm_compute; discriminate].
Defined.

(** X5.  Every text that [generate_demo_data] can build for a posting
    [days_ago] days old is parsed back to the current date minus
    [days_ago] days. *)
Theorem demo_date_str_parsed
    (dateparser_parse : string -> Z -> py_result (option Z))
    (int_max_str_digits : nat) (today days_ago : Z) (choice : nat) (hours : Z) :
  (int_max_str_digits = 0 \/ 8 <= int_max_str_digits)%nat ->
  (today <= MAXORDINAL)%Z ->
  (0 <= days_ago <= 30)%Z ->
  (1 <= hours <= 23)%Z ->
  (days_ago < today)%Z ->
  parse_relative_date dateparser_parse int_max_str_digits today
    (Some (demo_date_str days_ago choice hours))
  = Return (Some (today - days_ago)%Z).
Proof.
  intros Hlim Hmax Hd Hh Ht. unfold demo_date_str.
  destruct (Z.eqb_spec days_ago 0) as [->|Hd0].
  { rewrite Z.sub_0_r. destruct choice as [|[|choice]].
    - rewrite normalize_date_rules by done. vm_compute. reflexivity.
    - rewrite normalize_date_rules by done. vm_compute. reflexivity.
    - destruct hours as [|p|p]; try lia.
      do 5 (try destruct p as [p|p|]); try lia;
        (rewrite normalize_date_rules by done; vm_compute; reflexivity). }
  destruct (Z.eqb_spec days_ago 1) as [->|Hd1].
  { change "1 day ago" with (ago_text "1" " " Days false " ").
    rewrite normalize_date_rules, ago_text_lower_strip, date_rules_ago by done.
    change (unit_days Days) with 1%Z.
    rewrite offset_date_ok;
      [done | reflexivity | simpl; lia | done | lia
      | change (decimal "1") with 1%Z; unfold MINORDINAL; lia]. }
  pose proof (normalize_date_str_int dateparser_parse int_max_str_digits today
                days_ago Days true Hlim Hmax) as H.
  simpl unit_days in H. rewrite Z.mul_1_l in H. apply H; [lia |].
  unfold MINORDINAL. lia.
Qed.

Lemma demo_date_str_parsed_witness :
  (0 <= 0 <= 30)%Z /\ (1 <= 7 <= 23)%Z /\ (0 < 739924)%Z /\
  demo_date_str 0 2 7 = "7 hours ago" /\
  parse_relative_date (fun _ _ => Return None) 4300 739924
    (Some (demo_date_str 0 2 7)) = Return (Some (739924 - 0)%Z).
Proof.
  split; [lia |]. split; [lia |]. split; [lia |]. split; [reflexivity |].
  apply (demo_date_str_parsed (fun _ _ => Return None) 4300 739924 0 2 7);
    [right; lia | unfold MAXORDINAL; lia | lia | lia | lia].
Defined.

(** ** More on the skill extractor *)

Module ExtractMore.

Import PyFacts.

Lemma strip_prefix_prefix lit s rest :
  strip_prefix lit s = Some rest -> String.prefix lit s = true.
Proof.
  intros H. apply strip_prefix_eq in H as ->. apply prefix_app.
Qed.

Lemma search_word_contains prev lit s :
  search_word_from prev lit s = true -> contains lit s = true.
Proof.
  revert prev. induction s as [|c s IH]; intros prev H.
  - simpl in H. rewrite orb_false_r in H. unfold match_word in H.
    destruct (strip_prefix lit "") as [rest|] eqn:E; [| done].
    rewrite contains_nil. by apply (strip_prefix_prefix _ _ rest).
  - cbn [search_word_from] in H. rewrite contains_cons.
    apply orb_prop in H as [H|H].
    + unfold match_word in H.
      destruct (strip_prefix lit (String c s)) as [rest|] eqn:E; [| done].
      by rewrite (strip_prefix_prefix _ _ rest).
    + rewrite (IH _ H). apply orb_true_r.
Qed.

(** Whichever test is made for a skill, a skill that passes it is part of
    the text. *)
Lemma skill_found_contains text skill :
  skill_found text skill = true -> contains skill text = true.
Proof.
  unfold skill_found. case_bool_decide; [done |].
  apply search_word_contains.
Qed.

End ExtractMore.

Import ExtractMore.

(** X6.  [extract_skills_from_text] ignores the case of letters: two texts
    with the same lower-case form give the same skills. *)
Theorem extract_skills_ignores_case (set_order : gset string -> list string)
    (text1 text2 : string) :
  Py.lower text1 = Py.lower text2 ->
  extract_skills_from_text set_order (Some text1)
  = extract_skills_from_text set_order (Some text2).
Proof.
  intros H. destruct text1 as [|c1 t1], text2 as [|c2 t2]; try done.
  rewrite !extract_skills_text by done. by rewrite H.
Qed.

Lemma extract_skills_ignores_case_witness :
  Py.lower "PyTorch and SQL" = Py.lower "pytorch AND sql" /\
  extract_skills_from_text elements (Some "PyTorch and SQL")
  = extract_skills_from_text elements (Some "pytorch AND sql").
Proof.
  split; [reflexivity |].
  apply (extract_skills_ignores_case elements "PyTorch and SQL" "pytorch AND sql").
  reflexivity.
Defined.

(** X7.  Every skill in the result is the normalized form of a skill of the
    vocabulary that is part of the lower-cased text, and the result has at
    most as many skills as the vocabulary. *)
Theorem extract_skills_from_the_text (set_order : gset string -> list string)
    (text_blob : option string) :
  (forall s, set_order s ≡ₚ elements s) ->
  (forall x, x ∈ extract_skills_from_text set_order text_blob ->
     exists text skill,
       text_blob = Some text /\
       skill ∈ COMMON_SKILLS_literal /\
       x = normalize_skill skill /\
       Py.contains skill (Py.lower text) = true) /\
  length (extract_skills_from_text set_order text_blob)
    <= length COMMON_SKILLS_literal.
Proof.
  intros Hperm. split.
  - intros x Hx. destruct text_blob as [text|]; [| by apply elem_of_nil in Hx].
    destruct (decide (text = "")) as [->|Hne]; [by apply elem_of_nil in Hx |].
    apply (elem_of_extract_skills set_order Hperm) in Hx as (skill & (H1 & H2 & H3) & ->);
      [| done].
    exists text, skill. split; [done |]. split; [done |]. split; [done |].
    by apply skill_found_contains.
  - rewrite <- (length_fmap normalize_skill COMMON_SKILLS_literal).
    apply submseteq_length, NoDup_submseteq.
    + by apply extract_skills_NoDup.
    + intros x Hx. destruct text_blob as [text|]; [| by apply elem_of_nil in Hx].
      destruct (decide (text = "")) as [->|Hne]; [by apply elem_of_nil in Hx |].
      apply (elem_of_extract_skills set_order Hperm) in Hx as (skill & (H1 & _) & ->);
        [| done].
      apply list_elem_of_fmap. by exists skill.
Qed.

Lemma extract_skills_from_the_text_witness :
  (forall s : gset string, elements s ≡ₚ elements s) /\
  length (extract_skills_from_text elements (Some "Python and SQL, python"))
    <= length COMMON_SKILLS_literal.
Proof.
  split; [done |].
  apply (extract_skills_from_the_text elements (Some "Python and SQL, python")).
  done.
Defined.

(** ** The older copy of the skill extractor *)

Module LegacyFacts.

Import PyFacts.

(** What one turn of the loop adds for a skill that is part of the text. *)
Lemma legacy_scan_found text found skill :
  contains skill text = true ->
  Legacy.scan_skill text found skill =
    if negb (bool_decide (skill ∈ ["c"; "go"])) || re_search_word skill text
    then {[ if bool_decide (skill ∈ ["c++"; "c#"; "node.js"; "ruby on rails"])
            then skill else replace ".js" "js" skill ]} ∪ found
    else found.
Proof.
  intros Hc. unfold Legacy.scan_skill. rewrite Hc.
  destruct (String.eqb_spec skill "c++") as [->|H1]; [by rewrite Hc |].
  destruct (String.eqb_spec skill "c#") as [->|H2]; [by rewrite Hc |].
  destruct (String.eqb_spec skill "node.js") as [->|H3]; [by rewrite Hc |].
  destruct (String.eqb_spec skill "ruby on rails") as [->|H4]; [by rewrite Hc |].
  cbn [andb]. rewrite (bool_decide_eq_false_2 (skill ∈ ["c++"; "c#"; "node.js"; "ruby on rails"])); [done |].
  intros Hin. repeat (apply elem_of_cons in Hin as [->|Hin]; [done |]).
  by apply elem_of_nil in Hin.
Qed.

Lemma legacy_scan_absent text found skill :
  contains skill text = false -> Legacy.scan_skill text found skill = found.
Proof. intros Hc. unfold Legacy.scan_skill. by rewrite Hc. Qed.

Lemma elem_of_legacy_scan text l init x :
  Forall (fun skill =>
            (if bool_decide (skill ∈ ["c++"; "c#"; "node.js"; "ruby on rails"])
             then skill else replace ".js" "js" skill) = skill) l ->
  x ∈ foldl (Legacy.scan_skill text) init l <->
  x ∈ init \/
  (x ∈ l /\ contains x text = true /\
   (negb (bool_decide (x ∈ ["c"; "go"])) || re_search_word x text = true)).
Proof.
  intros Hl. revert init. induction Hl as [|skill l Hskill Hl IH]; intros init.
  - simpl. rewrite elem_of_nil. tauto.
  - cbn [foldl]. rewrite IH, (elem_of_cons l x skill).
    destruct (contains skill text) eqn:Hc.
    + pose proof (legacy_scan_found text init skill Hc) as E.
      revert E. generalize (Legacy.scan_skill text init skill). intros S ->.
      revert Hskill.
      generalize (if bool_decide (skill ∈ ["c++"; "c#"; "node.js"; "ruby on rails"])
                  then skill else replace ".js" "js" skill).
      intros tok ->.
      destruct (negb (bool_decide (skill ∈ ["c"; "go"]))
                || re_search_word skill text) eqn:Hp.
      * rewrite elem_of_union, elem_of_singleton.
        split; [intros [[->|?]|(? & ? & ?)]; auto 6 |].
        intros [?|[[->|?] [? ?]]]; auto.
      * split; [intros [?|(? & ? & ?)]; auto |].
        intros [?|[[->|?] [? ?]]]; auto. congruence.
    + pose proof (legacy_scan_absent text init skill Hc) as E.
      revert E. generalize (Legacy.scan_skill text init skill). intros S ->.
      split; [intros [?|(? & ? & ?)]; auto |].
      intros [?|[[->|?] [? ?]]]; auto. congruence.
Qed.

Lemma legacy_tokens_unchanged :
  Forall (fun skill =>
            (if bool_decide (skill ∈ ["c++"; "c#"; "node.js"; "ruby on rails"])
             then skill else replace ".js" "js" skill) = skill)
    Legacy.COMMON_SKILLS.
Proof. unfold Legacy.COMMON_SKILLS. repeat (constructor; [by vm_compute |]). constructor. Qed.

End LegacyFacts.

Import LegacyFacts.

(** X8.  The older extractor returns, in some order and without
    duplicates, the skills of its vocabulary that are part of the
    lower-cased text, "go" only where it stands as a word; it returns them
    as they are in the vocabulary, "node.js" included. *)
Theorem legacy_extract_skills (set_order : gset string -> list string)
    (text : string) :
  (forall s, set_order s ≡ₚ elements s) ->
  text <> "" ->
  (forall x, x ∈ Legacy.extract_skills_from_text set_order (Some text) <->
     x ∈ Legacy.COMMON_SKILLS /\
     Py.contains x (Py.lower text) = true /\
     (x = "go" -> re_search_word "go" (Py.lower text) = true)) /\
  NoDup (Legacy.extract_skills_from_text set_order (Some text)).
Proof.
  intros Hperm Hne.
  assert (Legacy.extract_skills_from_text set_order (Some text) =
          set_order (foldl (Legacy.scan_skill (Py.lower text)) ∅ Legacy.COMMON_SKILLS))
    as -> by by destruct text.
  split; [| by apply NoDup_set_order].
  intros x. rewrite (elem_of_set_order set_order Hperm).
  rewrite (elem_of_legacy_scan _ _ _ _ legacy_tokens_unchanged).
  split.
  - intros [Hx|(Hin & Hc & Hp)]; [by apply not_elem_of_empty in Hx |].
    split; [done |]. split; [done |]. intros ->. by vm_compute in Hp.
  - intros (Hin & Hc & Hgo). right. split; [done |]. split; [done |].
    case_bool_decide as Hcg; [| done]. simpl.
    apply elem_of_cons in Hcg as [->|Hcg].
    { exfalso. revert Hin.
      apply (bool_decide_eq_false_1 ("c" ∈ Legacy.COMMON_SKILLS)).
      vm_compute. reflexivity. }
    apply list_elem_of_singleton in Hcg. rewrite Hcg at 1. by apply Hgo.
Qed.

Lemma legacy_extract_skills_witness :
  (forall s : gset string, elements s ≡ₚ elements s) /\
  "We use Node.js" <> "" /\
  ("node.js" ∈ Legacy.extract_skills_from_text elements (Some "We use Node.js") <->
     "node.js" ∈ Legacy.COMMON_SKILLS /\
     Py.contains "node.js" (Py.lower "We use Node.js") = true /\
     ("node.js" = "go" -> re_search_word "go" (Py.lower "We use Node.js") = true)).
Proof.
  split; [done |]. split; [done |].
  apply (legacy_extract_skills elements "We use Node.js"); done.
Defined.

(** ** More on the skill aggregator *)

Module AggregateMore.

Import PyFacts.

Lemma clean_token_spec x :
  clean_token x = true ->
  x <> "" /\ occurs "," x = false /\ lstrip x = x /\ rstrip x = x /\ lower x = x
  /\ startswith "[" x = false.
Proof.
  unfold clean_token. rewrite !andb_true_iff, !negb_true_iff, !String.eqb_eq.
  intros (((((H1 & H2) & H3) & H4) & H5) & H6).
  repeat split; try done. by apply nonempty_iff.
Qed.

Lemma split_no_comma x : occurs "," x = false -> split "," x = [x].
Proof.
  induction x as [|c x IH]; [done |]. cbn [split occurs].
  intros [Hc Hx]%orb_false_elim. rewrite Ascii.eqb_sym, Hc, (IH Hx). done.
Qed.

Lemma split_app_comma x r :
  occurs "," x = false -> split "," (x +:+ String "," r) = x :: split "," r.
Proof.
  induction x as [|c x IH]; [done |]. rewrite str_app_cons. cbn [split occurs].
  intros [Hc Hx]%orb_false_elim. rewrite Ascii.eqb_sym, Hc, (IH Hx). done.
Qed.

Lemma split_join x l :
  Forall (fun y => occurs "," y = false) (x :: l) ->
  split "," (join ", " (x :: l)) = x :: ((fun y => " " +:+ y) <$> l).
Proof.
  revert x. induction l as [|y l IH]; intros x Hl.
  - apply split_no_comma. by inversion Hl.
  - inversion Hl as [|? ? Hx Hl']; subst.
    change (join ", " (x :: y :: l)) with (x +:+ String "," (" " +:+ join ", " (y :: l))).
    rewrite split_app_comma by done. f_equal.
    change (" " +:+ join ", " (y :: l)) with (String " " (join ", " (y :: l))).
    cbn [split]. change (Ascii.eqb " " ",") with false. cbv iota.
    rewrite (IH y Hl'). done.
Qed.

Lemma join_cons_nonempty x l : x <> "" -> join ", " (x :: l) <> "".
Proof. destruct x; [done |]. by destruct l. Qed.

Lemma rstrip_join x l :
  Forall (fun y => y <> "" /\ rstrip y = y) (x :: l) ->
  rstrip (join ", " (x :: l)) = join ", " (x :: l).
Proof.
  revert x. induction l as [|y l IH]; intros x Hl.
  - inversion Hl as [|? ? [_ Hx] _]. done.
  - inversion Hl as [|? ? [_ Hx] Hl']; subst.
    change (join ", " (x :: y :: l)) with (x +:+ ", " +:+ join ", " (y :: l)).
    rewrite <- str_app_assoc. apply rstrip_app; [| by apply IH].
    apply join_cons_nonempty. by inversion Hl' as [|? ? [? _] _].
Qed.

Lemma lstrip_fixed_head x :
  x <> "" -> lstrip x = x -> exists c t, x = String c t /\ isspace c = false.
Proof.
  destruct x as [|c t]; [done |]. intros _ H. exists c, t. split; [done |].
  destruct (isspace c) eqn:E; [| done]. simpl in H. rewrite E in H.
  assert (String.length (lstrip t) <= String.length t)%nat as Hl.
  { clear. induction t as [|d t IH]; simpl; [lia |]. destruct (isspace d); simpl; lia. }
  rewrite H in Hl. simpl in Hl. lia.
Qed.

(** The tokens read back from the field of a list of clean tokens are the
    tokens of the list. *)
Lemma spec_tokens_skills_field l :
  Forall (fun x => clean_token x = true) l ->
  spec_tokens (EntryStr (skills_field l)) = field_tokens l.
Proof.
  intros Hl. destruct l as [|x l]; [by vm_compute |].
  unfold skills_field, field_tokens, spec_tokens.
  assert (Forall (fun y => y <> "" /\ occurs "," y = false /\ lstrip y = y /\ rstrip y = y
                           /\ lower y = y /\ startswith "[" y = false) (x :: l)) as Hc.
  { eapply Forall_impl; [exact Hl |]. intros y. apply clean_token_spec. }
  clear Hl. inversion Hc as [|? ? (Hx1 & Hx2 & Hx3 & Hx4 & Hx5 & Hx6) Hcl]; subst.
  destruct (lstrip_fixed_head x Hx1 Hx3) as (c & t & -> & Hsp).
  assert (strip (join ", " (String c t :: l)) = join ", " (String c t :: l)) as ->.
  { unfold strip.
    assert (lstrip (join ", " (String c t :: l)) = join ", " (String c t :: l)) as ->.
    { destruct l; simpl; by rewrite Hsp. }
    apply rstrip_join. eapply Forall_impl; [exact Hc |].
    intros y (? & ? & ? & ? & ? & ?). by split. }
  assert (unbracket (join ", " (String c t :: l)) = join ", " (String c t :: l)) as ->.
  { unfold unbracket.
    assert (startswith "[" (join ", " (String c t :: l)) = false) as ->; [| done].
    destruct l; done. }
  rewrite split_join
    by (eapply Forall_impl; [exact Hc |]; by intros y (? & ? & ? & ? & ? & ?)).
  rewrite !fmap_cons.
  assert (strip (String c t) = String c t) as -> by (unfold strip; by rewrite Hx3, Hx4).
  rewrite Hx5, filter_cons_True by done. f_equal.
  clear Hc Hx1 Hx2 Hx3 Hx4 Hx5 Hx6 Hsp.
  induction Hcl as [|y l (Hy1 & Hy2 & Hy3 & Hy4 & Hy5 & Hy6) Hcl IH]; [done |].
  rewrite !fmap_cons.
  assert (strip (" " +:+ y) = y) as ->.
  { unfold strip. change (lstrip (" " +:+ y)) with (lstrip y). by rewrite Hy3, Hy4. }
  rewrite Hy5, filter_cons_True by done. by rewrite IH.
Qed.

Lemma occurrences_app token l1 l2 :
  occurrences token (l1 ++ l2) = occurrences token l1 + occurrences token l2.
Proof. unfold occurrences. by rewrite filter_app, length_app. Qed.

Lemma occurrences_NoDup token l :
  NoDup l -> occurrences token l = if decide (token ∈ l) then 1 else 0.
Proof.
  unfold occurrences. induction 1 as [|x l Hx Hl IH]; [done |].
  rewrite filter_cons. destruct (decide (x = token)) as [->|Hne].
  - simpl. rewrite IH. rewrite decide_False by done.
    rewrite decide_True; [done | apply elem_of_cons; by left].
  - rewrite IH. destruct (decide (token ∈ l)) as [Hin|Hin].
    + rewrite decide_True; [done | apply elem_of_cons; by right].
    + rewrite decide_False; [done |]. by intros [->|?]%elem_of_cons.
Qed.

Lemma occurrences_bind {A} token (f : A -> list string) (l : list A) :
  (forall a, NoDup (f a)) ->
  occurrences token (l ≫= f) = length (filter (fun a => token ∈ f a) l).
Proof.
  intros Hf. induction l as [|a l IH]; [done |].
  rewrite bind_cons, occurrences_app, IH, occurrences_NoDup, filter_cons by done.
  by destruct (decide (token ∈ f a)).
Qed.

End AggregateMore.

Import AggregateMore.

Lemma normalized_vocabulary_clean :
  Forall (fun skill => clean_token (normalize_skill skill) = true)
    COMMON_SKILLS_literal.
Proof.
  unfold COMMON_SKILLS_literal.
  repeat (constructor; [vm_compute; reflexivity |]). constructor.
Qed.

Lemma extract_skills_clean set_order text_blob :
  (forall s, set_order s ≡ₚ elements s) ->
  Forall (fun x => clean_token x = true)
    (extract_skills_from_text set_order text_blob).
Proof.
  intros Hperm. apply Forall_forall. intros x Hx.
  destruct text_blob as [text|]; [| by apply elem_of_nil in Hx].
  destruct (decide (text = "")) as [->|Hne]; [by apply elem_of_nil in Hx |].
  apply (elem_of_extract_skills set_order Hperm) in Hx as (skill & (H1 & _) & ->);
    [| done].
  by apply (proj1 (Forall_forall _ _) normalized_vocabulary_clean).
Qed.

(** X9.  From extraction to the chart: when each record stores the skills
    extracted from its text as [", ".join(skills)], or "N/A" when there are
    none, [analyze_skills] counts for every token the records that list it;
    the records without skills are counted under "n/a". *)
Theorem analyze_skills_of_records (set_order : gset string -> list string)
    (texts : list string) (token : string) :
  (forall s, set_order s ≡ₚ elements s) ->
  analyze_skills
    (Some ((fun text =>
              EntryStr (skills_field (extract_skills_from_text set_order (Some text))))
           <$> texts)) !! token
  = match length (filter (fun text =>
                            token ∈ field_tokens
                                      (extract_skills_from_text set_order (Some text)))
                         texts) with
    | O => None
    | S n => Some (S n)
    end.
Proof.
  intros Hperm. rewrite analyze_skills_flat, Counter_lookup.
  assert (((fun text =>
              EntryStr (skills_field (extract_skills_from_text set_order (Some text))))
           <$> texts) ≫= spec_tokens
          = texts ≫= (fun text =>
                        field_tokens (extract_skills_from_text set_order (Some text))))
    as ->.
  { induction texts as [|t texts IH]; [done |].
    rewrite fmap_cons, !bind_cons, IH. f_equal.
    apply spec_tokens_skills_field. by apply extract_skills_clean. }
  rewrite occurrences_bind; [done |].
  intros t. unfold field_tokens.
  pose proof (extract_skills_NoDup set_order Hperm (Some t)) as Hn.
  destruct (extract_skills_from_text set_order (Some t)); [| done].
  apply NoDup_singleton.
Qed.

Lemma analyze_skills_of_records_witness :
  (forall s : gset string, elements s ≡ₚ elements s) /\
  analyze_skills
    (Some ((fun text =>
              EntryStr (skills_field (extract_skills_from_text elements (Some text))))
           <$> ["Python and SQL"; "We are going places"; "python, Node.js"]))
    !! "python" = Some 2.
Proof.
  split; [done |].
  rewrite (analyze_skills_of_records elements
             ["Python and SQL"; "We are going places"; "python, Node.js"] "python");
    [| done].
  vm_compute. reflexivity.
Defined.

Module AggregateKeys.

Import PyFacts AggregateMore.

Lemma lower_char_idem c : lower_char (lower_char c) = lower_char c.
Proof. destruct c as [[] [] [] [] [] [] [] []]; vm_compute; reflexivity. Qed.

Lemma lower_idem s : lower (lower s) = lower s.
Proof. induction s as [|c s IH]; [done |]. simpl. by rewrite lower_char_idem, IH. Qed.

Lemma rstrip_idem s : rstrip (rstrip s) = rstrip s.
Proof.
  induction s as [|c s IH]; [done |]. simpl.
  destruct (rstrip s) as [|d r] eqn:E.
  - destruct (isspace c) eqn:Hc; [done |]. simpl. by rewrite Hc.
  - cbn [rstrip]. cbn [rstrip] in IH. rewrite IH. done.
Qed.

Lemma lstrip_head s :
  lstrip s = "" \/ exists c t, lstrip s = String c t /\ isspace c = false.
Proof.
  induction s as [|c s IH]; [by left |]. simpl.
  destruct (isspace c) eqn:Hc; [done |]. right. by exists c, s.
Qed.

Lemma rstrip_head c t :
  isspace c = false -> exists r, rstrip (String c t) = String c r.
Proof. intros Hc. simpl. destruct (rstrip t); rewrite ?Hc; eauto. Qed.

Lemma strip_idem s : strip (strip s) = strip s.
Proof.
  unfold strip. destruct (lstrip_head s) as [->|(c & t & -> & Hc)]; [done |].
  destruct (rstrip_head c t Hc) as [r Hr]. rewrite Hr.
  rewrite lstrip_id by done. rewrite <- Hr. apply rstrip_idem.
Qed.

(** The sum of the counts of a counter. *)
Lemma total_insert_fresh (m : gmap string nat) k v :
  m !! k = None ->
  map_fold (fun _ c acc => c + acc) 0 (<[ k := v ]> m)
  = v + map_fold (fun _ c acc => c + acc) 0 m.
Proof.
  intros Hk. apply (map_fold_insert_L (fun _ c acc => c + acc)); [| done].
  intros. lia.
Qed.

Lemma total_Counter_step (m : gmap string nat) k :
  map_fold (fun _ c acc => c + acc) 0 (<[ k := S (default 0 (m !! k)) ]> m)
  = S (map_fold (fun _ c acc => c + acc) 0 m).
Proof.
  destruct (m !! k) as [v|] eqn:Hk.
  - rewrite <- (insert_delete_id m k v Hk) at 2.
    rewrite <- (insert_delete_eq m).
    rewrite !total_insert_fresh by apply lookup_delete_eq. simpl. lia.
  - by rewrite total_insert_fresh.
Qed.

Lemma total_Counter_from l (m : gmap string nat) :
  map_fold (fun _ c acc => c + acc) 0
    (foldl (fun m k => <[ k := S (default 0 (m !! k)) ]> m) m l)
  = length l + map_fold (fun _ c acc => c + acc) 0 m.
Proof.
  revert m. induction l as [|k l IH]; intros m; [done |].
  cbn [foldl]. rewrite IH, total_Counter_step. simpl. lia.
Qed.

End AggregateKeys.

Import AggregateKeys.

(** X10.  Every key of the counter is a non-empty, lower-case token without
    white space around it. *)
Theorem analyze_skills_keys (series : list skill_entry) (token : string) :
  is_Some (analyze_skills (Some series) !! token) ->
  token <> "" /\ Py.lower token = token /\ Py.strip token = token.
Proof.
  rewrite analyze_skills_flat, Counter_lookup. intros Hsome.
  assert (token ∈ series ≫= spec_tokens) as Hin.
  { unfold occurrences in Hsome.
    destruct (filter (fun t => t = token) (series ≫= spec_tokens)) as [|x l] eqn:E;
      [by destruct Hsome |].
    assert (x ∈ filter (fun t => t = token) (series ≫= spec_tokens)) as Hx
      by (rewrite E; apply elem_of_cons; by left).
    apply list_elem_of_filter in Hx as [-> Hx]. done. }
  apply list_elem_of_bind in Hin as (e & Hin & _).
  assert (exists s, token = Py.lower (Py.strip s) /\ token <> "") as (s & -> & Hne).
  { destruct e as [|s|l|]; simpl in Hin; try by apply elem_of_nil in Hin.
    - apply list_elem_of_filter in Hin as [Hne Hin].
      apply list_elem_of_fmap in Hin as (y & -> & Hin).
      apply list_elem_of_fmap in Hin as (z & -> & Hin). by exists z.
    - apply list_elem_of_filter in Hin as [Hne Hin].
      apply list_elem_of_fmap in Hin as (y & -> & Hin).
      apply list_elem_of_fmap in Hin as (z & -> & Hin).
      exists z. by rewrite <- strip_lower. }
  split; [done |]. split; [apply lower_idem |].
  by rewrite <- strip_lower, strip_idem.
Qed.

Lemma analyze_skills_keys_witness :
  is_Some (analyze_skills (Some [EntryStr "[ Python , SQL ]"]) !! "python") /\
  "python" <> "" /\ Py.lower "python" = "python" /\ Py.strip "python" = "python".
Proof.
  assert (is_Some (analyze_skills (Some [EntryStr "[ Python , SQL ]"]) !! "python"))
    as H by (vm_compute; eauto).
  split; [exact H |].
  exact (analyze_skills_keys [EntryStr "[ Python , SQL ]"] "python" H).
Defined.

(** X11.  The counts of [analyze_skills] add up to the number of tokens
    that the entries produce, so their sum is 0 only when no entry gives a
    token. *)
Theorem analyze_skills_total (series : list skill_entry) :
  map_fold (fun _ count total => count + total) 0 (analyze_skills (Some series))
  = length (series ≫= spec_tokens).
Proof.
  rewrite analyze_skills_flat. unfold Counter.
  rewrite total_Counter_from, map_fold_empty. lia.
Qed.

(** ** More on [store_jobs] *)

Module StoreMore.

Import PyFacts.

Lemma url_rejected_cell row : url_rejected row = cell_rejected (row !! "url").
Proof. unfold url_rejected, stored_url, cell_rejected, row_get. by destruct (row !! "url"). Qed.

Lemma stored_url_cell row : stored_url row = cell_url (row !! "url").
Proof. unfold stored_url, cell_url, row_get. by destruct (row !! "url"). Qed.

Lemma foldl_none cols :
  foldl (fun acc col =>
           df ← acc;
           if bool_decide (col ∈ columns df) then Some df
           else if String.eqb col "parsed_date" then Some (set_column col PyNaT df)
           else if String.eqb col "skills" then Some (set_column col (PyVal "N/A") df)
           else if String.eqb col "url" then None
           else Some (set_column col PyNone df)) None cols = None.
Proof. by induction cols. Qed.

(** The loop over the required columns fails exactly for a frame without
    the column [url]. *)
Lemma add_missing_columns_from_url cols df :
  "url" ∈ columns df ->
  is_Some (foldl (fun acc col =>
           df ← acc;
           if bool_decide (col ∈ columns df) then Some df
           else if String.eqb col "parsed_date" then Some (set_column col PyNaT df)
           else if String.eqb col "skills" then Some (set_column col (PyVal "N/A") df)
           else if String.eqb col "url" then None
           else Some (set_column col PyNone df)) (Some df) cols).
Proof.
  revert df. induction cols as [|col cols IH]; intros df Hurl; [by eexists |].
  cbn [foldl mbind option_bind].
  assert (forall v, "url" ∈ columns (set_column col v df)) as Hset.
  { intros v. unfold set_column. simpl. apply elem_of_app. by left. }
  case_bool_decide as Hin; [by apply IH |].
  destruct (String.eqb col "parsed_date"); [by apply IH |].
  destruct (String.eqb col "skills"); [by apply IH |].
  destruct (String.eqb_spec col "url") as [->|]; [done | by apply IH].
Qed.

Lemma add_missing_columns_no_url cols df :
  "url" ∉ columns df -> "url" ∈ cols ->
  foldl (fun acc col =>
           df ← acc;
           if bool_decide (col ∈ columns df) then Some df
           else if String.eqb col "parsed_date" then Some (set_column col PyNaT df)
           else if String.eqb col "skills" then Some (set_column col (PyVal "N/A") df)
           else if String.eqb col "url" then None
           else Some (set_column col PyNone df)) (Some df) cols = None.
Proof.
  revert df. induction cols as [|col cols IH]; intros df Hurl Hin;
    [by apply elem_of_nil in Hin |].
  cbn [foldl mbind option_bind].
  destruct (decide (col = "url")) as [->|Hne].
  { rewrite bool_decide_eq_false_2 by done. simpl. apply foldl_none. }
  apply elem_of_cons in Hin as [Hin|Hin]; [done |].
  assert (forall v, "url" ∉ columns (set_column col v df)) as Hset.
  { intros v. unfold set_column. simpl. intros [?|Heq%list_elem_of_singleton]%elem_of_app;
      [done | congruence]. }
  case_bool_decide; [by apply IH |].
  destruct (String.eqb col "parsed_date"); [by apply IH |].
  destruct (String.eqb col "skills"); [by apply IH |].
  destruct (String.eqb_spec col "url") as [->|]; [done | by apply IH].
Qed.

Lemma url_cells_length df df' :
  url_cells df' = url_cells df -> length (rows df') = length (rows df).
Proof.
  unfold url_cells. intros H.
  by rewrite <- (length_fmap (fun row => row !! "url") (rows df')), H, length_fmap.
Qed.

Lemma url_cells_elem df df' row' :
  url_cells df' = url_cells df -> row' ∈ rows df' ->
  exists row, row ∈ rows df /\ row !! "url" = row' !! "url".
Proof.
  intros H Hin.
  assert (row' !! "url" ∈ url_cells df) as Hc.
  { rewrite <- H. unfold url_cells. apply list_elem_of_fmap. by exists row'. }
  unfold url_cells in Hc. apply list_elem_of_fmap in Hc as (row & Hc & Hrow).
  by exists row.
Qed.

Section store.

Variable CURRENT_TIMESTAMP : Z -> string.

Local Abbreviation store_row := (DbManager.store_row CURRENT_TIMESTAMP).

(** One record only adds at the end of the table; an accepted record has
    its url in the table afterwards. *)
Lemma store_row_grows t n row t' n' :
  store_row (t, n) row = (t', n') ->
  (exists new, jobs t' = jobs t ++ new) /\
  (url_rejected row = false -> stored_url row ∈ url <$> jobs t').
Proof.
  intros Hrow. destruct (url_rejected row) eqn:Hrej.
  { rewrite store_row_rejected in Hrow by done. inversion Hrow; subst.
    split; [| done]. exists []. by rewrite app_nil_r. }
  destruct (decide (stored_url row ∈ url <$> jobs t)) as [Hin|Hin].
  { rewrite store_row_duplicate in Hrow by done. inversion Hrow; subst.
    split; [| done]. exists []. by rewrite app_nil_r. }
  destruct (store_row_inserted CURRENT_TIMESTAMP t n row Hrej Hin) as (j & Hj & Heq).
  rewrite Heq in Hrow. inversion Hrow; subst. simpl.
  split; [by exists [j] |]. intros _. rewrite fmap_app. apply elem_of_app. right.
  rewrite <- Hj. apply list_elem_of_singleton. done.
Qed.

Lemma store_rows_grow rows t n t' n' :
  foldl store_row (t, n) rows = (t', n') ->
  (exists new, jobs t' = jobs t ++ new) /\
  (forall row, row ∈ rows -> url_rejected row = false ->
     stored_url row ∈ url <$> jobs t').
Proof.
  revert t n. induction rows as [|row rows IH]; intros t n Hfold.
  - inversion Hfold; subst. split; [exists []; by rewrite app_nil_r |].
    intros row Hin. by apply elem_of_nil in Hin.
  - change (foldl store_row (store_row (t, n) row) rows = (t', n')) in Hfold.
    destruct (store_row (t, n) row) as [t1 n1] eqn:E1.
    destruct (store_row_grows _ _ _ _ _ E1) as [[new1 Hn1] Hu1].
    destruct (IH _ _ Hfold) as [[new Hn] Hu].
    split; [exists (new1 ++ new); by rewrite Hn, Hn1, app_assoc |].
    intros r [->|Hin]%elem_of_cons Hrej; [| by apply Hu].
    rewrite Hn, fmap_app. apply elem_of_app. left. by apply Hu1.
Qed.

(** A batch of records that are rejected or stored already changes
    nothing. *)
Lemma store_rows_known rows t n :
  (forall row, row ∈ rows ->
     url_rejected row = true \/ stored_url row ∈ url <$> jobs t) ->
  exists n', foldl store_row (t, n) rows = (t, n') /\
             inserted_rows n' = inserted_rows n.
Proof.
  revert n. induction rows as [|row rows IH]; intros n Hrows; [by exists n |].
  cbn [foldl].
  assert (exists n1, store_row (t, n) row = (t, n1) /\ inserted_rows n1 = inserted_rows n)
    as (n1 & -> & Hn1).
  { destruct (url_rejected row) eqn:Hrej.
    - exists (count_error n). split; [by apply store_row_rejected | done].
    - exists (count_duplicate n). split; [| done].
      apply store_row_duplicate; [done |].
      destruct (Hrows row) as [?|?]; [apply elem_of_cons; by left | congruence | done]. }
  destruct (IH n1) as (n' & Hn' & Hi).
  { intros r Hr. apply Hrows. apply elem_of_cons. by right. }
  exists n'. split; [done | congruence].
Qed.

(** Every record is counted once. *)
Lemma store_rows_counted rows t n t' n' :
  foldl store_row (t, n) rows = (t', n') ->
  inserted_rows n' + skipped_due_to_duplicate n' + error_rows n'
  = length rows + (inserted_rows n + skipped_due_to_duplicate n + error_rows n).
Proof.
  revert t n. induction rows as [|row rows IH]; intros t n Hfold.
  - by inversion Hfold.
  - change (foldl store_row (store_row (t, n) row) rows = (t', n')) in Hfold.
    destruct (store_row (t, n) row) as [t1 n1] eqn:E1.
    rewrite (IH _ _ Hfold). simpl.
    assert (inserted_rows n1 + skipped_due_to_duplicate n1 + error_rows n1
            = S (inserted_rows n + skipped_due_to_duplicate n + error_rows n)) as ->;
      [| lia].
    destruct (url_rejected row) eqn:Hrej.
    { rewrite store_row_rejected in E1 by done. inversion E1; subst. simpl. lia. }
    destruct (decide (stored_url row ∈ url <$> jobs t)) as [Hin|Hin].
    { rewrite store_row_duplicate in E1 by done. inversion E1; subst. simpl. lia. }
    destruct (store_row_inserted CURRENT_TIMESTAMP t n row Hrej Hin) as (j & Hj & Heq).
    rewrite Heq in E1. inversion E1; subst. simpl. lia.
Qed.

(** [store_jobs] on a frame with rows and the column [url], on a database
    that can be opened, is the loop over the rows of the completed
    frame. *)
Lemma store_jobs_loop t df :
  df_empty df = false -> "url" ∈ columns df ->
  exists df',
    add_missing_columns df = Some df' /\
    url_cells df' = url_cells df /\
    store_jobs CURRENT_TIMESTAMP (Available t) (Some df) =
      (Available (foldl store_row (t, no_rows) (rows df')).1,
       (foldl store_row (t, no_rows) (rows df')).2).
Proof.
  intros Hne Hurl.
  destruct (add_missing_columns_from_url required_cols df Hurl) as [df' Hdf'].
  exists df'. split; [done |]. split; [by apply add_missing_columns_url_cells |].
  unfold store_jobs. rewrite Hne. unfold add_missing_columns. rewrite Hdf'.
  cbn [connect].
  by destruct (foldl store_row (t, no_rows) (rows df')).
Qed.

End store.

End StoreMore.

Import StoreMore.

(** X12.  Storing again what was stored changes nothing: after a call of
    [store_jobs] on a frame with rows and a column [url], a call on any
    frame whose url cells all occur in the first one (the frame itself, or
    a part of it) inserts no row and leaves the table as it is. *)
Theorem store_jobs_again (CURRENT_TIMESTAMP : Z -> string)
    (t : table) (df df2 : DataFrame) :
  df_empty df = false ->
  "url" ∈ columns df ->
  (forall row2, row2 ∈ rows df2 ->
     exists row, row ∈ rows df /\ row !! "url" = row2 !! "url") ->
  exists n2,
    store_jobs CURRENT_TIMESTAMP
      (store_jobs CURRENT_TIMESTAMP (Available t) (Some df)).1 (Some df2)
    = ((store_jobs CURRENT_TIMESTAMP (Available t) (Some df)).1, n2) /\
    inserted_rows n2 = 0.
Proof.
  intros Hne Hurl Hsub.
  destruct (store_jobs_loop CURRENT_TIMESTAMP t df Hne Hurl) as (df' & _ & Hcells & ->).
  destruct (foldl (store_row CURRENT_TIMESTAMP) (t, no_rows) (rows df')) as [t1 n1] eqn:E.
  destruct (store_rows_grow _ _ _ _ _ _ E) as [_ Hstored]. simpl.
  unfold store_jobs.
  destruct (df_empty df2); [by exists no_rows |].
  destruct (add_missing_columns df2) as [df2'|] eqn:E2; [| by exists no_rows].
  apply add_missing_columns_url_cells in E2. cbn [connect].
  destruct (store_rows_known CURRENT_TIMESTAMP (rows df2') t1 no_rows) as (n2 & -> & Hn2).
  { intros row2' Hin2.
    destruct (url_cells_elem _ _ _ E2 Hin2) as (row2 & Hr2 & Hc2).
    destruct (Hsub row2 Hr2) as (row & Hr & Hc).
    assert (exists row', row' ∈ rows df' /\ row' !! "url" = row !! "url")
      as (row' & Hr' & Hc').
    { assert (row !! "url" ∈ url_cells df') as Hx.
      { rewrite Hcells. unfold url_cells. apply list_elem_of_fmap. by exists row. }
      unfold url_cells in Hx. apply list_elem_of_fmap in Hx as (row' & Hx & ?).
      by exists row'. }
    rewrite url_rejected_cell, stored_url_cell, <- Hc2, <- Hc, <- Hc'.
    rewrite <- url_rejected_cell, <- stored_url_cell.
    destruct (url_rejected row') eqn:Hrej; [by left |]. right. by apply Hstored. }
  by exists n2.
Qed.

Lemma store_jobs_again_witness :
  df_empty {| columns := ["url"];
              rows := [ {[ "url" := PyVal "a" ]}; {[ "url" := PyVal " b " ]} ] |}
    = false /\
  exists n2,
    store_jobs (fun _ => "2025-01-01 00:00:00")
      (store_jobs (fun _ => "2025-01-01 00:00:00") (Available empty_table)
         (Some {| columns := ["url"];
                  rows := [ {[ "url" := PyVal "a" ]}; {[ "url" := PyVal " b " ]} ] |})).1
      (Some {| columns := ["url"];
               rows := [ {[ "url" := PyVal " b " ]}; {[ "url" := PyVal "a" ]} ] |})
    = ((store_jobs (fun _ => "2025-01-01 00:00:00") (Available empty_table)
         (Some {| columns := ["url"];
                  rows := [ {[ "url" := PyVal "a" ]}; {[ "url" := PyVal " b " ]} ] |})).1,
       n2) /\
    inserted_rows n2 = 0.
Proof.
  split; [reflexivity |].
  apply (store_jobs_again (fun _ => "2025-01-01 00:00:00") empty_table);
    [reflexivity | apply elem_of_cons; by left |].
  intros row2 [->|[->|Hin]%elem_of_cons]%elem_of_cons.
  - exists {[ "url" := PyVal " b " ]}. split; [| done].
    apply elem_of_cons. right. apply elem_of_cons. by left.
  - exists {[ "url" := PyVal "a" ]}. split; [| done]. apply elem_of_cons. by left.
  - by apply elem_of_nil in Hin.
Defined.

(** X13.  On a frame with rows and a column [url], and a database that can
    be opened, every record is counted once: the rows inserted, the
    duplicates skipped and the errors add up to the number of records. *)
Theorem store_jobs_counts_every_record (CURRENT_TIMESTAMP : Z -> string)
    (t : table) (df : DataFrame) :
  df_empty df = false ->
  "url" ∈ columns df ->
  let n := (store_jobs CURRENT_TIMESTAMP (Available t) (Some df)).2 in
  inserted_rows n + skipped_due_to_duplicate n + error_rows n = length (rows df).
Proof.
  intros Hne Hurl.
  destruct (store_jobs_loop CURRENT_TIMESTAMP t df Hne Hurl) as (df' & _ & Hcells & ->).
  cbv zeta.
  destruct (foldl (store_row CURRENT_TIMESTAMP) (t, no_rows) (rows df')) as [t1 n1] eqn:E.
  cbn [snd]. rewrite (store_rows_counted _ _ _ _ _ _ E). simpl.
  rewrite (url_cells_length _ _ Hcells). lia.
Qed.

Lemma store_jobs_counts_every_record_witness :
  df_empty {| columns := ["url"];
              rows := [ {[ "url" := PyVal "a" ]}; {[ "url" := PyNaN ]};
                        {[ "url" := PyVal "a " ]} ] |} = false /\
  (let n := (store_jobs (fun _ => "2025-01-01 00:00:00") (Available empty_table)
               (Some {| columns := ["url"];
                        rows := [ {[ "url" := PyVal "a" ]}; {[ "url" := PyNaN ]};
                                  {[ "url" := PyVal "a " ]} ] |})).2 in
   inserted_rows n + skipped_due_to_duplicate n + error_rows n = 3).
Proof.
  split; [reflexivity |].
  apply (store_jobs_counts_every_record (fun _ => "2025-01-01 00:00:00") empty_table);
    [reflexivity | apply elem_of_cons; by left].
Defined.

(** X14.  [store_jobs] returns 0 and leaves the database as it is when its
    argument is not a DataFrame, when the frame is empty, when the frame
    has no column [url] (whatever its other columns hold), and when the
    database cannot be opened. *)
Theorem store_jobs_nothing_to_do (CURRENT_TIMESTAMP : Z -> string)
    (st : storage) (jobs_df : option DataFrame) :
  (jobs_df = None \/
   (exists df, jobs_df = Some df /\ (df_empty df = true \/ "url" ∉ columns df)) \/
   st = Unavailable) ->
  store_jobs CURRENT_TIMESTAMP st jobs_df = (st, no_rows).
Proof.
  intros [->|[(df & -> & [Hempty|Hurl])| ->]]; try done.
  - unfold store_jobs. by rewrite Hempty.
  - unfold store_jobs. destruct (df_empty df); [done |].
    unfold add_missing_columns.
    rewrite add_missing_columns_no_url; [done | done |].
    unfold required_cols. apply list_elem_of_In. simpl. tauto.
  - unfold store_jobs. destruct jobs_df as [df|]; [| done].
    destruct (df_empty df); [done |]. by destruct (add_missing_columns df).
Qed.

Lemma store_jobs_nothing_to_do_witness :
  store_jobs (fun _ => "2025-01-01 00:00:00") (Available empty_table)
    (Some {| columns := ["title"]; rows := [ {[ "title" := PyVal "T" ]} ] |})
  = (Available empty_table, no_rows).
Proof.
  apply (store_jobs_nothing_to_do (fun _ => "2025-01-01 00:00:00")).
  right. left. eexists. split; [reflexivity |]. right.
  intros Hin%list_elem_of_singleton. discriminate.
Defined.

Module StoreIds.

Section store.

Variable CURRENT_TIMESTAMP : Z -> string.

Local Abbreviation store_row := (DbManager.store_row CURRENT_TIMESTAMP).

Lemma store_row_ids t n row t' n' :
  store_row (t, n) row = (t', n') -> ids_ordered t -> ids_ordered t'.
Proof.
  intros Hrow [Hsorted Hle].
  destruct (url_rejected row) eqn:Hrej.
  { rewrite store_row_rejected in Hrow by done. by inversion Hrow; subst. }
  destruct (decide (stored_url row ∈ url <$> jobs t)) as [Hin|Hin].
  { rewrite store_row_duplicate in Hrow by done. by inversion Hrow; subst. }
  unfold DbManager.store_row, url_rejected, stored_url in *. rewrite Hrej in Hrow.
  unfold execute_insert in Hrow. rewrite bool_decide_eq_false_2 in Hrow by done.
  inversion Hrow; subst. clear Hrow. split; simpl.
  - rewrite fmap_app. apply StronglySorted_app_2; [| done | repeat constructor].
    intros x1 x2 Hx1 ->%list_elem_of_singleton.
    apply list_elem_of_fmap in Hx1 as (j & -> & Hj).
    apply (proj1 (Forall_forall _ _) Hle) in Hj. simpl. lia.
  - apply Forall_app. split.
    + eapply Forall_impl; [exact Hle |]. intros j Hj. simpl in *. lia.
    + repeat constructor. simpl. lia.
Qed.

Lemma store_rows_ids rows t n t' n' :
  foldl store_row (t, n) rows = (t', n') -> ids_ordered t -> ids_ordered t'.
Proof.
  revert t n. induction rows as [|row rows IH]; intros t n Hfold Hids.
  - by inversion Hfold; subst.
  - change (foldl store_row (store_row (t, n) row) rows = (t', n')) in Hfold.
    destruct (store_row (t, n) row) as [t1 n1] eqn:E1.
    eapply IH; [exact Hfold |]. by eapply store_row_ids.
Qed.

Lemma store_jobs_ids st jobs_df :
  storage_ids_ordered st ->
  storage_ids_ordered (store_jobs CURRENT_TIMESTAMP st jobs_df).1.
Proof.
  intros Hids. unfold store_jobs.
  destruct jobs_df as [df|]; [| done].
  destruct (df_empty df); [done |].
  destruct (add_missing_columns df) as [df'|]; [| done].
  destruct st as [| |t]; [done | done |]. cbn [connect].
  destruct (foldl store_row (t, no_rows) (rows df')) as [t' n'] eqn:E.
  simpl. by eapply store_rows_ids.
Qed.

End store.

End StoreIds.

Import StoreIds.

(** X15.  The ids that AUTOINCREMENT gives out: over any sequence of calls
    of [store_jobs], the ids of the table stay strictly increasing in the
    order of insertion, hence distinct, and none exceeds the counter. *)
Theorem store_calls_ids (CURRENT_TIMESTAMP : Z -> string)
    (st : storage) (batches : list (option DataFrame)) :
  storage_ids_ordered st ->
  storage_ids_ordered (store_calls CURRENT_TIMESTAMP st batches).1 /\
  NoDup (id <$> rows_of (store_calls CURRENT_TIMESTAMP st batches).1).
Proof.
  intros Hids.
  assert (storage_ids_ordered (store_calls CURRENT_TIMESTAMP st batches).1) as H.
  { revert st Hids. induction batches as [|b batches IH]; intros st Hids; [done |].
    cbn [store_calls].
    pose proof (store_jobs_ids CURRENT_TIMESTAMP st b Hids) as H1.
    destruct (store_jobs CURRENT_TIMESTAMP st b) as [st1 n1].
    specialize (IH st1 H1).
    by destruct (store_calls CURRENT_TIMESTAMP st1 batches) as [st2 ns]. }
  split; [done |].
  destruct (store_calls CURRENT_TIMESTAMP st batches).1 as [| |t];
    [constructor | constructor |].
  destruct H as [Hsorted _]. simpl.
  clear -Hsorted. induction Hsorted as [|x l Hl IH Hx]; constructor; [| done].
  intros Hin. apply (proj1 (Forall_forall _ _) Hx) in Hin. lia.
Qed.

Lemma store_calls_ids_witness :
  storage_ids_ordered (Available empty_table) /\
  NoDup (id <$> rows_of
    (store_calls (fun _ => "2025-01-01 00:00:00") (Available empty_table)
       [ Some {| columns := ["url"];
                 rows := [ {[ "url" := PyVal "a" ]}; {[ "url" := PyVal "b" ]} ] |};
         Some {| columns := ["url"]; rows := [ {[ "url" := PyVal "c" ]} ] |} ]).1).
Proof.
  assert (storage_ids_ordered (Available empty_table)) as H
    by (split; constructor).
  split; [exact H |].
  apply (store_calls_ids (fun _ => "2025-01-01 00:00:00") (Available empty_table)).
  exact H.
Defined.

(** X16.  What is stored can be fetched: after a call of [store_jobs] on a
    frame with rows and a column [url], [fetch_jobs] without filter returns
    for every record of the frame with an acceptable url a row with that
    url, white space around it removed. *)
Theorem store_then_fetch (CURRENT_TIMESTAMP : Z -> string)
    (t : table) (df : DataFrame) (row : gmap string pyval) :
  df_empty df = false ->
  "url" ∈ columns df ->
  row ∈ rows df ->
  url_rejected row = false ->
  exists found j,
    fetch_jobs (store_jobs CURRENT_TIMESTAMP (Available t) (Some df)).1 None None
      = Return {| frame_columns := selected_columns; frame_rows := found |} /\
    j ∈ found /\
    url j = Py.strip (py_str (row_get row "url" PyNone)).
Proof.
  intros Hne Hurl Hrow Hrej.
  destruct (store_jobs_loop CURRENT_TIMESTAMP t df Hne Hurl) as (df' & _ & Hcells & ->).
  destruct (foldl (store_row CURRENT_TIMESTAMP) (t, no_rows) (rows df')) as [t1 n1] eqn:E.
  destruct (store_rows_grow _ _ _ _ _ _ E) as [_ Hstored]. simpl.
  assert (exists row', row' ∈ rows df' /\ row' !! "url" = row !! "url")
    as (row' & Hr' & Hc').
  { assert (row !! "url" ∈ url_cells df') as Hx.
    { rewrite Hcells. unfold url_cells. apply list_elem_of_fmap. by exists row. }
    unfold url_cells in Hx. apply list_elem_of_fmap in Hx as (row' & Hx & ?).
    by exists row'. }
  assert (stored_url row ∈ url <$> jobs t1) as Hin.
  { rewrite stored_url_cell, <- Hc', <- stored_url_cell. apply Hstored; [done |].
    by rewrite url_rejected_cell, Hc', <- url_rejected_cell. }
  apply list_elem_of_fmap in Hin as (j & Hj & Hin).
  exists (select_jobs None None t1), j. split; [done |]. split; [| done].
  rewrite select_jobs_perm. apply list_elem_of_filter. done.
Qed.

Lemma store_then_fetch_witness :
  exists found j,
    fetch_jobs
      (store_jobs (fun _ => "2025-01-01 00:00:00") (Available empty_table)
         (Some {| columns := ["url"]; rows := [ {[ "url" := PyVal " a " ]} ] |})).1
      None None
      = Return {| frame_columns := selected_columns; frame_rows := found |} /\
    j ∈ found /\
    url j = Py.strip (py_str (row_get {[ "url" := PyVal " a " ]} "url" PyNone)).
Proof.
  apply (store_then_fetch (fun _ => "2025-01-01 00:00:00") empty_table
           {| columns := ["url"]; rows := [ {[ "url" := PyVal " a " ]} ] |}
           {[ "url" := PyVal " a " ]});
    [reflexivity | apply elem_of_cons; by left | apply elem_of_cons; by left
    | reflexivity].
Defined.

(** ** The scrapers' [drop_duplicates] before [store_jobs] *)

Module DedupFacts.

Import StoreMore.

Section dedup.

Variable CURRENT_TIMESTAMP : Z -> string.
Variable same_url : option pyval -> option pyval -> bool.
Hypothesis same_url_store : forall a b, same_url a b = true -> same_for_store a b.

Local Abbreviation store_row := (DbManager.store_row CURRENT_TIMESTAMP).

Lemma drop_duplicates_from_fmap (f : gmap string pyval -> gmap string pyval) seen rows :
  (forall row, f row !! "url" = row !! "url") ->
  drop_duplicates_from same_url seen (f <$> rows)
  = f <$> drop_duplicates_from same_url seen rows.
Proof.
  intros Hf. revert seen. induction rows as [|row rows IH]; intros seen; [done |].
  rewrite fmap_cons. cbn [drop_duplicates_from]. rewrite Hf, IH.
  by destruct (existsb _ seen).
Qed.

Lemma drop_duplicates_set_column col v df :
  col <> "url" ->
  drop_duplicates same_url (set_column col v df)
  = set_column col v (drop_duplicates same_url df).
Proof.
  intros Hne. unfold drop_duplicates, set_column. simpl. f_equal.
  apply drop_duplicates_from_fmap. intros row. by apply lookup_insert_ne.
Qed.

Lemma add_missing_columns_drop_duplicates df :
  add_missing_columns (drop_duplicates same_url df)
  = drop_duplicates same_url <$> add_missing_columns df.
Proof.
  unfold add_missing_columns. generalize required_cols. intros cols.
  assert (forall acc,
    foldl (fun acc col =>
           df ← acc;
           if bool_decide (col ∈ columns df) then Some df
           else if String.eqb col "parsed_date" then Some (set_column col PyNaT df)
           else if String.eqb col "skills" then Some (set_column col (PyVal "N/A") df)
           else if String.eqb col "url" then None
           else Some (set_column col PyNone df))
      (drop_duplicates same_url <$> acc) cols
    = drop_duplicates same_url <$>
      foldl (fun acc col =>
           df ← acc;
           if bool_decide (col ∈ columns df) then Some df
           else if String.eqb col "parsed_date" then Some (set_column col PyNaT df)
           else if String.eqb col "skills" then Some (set_column col (PyVal "N/A") df)
           else if String.eqb col "url" then None
           else Some (set_column col PyNone df)) acc cols) as H.
  { induction cols as [|col cols IH]; intros acc; [done |].
    cbn [foldl]. rewrite <- IH. f_equal.
    destruct acc as [d|]; [| done]. cbn [fmap option_fmap option_map mbind option_bind].
    change (columns (drop_duplicates same_url d)) with (columns d).
    case_bool_decide; [done |].
    destruct (String.eqb_spec col "parsed_date") as [->|];
      [cbn [fmap option_fmap option_map]; by rewrite drop_duplicates_set_column |].
    destruct (String.eqb_spec col "skills") as [->|];
      [cbn [fmap option_fmap option_map]; by rewrite drop_duplicates_set_column |].
    destruct (String.eqb_spec col "url") as [->|]; [done |].
    cbn [fmap option_fmap option_map]. by rewrite drop_duplicates_set_column. }
  apply (H (Some df)).
Qed.

(** The table after one record does not depend on the counters, and the
    count of inserted rows moves alike. *)
Lemma store_row_counters t n m row :
  inserted_rows n = inserted_rows m ->
  (store_row (t, n) row).1 = (store_row (t, m) row).1 /\
  inserted_rows (store_row (t, n) row).2 = inserted_rows (store_row (t, m) row).2.
Proof.
  intros Hnm. destruct (url_rejected row) eqn:Hrej.
  { by rewrite !store_row_rejected. }
  destruct (decide (stored_url row ∈ url <$> jobs t)) as [Hin|Hin].
  { by rewrite !store_row_duplicate. }
  unfold DbManager.store_row, url_rejected, stored_url in *. rewrite Hrej.
  unfold execute_insert. rewrite bool_decide_eq_false_2 by done.
  cbn [fst snd inserted_rows count_inserted]. split; [done |].
  unfold count_inserted. simpl. lia.
Qed.

Lemma store_rows_drop_duplicates rows seen t n m :
  inserted_rows n = inserted_rows m ->
  (forall cell, cell ∈ seen ->
     cell_rejected cell = true \/ cell_url cell ∈ url <$> jobs t) ->
  (foldl store_row (t, m) (drop_duplicates_from same_url seen rows)).1
    = (foldl store_row (t, n) rows).1 /\
  inserted_rows (foldl store_row (t, m) (drop_duplicates_from same_url seen rows)).2
    = inserted_rows (foldl store_row (t, n) rows).2.
Proof.
  revert seen t n m. induction rows as [|row rows IH]; intros seen t n m Hnm Hseen;
    [done |].
  cbn [foldl drop_duplicates_from].
  destruct (store_row (t, n) row) as [t1 n1] eqn:E1.
  destruct (store_row_grows CURRENT_TIMESTAMP _ _ _ _ _ E1) as [[new Hnew] Hin1].
  destruct (existsb (same_url (row !! "url")) seen) eqn:Hdup.
  - apply existsb_exists in Hdup as (cell & Hcell%list_elem_of_In & Hsame).
    apply same_url_store in Hsame as [Hrej Hsurl].
    assert (t1 = t /\ inserted_rows n1 = inserted_rows n) as [-> Hn1].
    { destruct (url_rejected row) eqn:Hr.
      - rewrite store_row_rejected in E1 by done. by inversion E1.
      - rewrite store_row_duplicate in E1; [by inversion E1 | done |].
        rewrite url_rejected_cell in Hr. rewrite stored_url_cell, (Hsurl Hr).
        destruct (Hseen cell Hcell) as [?|?]; [congruence | done]. }
    apply IH; [congruence |].
    intros c [->|Hc]%elem_of_cons; [| by apply Hseen].
    rewrite <- url_rejected_cell, <- stored_url_cell.
    destruct (url_rejected row) eqn:Hr; [by left | right; by apply Hin1].
  - cbn [foldl].
    destruct (store_row_counters t n m row Hnm) as [Ht Hi]. rewrite E1 in Ht, Hi.
    destruct (store_row (t, m) row) as [t2 m1]. simpl in Ht, Hi. subst t2.
    apply IH; [done |].
    intros c [->|Hc]%elem_of_cons.
    + rewrite <- url_rejected_cell, <- stored_url_cell.
      destruct (url_rejected row) eqn:Hr; [by left | right; by apply Hin1].
    + destruct (Hseen c Hc) as [?|Hu]; [by left |]. right.
      rewrite Hnew, fmap_app. apply elem_of_app. by left.
Qed.

Lemma df_empty_drop_duplicates df :
  df_empty (drop_duplicates same_url df) = df_empty df.
Proof. unfold df_empty, drop_duplicates. simpl. by destruct (columns df), (rows df). Qed.

End dedup.

End DedupFacts.

Import DedupFacts.

(** X17.  Both scrapers end by dropping from a frame with a column [url]
    the rows whose url repeats an earlier one.  [store_jobs] does not need
    it: with or without that step the database ends up the same and the
    same number of rows is reported as inserted, as long as two cells that
    [drop_duplicates] takes for equal are either both unusable as a url or
    give the same url. *)
Theorem store_jobs_unique_jobs (CURRENT_TIMESTAMP : Z -> string)
    (same_url : option pyval -> option pyval -> bool)
    (st : storage) (df : DataFrame) :
  (forall a b, same_url a b = true -> same_for_store a b) ->
  (store_jobs CURRENT_TIMESTAMP st (Some (unique_jobs same_url df))).1
    = (store_jobs CURRENT_TIMESTAMP st (Some df)).1 /\
  inserted_rows
    (store_jobs CURRENT_TIMESTAMP st (Some (unique_jobs same_url df))).2
    = inserted_rows (store_jobs CURRENT_TIMESTAMP st (Some df)).2.
Proof.
  intros Hsame. unfold unique_jobs.
  destruct (negb (df_empty df) && bool_decide ("url" ∈ columns df)); [| done].
  unfold store_jobs.
  rewrite df_empty_drop_duplicates, add_missing_columns_drop_duplicates.
  destruct (df_empty df); [done |].
  destruct (add_missing_columns df) as [df'|]; [| done].
  cbn [fmap option_fmap option_map].
  destruct st as [| |t]; [done | |].
  { cbn [connect fst snd]. split; [done |].
    by rewrite !(proj1 (store_rows_failed _ _)). }
  cbn [connect].
  destruct (store_rows_drop_duplicates CURRENT_TIMESTAMP same_url Hsame (rows df')
              [] t no_rows no_rows eq_refl) as [H1 H2].
  { intros cell Hc. by apply elem_of_nil in Hc. }
  change (rows (drop_duplicates same_url df'))
    with (drop_duplicates_from same_url [] (rows df')).
  destruct (foldl _ _ (drop_duplicates_from same_url [] (rows df'))) as [t2 n2].
  destruct (foldl _ _ (rows df')) as [t1 n1]. simpl in *. by subst.
Qed.

Lemma store_jobs_unique_jobs_witness :
  (forall a b, same_cell a b = true -> same_for_store a b) /\
  rows (unique_jobs same_cell
          {| columns := ["url"];
             rows := [ {[ "url" := PyVal "a" ]}; {[ "url" := PyVal "a" ]} ] |})
    = [ {[ "url" := PyVal "a" ]} ] /\
  (store_jobs (fun _ => "2025-01-01 00:00:00") (Available empty_table)
     (Some (unique_jobs same_cell
              {| columns := ["url"];
                 rows := [ {[ "url" := PyVal "a" ]}; {[ "url" := PyVal "a" ]} ] |}))).1
    = (store_jobs (fun _ => "2025-01-01 00:00:00") (Available empty_table)
         (Some {| columns := ["url"];
                  rows := [ {[ "url" := PyVal "a" ]}; {[ "url" := PyVal "a" ]} ] |})).1 /\
  inserted_rows
    (store_jobs (fun _ => "2025-01-01 00:00:00") (Available empty_table)
       (Some (unique_jobs same_cell
                {| columns := ["url"];
                   rows := [ {[ "url" := PyVal "a" ]}; {[ "url" := PyVal "a" ]} ] |}))).2
    = inserted_rows
        (store_jobs (fun _ => "2025-01-01 00:00:00") (Available empty_table)
           (Some {| columns := ["url"];
                    rows := [ {[ "url" := PyVal "a" ]}; {[ "url" := PyVal "a" ]} ] |})).2.
Proof.
  assert (forall a b, same_cell a b = true -> same_for_store a b) as Hsame.
  { intros [[| | |x]|] [[| | |y]|] H; try done.
    apply String.eqb_eq in H as ->. done. }
  split; [exact Hsame |]. split; [reflexivity |].
  exact (store_jobs_unique_jobs (fun _ => "2025-01-01 00:00:00") same_cell
           (Available empty_table) _ Hsame).
Defined.

(** ** [fetch_jobs] with both filters and any keyword *)

Module FetchMore.

Lemma like_prefix_any p s :
  String.prefix p s = true -> sql_like (p +:+ "%") s = true.
Proof.
  revert s. induction p as [|c p IH]; intros s Hp.
  - rewrite str_app_nil_l. apply like_any.
  - destruct s as [|d s]; [done |].
    rewrite prefix_cons in Hp. apply andb_prop in Hp as [Hc Hp].
    apply Ascii.eqb_eq in Hc as <-. rewrite str_app_cons.
    destruct (Ascii.eqb c "%") eqn:Hw.
    + apply Ascii.eqb_eq in Hw as ->.
      rewrite like_percent. apply orb_true_iff. right.
      rewrite like_percent. apply orb_true_iff. left. by apply IH.
    + rewrite like_char by done. rewrite Ascii.eqb_refl, orb_true_r. by apply IH.
Qed.

Lemma like_contains_any p s :
  contains p s = true -> sql_like (String "%" (p +:+ "%")) s = true.
Proof.
  induction s as [|d s IH]; intros Hc.
  - rewrite contains_nil in Hc. rewrite like_percent, orb_false_r.
    by apply like_prefix_any.
  - rewrite contains_cons in Hc. rewrite like_percent.
    apply orb_true_iff. apply orb_true_iff in Hc as [Hc|Hc].
    + left. by apply like_prefix_any.
    + right. by apply IH.
Qed.

Lemma where_clause_source keyword source_filter j :
  where_clause keyword source_filter j = true -> source_matches source_filter j.
Proof.
  unfold where_clause, source_matches. intros [_ H]%andb_prop.
  destruct source_filter as [[|c src]|]; [done | | done].
  by apply String.eqb_eq.
Qed.

Lemma where_clause_found keyword source_filter j :
  (forall k, keyword = Some k -> keyword_in k j) ->
  source_matches source_filter j ->
  where_clause keyword source_filter j = true.
Proof.
  unfold where_clause, source_matches, keyword_in. intros Hk Hs.
  apply andb_true_intro. split.
  - destruct keyword as [[|c k]|]; [done | | done].
    specialize (Hk _ eq_refl).
    change ("%" ++ String c k ++ "%")%string with ("%" +:+ String c k +:+ "%").
    rewrite sql_lower_app. change (sql_lower "%") with "%".
    rewrite str_app_cons, str_app_nil_l, sql_lower_app.
    change (sql_lower "%") with "%". by apply like_contains_any.
  - destruct source_filter as [[|c src]|]; [done | | done].
    by apply String.eqb_eq.
Qed.

End FetchMore.

Import FetchMore.

(** X18.  Whatever the two filters, [fetch_jobs] returns rows of the
    table, none more often than it is stored, in the order of the query;
    each returned row has the source asked for, up to the case of the
    letters A..Z; and no stored row is missed that has this source and
    whose search keyword contains the keyword, also when the keyword holds
    ['%'] or ['_']. *)
Theorem fetch_jobs_sound_complete (t : table) (keyword source_filter : option string) :
  exists found,
    fetch_jobs (Available t) keyword source_filter
      = Return {| frame_columns := selected_columns; frame_rows := found |} /\
    found ⊆+ jobs t /\
    StronglySorted order_by found /\
    (forall j, j ∈ found -> source_matches source_filter j) /\
    (forall j, j ∈ jobs t ->
       (forall k, keyword = Some k -> keyword_in k j) ->
       source_matches source_filter j ->
       j ∈ found).
Proof.
  exists (select_jobs keyword source_filter t).
  split; [done |]. split.
  { rewrite select_jobs_perm. apply sublist_submseteq, sublist_filter. }
  split; [apply select_jobs_sorted |]. split.
  - intros j Hj. rewrite select_jobs_perm in Hj.
    apply list_elem_of_filter in Hj as [Hw _].
    by apply (where_clause_source keyword).
  - intros j Hin Hk Hs. rewrite select_jobs_perm.
    apply list_elem_of_filter. split; [| done]. by apply where_clause_found.
Qed.

(** * Properties stated on the texts and the rows themselves *)

(** ** What the two tests of [extract_skills_from_text] find *)

Module MatchFacts.

Lemma str_app_inv_nil a b : a +:+ b = "" -> a = "" /\ b = "".
Proof. destruct a; [by rewrite str_app_nil_l | by rewrite str_app_cons]. Qed.

Lemma prefix_iff sub s :
  String.prefix sub s = true <-> exists after, s = sub +:+ after.
Proof.
  revert s. induction sub as [|c sub IH]; intros s.
  - rewrite prefix_nil. split; [| done]. intros _. exists s. by rewrite str_app_nil_l.
  - destruct s as [|d s].
    + split; [done |]. intros [after H]. by rewrite str_app_cons in H.
    + rewrite prefix_cons, andb_true_iff, IH. split.
      * intros [->%Ascii.eqb_eq [after ->]]. exists after. by rewrite str_app_cons.
      * intros [after H]. rewrite str_app_cons in H. inversion H; subst.
        split; [apply Ascii.eqb_refl | by exists after].
Qed.

(** [sub in s] holds when [sub] is a part of [s]. *)
Lemma contains_occurs_in sub s : contains sub s = true <-> occurs_in sub s.
Proof.
  unfold occurs_in. induction s as [|d s IH].
  - rewrite contains_nil, prefix_iff. split.
    + intros [after H]. exists "", after. by rewrite str_app_nil_l.
    + intros (before & after & H). symmetry in H.
      apply str_app_inv_nil in H as [-> H].
      exists after. by rewrite H.
  - rewrite contains_cons, orb_true_iff, prefix_iff, IH. split.
    + intros [[after H]|(before & after & H)].
      * exists "", after. by rewrite str_app_nil_l.
      * exists (String d before), after. by rewrite str_app_cons, H.
    + intros (before & after & H). destruct before as [|c before].
      * left. exists after. by rewrite str_app_nil_l in H.
      * right. rewrite str_app_cons in H. inversion H; subst. by exists before, after.
Qed.

Lemma last_isword_last prev lit :
  last_isword prev lit =
  match last_char lit with
  | Some c => isword c
  | None => prev
  end.
Proof.
  revert prev. induction lit as [|c lit IH]; intros prev; [done |].
  cbn [last_isword last_char]. rewrite IH. by destruct (last_char lit).
Qed.

Lemma head_isword_first s : head_isword s = word_char (first_char s).
Proof. by destruct s. Qed.

Lemma head_isword_app lit rest :
  head_isword lit = true -> head_isword (lit +:+ rest) = true.
Proof. destruct lit; [done | by rewrite str_app_cons]. Qed.

(** The pattern at the start of [s], for a literal that starts and ends
    with a word character. *)
Lemma match_word_iff prev lit s :
  head_isword lit = true -> word_char (last_char lit) = true ->
  match_word prev lit s = true <->
  exists rest, s = lit +:+ rest /\ prev = false /\ word_char (first_char rest) = false.
Proof.
  intros Hhead Hlast. unfold match_word, word_boundary. split.
  - destruct (strip_prefix lit s) as [rest|] eqn:E; [| done].
    apply strip_prefix_eq in E as ->. rewrite (head_isword_app _ _ Hhead).
    rewrite last_isword_last. unfold word_char in Hlast.
    destruct (last_char lit) as [c|]; [| done]. rewrite Hlast, head_isword_first.
    intros [Hp Hr]%andb_prop. exists rest. split; [done |].
    split; [by destruct prev | by destruct (word_char (first_char rest))].
  - intros (rest & -> & -> & Hr). rewrite strip_prefix_app.
    rewrite (head_isword_app _ _ Hhead), last_isword_last. unfold word_char in Hlast.
    destruct (last_char lit) as [c|]; [| done].
    by rewrite Hlast, head_isword_first, Hr.
Qed.

(** The search for the pattern, for such a literal: it is found where the
    literal stands with no word character before it and none after it. *)
Lemma search_word_from_iff prev lit s :
  head_isword lit = true -> word_char (last_char lit) = true ->
  search_word_from prev lit s = true <->
  exists before after,
    s = before +:+ lit +:+ after /\
    match last_char before with
    | Some c => isword c
    | None => prev
    end = false /\
    word_char (first_char after) = false.
Proof.
  intros Hhead Hlast. revert prev. induction s as [|d s IH]; intros prev.
  - cbn [search_word_from]. rewrite orb_false_r, match_word_iff by done. split.
    + intros (rest & H & -> & Hr). exists "", rest. by rewrite str_app_nil_l.
    + intros (before & after & H & Hb & Ha). symmetry in H.
      apply str_app_inv_nil in H as [-> H].
      exists after. by rewrite H.
  - cbn [search_word_from]. rewrite orb_true_iff, match_word_iff, IH by done. split.
    + intros [(rest & H & -> & Hr)|(before & after & H & Hb & Ha)].
      * exists "", rest. by rewrite str_app_nil_l.
      * exists (String d before), after. rewrite str_app_cons, H.
        split; [done |]. split; [| done]. cbn [last_char].
        by destruct (last_char before).
    + intros (before & after & H & Hb & Ha). destruct before as [|c before].
      * left. exists after. rewrite str_app_nil_l in H. done.
      * right. rewrite str_app_cons in H. inversion H; subst.
        exists before, after. split; [done |]. split; [| done].
        cbn [last_char] in Hb. by destruct (last_char before).
Qed.

Lemma re_search_word_iff lit text :
  head_isword lit = true -> word_char (last_char lit) = true ->
  re_search_word lit text = true <-> stands_as_word lit text.
Proof.
  intros Hhead Hlast. unfold re_search_word, stands_as_word.
  rewrite search_word_from_iff by done.
  split; intros (before & after & H & Hb & Ha); exists before, after;
    (split; [done |]); (split; [| done]); unfold word_char in *;
    by destruct (last_char before).
Qed.

(** A text of letters and digits. *)
Lemma isalnum_isword c : isalnum c = true -> isword c = true.
Proof. unfold isalnum. by intros [? _]%andb_prop. Qed.

Lemma alnum_ends s :
  s <> "" -> all isalnum s = true ->
  head_isword s = true /\ word_char (last_char s) = true.
Proof.
  intros Hne Hs. split.
  - destruct s as [|c s]; [done |]. simpl in *.
    apply andb_prop in Hs as [Hc _]. by apply isalnum_isword.
  - assert (forall t, all isalnum t = true ->
              t = "" \/ word_char (last_char t) = true) as H.
    { clear. induction t as [|c t IH]; [by left |]. right. simpl in H.
      apply andb_prop in H as [Hc Ht]. cbn [last_char].
      destruct (IH Ht) as [->|Hl]; [by apply isalnum_isword |].
      by destruct (last_char t). }
    by destruct (H s Hs).
Qed.

Lemma alnum_occurs c s :
  isalnum c = false -> all isalnum s = true -> occurs c s = false.
Proof.
  intros Hc. induction s as [|d s IH]; [done |]. simpl.
  intros [Hd Hs]%andb_prop. rewrite (IH Hs), orb_false_r.
  apply Ascii.eqb_neq. intros ->. congruence.
Qed.

Lemma substring_skills_special skill :
  skill ∈ substring_skills -> all isalnum skill = false.
Proof.
  intros Hs. unfold substring_skills in Hs.
  repeat (apply elem_of_cons in Hs as [->|Hs]; [by vm_compute |]).
  by apply elem_of_nil in Hs.
Qed.

(** A skill of letters and digits is left as it is by the normalization. *)
Lemma normalize_alnum skill :
  all isalnum skill = true -> normalize_skill skill = skill.
Proof.
  intros Hs. unfold normalize_skill.
  assert (contains ".js" skill = false) as ->.
  { apply (contains_absent "."); [done |]. by apply alnum_occurs. }
  destruct (String.eqb_spec "react.js" skill) as [<-|]; [done |].
  destruct (String.eqb_spec "vue.js" skill) as [<-|]; [done |].
  destruct (String.eqb_spec "express.js" skill) as [<-|]; [done |].
  destruct (String.eqb_spec "node.js" skill) as [<-|]; done.
Qed.

(** The normalization of the vocabulary: a skill is left as it is, or its
    normalized form has "js". *)
Lemma normalize_vocabulary skill :
  skill ∈ COMMON_SKILLS_literal ->
  normalize_skill skill = skill \/ contains "js" (normalize_skill skill) = true.
Proof.
  intros Hs.
  assert (Forall (fun s => String.eqb (normalize_skill s) s
                           || contains "js" (normalize_skill s) = true)
            COMMON_SKILLS_literal) as Hall.
  { apply (bool_decide_eq_true_1
             (Forall (fun s => String.eqb (normalize_skill s) s
                               || contains "js" (normalize_skill s) = true)
                COMMON_SKILLS_literal)).
    vm_compute. reflexivity. }
  apply (proj1 (Forall_forall _ _) Hall) in Hs.
  apply orb_prop in Hs as [Hs|Hs]; [left; by apply String.eqb_eq | by right].
Qed.

End MatchFacts.

Import MatchFacts.

(** C3.  A skill of the vocabulary made of letters and digits is looked up
    with word boundaries: the test finds it where it stands in the text
    with no letter, digit or underscore before it and none after it, and
    only there.  The listed skills are looked up as parts of the text,
    and each of them has a character that is neither a letter nor a digit.
    So a skill of letters and digits, "js" apart, is in the result when it
    stands as a word in the lower-cased text, and only then.
    "Senior C++ Engineer" gives "c++", and "We are going places" does not
    give "go". *)
Theorem extract_skills_matching_policy (set_order : gset string -> list string) :
  (forall s, set_order s ≡ₚ elements s) ->
  (forall skill text,
     skill <> "" -> Py.all Py.isalnum skill = true ->
     skill_found text skill = true <-> stands_as_word skill text) /\
  (forall skill text,
     skill ∈ substring_skills ->
     skill_found text skill = true <-> occurs_in skill text) /\
  (forall skill, skill ∈ substring_skills -> Py.all Py.isalnum skill = false) /\
  (forall skill text,
     text <> "" ->
     skill ∈ COMMON_SKILLS_literal ->
     Py.all Py.isalnum skill = true ->
     Py.contains "js" skill = false ->
     skill ∈ extract_skills_from_text set_order (Some text) <->
     stands_as_word skill (Py.lower text)) /\
  "c++" ∈ extract_skills_from_text set_order (Some "Senior C++ Engineer") /\
  "go" ∉ extract_skills_from_text set_order (Some "We are going places").
Proof.
  intros Hperm.
  assert (forall skill text,
            skill <> "" -> all isalnum skill = true ->
            skill_found text skill = true <-> stands_as_word skill text) as Hplain.
  { intros skill text Hne Halnum. unfold skill_found.
    case_bool_decide as Hs.
    { by rewrite (substring_skills_special skill Hs) in Halnum. }
    destruct (alnum_ends skill Hne Halnum) as [Hh Hl].
    by apply re_search_word_iff. }
  split; [done |]. split; [| split; [apply substring_skills_special | split]].
  - intros skill text Hs. unfold skill_found.
    rewrite bool_decide_eq_true_2 by done. apply contains_occurs_in.
  - intros skill text Hne Hin Halnum Hjs.
    assert (skill <> "") as Hskill.
    { intros ->. revert Hin.
      apply (bool_decide_eq_false_1 ("" ∈ COMMON_SKILLS_literal)).
      vm_compute. reflexivity. }
    rewrite (elem_of_extract_skills set_order Hperm) by done.
    rewrite <- (Hplain skill (lower text) Hskill Halnum). split.
    + intros (skill' & (Hin' & Hne' & Hfound) & Heq).
      destruct (normalize_vocabulary skill' Hin') as [Hn|Hn].
      * rewrite Hn in Heq. by subst.
      * rewrite <- Heq in Hn. congruence.
    + intros Hfound. exists skill. split; [done |].
      by rewrite normalize_alnum.
  - rewrite !(extract_skills_order set_order Hperm).
    assert (extract_skills_from_text elements (Some "Senior C++ Engineer") = ["c++"]) as ->
      by (vm_compute; reflexivity).
    assert (extract_skills_from_text elements (Some "We are going places") = []) as ->
      by (vm_compute; reflexivity).
    split; [apply list_elem_of_singleton; done | apply not_elem_of_nil].
Qed.

(** In "We Go places" the skill "go" stands as a word, between "we " and
    " places". *)
Lemma extract_skills_matching_policy_witness :
  (forall s : gset string, elements s ≡ₚ elements s) /\
  "go" ∈ extract_skills_from_text elements (Some "We Go places") /\
  "c++" ∈ extract_skills_from_text elements (Some "Senior C++ Engineer") /\
  "go" ∉ extract_skills_from_text elements (Some "We are going places").
Proof.
  split; [done |].
  destruct (extract_skills_matching_policy elements (fun s => reflexivity _))
    as (_ & _ & _ & Hword & Hcpp & Hgo).
  split; [| done].
  apply (Hword "go" "We Go places"); [done | | reflexivity | reflexivity |].
  - apply (bool_decide_eq_true_1 ("go" ∈ COMMON_SKILLS_literal)). vm_compute. reflexivity.
  - exists "we ", " places". split; [reflexivity |]. split; reflexivity.
Defined.

(** ** Entries of the series as they are written *)

Module WrittenFacts.

(** *** Stripping *)

Lemma lstrip_app_spaces a s : all isspace a = true -> lstrip (a +:+ s) = lstrip s.
Proof.
  induction a as [|c a IH]; [done |]. simpl.
  intros [-> Ha]%andb_prop. by apply IH.
Qed.

Lemma lstrip_app_char a c b :
  isspace c = false -> lstrip (a +:+ String c b) = lstrip a +:+ String c b.
Proof.
  intros Hc. induction a as [|d a IH].
  - rewrite str_app_nil_l. simpl. by rewrite Hc.
  - rewrite str_app_cons. simpl. destruct (isspace d); [done |].
    by rewrite str_app_cons.
Qed.

Lemma lstrip_fixed w : space_char (first_char w) = false -> lstrip w = w.
Proof. destruct w as [|c w]; [done |]. simpl. by intros ->. Qed.

Lemma lstrip_idem s : lstrip (lstrip s) = lstrip s.
Proof.
  destruct (lstrip_head s) as [->|(c & t & -> & Hc)]; [done |]. by apply lstrip_id.
Qed.

Lemma rstrip_spaces s : all isspace s = true -> rstrip s = "".
Proof.
  induction s as [|c s IH]; [done |]. simpl.
  intros [-> Hs]%andb_prop. by rewrite IH.
Qed.

Lemma rstrip_app_spaces a s : all isspace s = true -> rstrip (a +:+ s) = rstrip a.
Proof.
  intros Hs. induction a as [|c a IH].
  - rewrite str_app_nil_l. by apply rstrip_spaces.
  - rewrite str_app_cons. simpl. by rewrite IH.
Qed.

Lemma rstrip_app_keep a b : rstrip b <> "" -> rstrip (a +:+ b) = a +:+ rstrip b.
Proof.
  intros Hb. induction a as [|c a IH]; [by rewrite !str_app_nil_l |].
  rewrite !str_app_cons. simpl. rewrite IH.
  destruct (a +:+ rstrip b) eqn:E; [| done].
  apply MatchFacts.str_app_inv_nil in E as [_ E]. done.
Qed.

Lemma rstrip_char c b : isspace c = false -> rstrip (String c b) = String c (rstrip b).
Proof. intros Hc. simpl. destruct (rstrip b); by rewrite ?Hc. Qed.

Lemma rstrip_fixed w : space_char (last_char w) = false -> rstrip w = w.
Proof.
  induction w as [|c w IH]; [done |]. cbn [last_char rstrip].
  destruct (last_char w) as [d|] eqn:E.
  - intros H. rewrite (IH H). destruct w; [done | done].
  - destruct w as [|d w]; [| simpl in E; by destruct (last_char w)].
    simpl. by intros ->.
Qed.

Lemma lstrip_rstrip s : lstrip (rstrip s) = rstrip (lstrip s).
Proof.
  induction s as [|c s IH]; [done |].
  destruct (isspace c) eqn:Hc.
  - cbn [lstrip]. rewrite Hc, <- IH. cbn [rstrip].
    destruct (rstrip s) as [|d r]; [by rewrite Hc |].
    cbn [lstrip]. by rewrite Hc.
  - rewrite (lstrip_id c s Hc), (rstrip_char c s Hc). by apply lstrip_id.
Qed.

Lemma strip_lstrip s : strip (lstrip s) = strip s.
Proof. unfold strip. by rewrite lstrip_idem. Qed.

Lemma strip_rstrip s : strip (rstrip s) = strip s.
Proof. unfold strip. by rewrite lstrip_rstrip, rstrip_idem. Qed.

Lemma occurs_lstrip c s : occurs c s = false -> occurs c (lstrip s) = false.
Proof.
  induction s as [|d s IH]; [done |]. simpl.
  intros [Hd Hs]%orb_false_elim. destruct (isspace d); [by apply IH |].
  simpl. by rewrite Hd, Hs.
Qed.

Lemma occurs_rstrip c s : occurs c s = false -> occurs c (rstrip s) = false.
Proof.
  induction s as [|d s IH]; [done |]. simpl.
  intros [Hd Hs]%orb_false_elim. specialize (IH Hs).
  destruct (rstrip s) as [|e r].
  - destruct (isspace d); [done |]. simpl. by rewrite Hd.
  - cbn [occurs] in *. by rewrite Hd, IH.
Qed.

(** *** The two ends of a text *)

Lemma startswith_first c s : startswith c s = true <-> first_char s = Some c.
Proof.
  destruct s as [|d s]; [done |]. simpl. split.
  - by intros ->%Ascii.eqb_eq.
  - intros [= ->]. apply Ascii.eqb_refl.
Qed.

Lemma endswith_last c s : endswith c s = true <-> last_char s = Some c.
Proof.
  induction s as [|d s IH]; [done |]. cbn [endswith last_char].
  destruct s as [|e s].
  - simpl. split; [by intros ->%Ascii.eqb_eq | intros [= ->]; apply Ascii.eqb_refl].
  - rewrite IH. destruct (last_char (String e s)) eqn:E; [done |].
    simpl in E. by destruct (last_char s).
Qed.

Lemma last_char_app a b :
  last_char (a +:+ b) =
  match last_char b with
  | Some d => Some d
  | None => last_char a
  end.
Proof.
  induction a as [|c a IH]; [rewrite str_app_nil_l; by destruct (last_char b) |].
  rewrite str_app_cons. cbn [last_char]. rewrite IH.
  by destruct (last_char b), (last_char a).
Qed.

Lemma last_char_none s : last_char s = None -> s = "".
Proof. destruct s as [|c s]; [done |]. simpl. by destruct (last_char s). Qed.

Lemma first_char_rstrip c s :
  first_char (rstrip s) = Some c -> first_char s = Some c.
Proof.
  destruct s as [|d s]; [done |]. simpl.
  destruct (rstrip s); [destruct (isspace d) |]; done.
Qed.

Lemma last_char_lstrip c s :
  last_char (lstrip s) = Some c -> last_char s = Some c.
Proof.
  induction s as [|d s IH]; [done |]. cbn [lstrip].
  destruct (isspace d); [| done]. intros H. cbn [last_char]. by rewrite (IH H).
Qed.

(** *** Joining and splitting at the commas *)

Lemma list_snoc_inv {A} (l : list A) : l = [] \/ exists init x, l = init ++ [x].
Proof.
  induction l as [|x l _] using rev_ind; [by left |]. right. by exists l, x.
Qed.

Lemma join_cons x y l : join "," (x :: y :: l) = x +:+ String "," (join "," (y :: l)).
Proof. reflexivity. Qed.

Lemma split_join_comma ts :
  ts <> [] -> Forall (fun t => occurs "," t = false) ts ->
  split "," (join "," ts) = ts.
Proof.
  intros Hne Hts. induction Hts as [|x l Hx Hl IH]; [done |].
  destruct l as [|y l]; [by apply split_no_comma |].
  rewrite join_cons, split_app_comma by done. f_equal. by apply IH.
Qed.

Lemma lstrip_join h r : lstrip (join "," (h :: r)) = join "," (lstrip h :: r).
Proof.
  destruct r as [|y l]; [done |]. rewrite !join_cons. by apply lstrip_app_char.
Qed.

Lemma rstrip_join_last ts x :
  rstrip (join "," (ts ++ [x])) = join "," (ts ++ [rstrip x]).
Proof.
  induction ts as [|y ts IH]; [done |].
  assert (forall z, (y :: ts) ++ [z] = y :: (ts ++ [z])) as Hc by done.
  rewrite !Hc.
  destruct (ts ++ [x]) as [|a l] eqn:E1; [by destruct ts |].
  destruct (ts ++ [rstrip x]) as [|b l'] eqn:E2; [by destruct ts |].
  rewrite !join_cons. rewrite rstrip_app_keep.
  - by rewrite rstrip_char, IH.
  - by rewrite rstrip_char.
Qed.

Lemma first_char_join c x r :
  c <> ","%char ->
  first_char (join "," (x :: r)) = Some c -> first_char x = Some c.
Proof.
  intros Hc. destruct r as [|y l]; [done |]. rewrite join_cons.
  destruct x as [|d x]; [| by rewrite str_app_cons].
  rewrite str_app_nil_l. simpl. congruence.
Qed.

Lemma last_char_join c ts x :
  c <> ","%char ->
  last_char (join "," (ts ++ [x])) = Some c -> last_char x = Some c.
Proof.
  intros Hc. induction ts as [|y ts IH]; [done |].
  change ((y :: ts) ++ [x]) with (y :: (ts ++ [x])).
  destruct (ts ++ [x]) as [|a l] eqn:E; [by destruct ts |].
  rewrite join_cons.
  change (y +:+ String "," (join "," (a :: l)))
    with (y +:+ ("," +:+ join "," (a :: l))).
  rewrite !last_char_app.
  destruct (last_char (join "," (a :: l))) as [d|] eqn:El; [done |].
  simpl. congruence.
Qed.

(** *** Fragments *)

Lemma fragment_no_comma f : fragment_ok f -> occurs "," (fragment_text f) = false.
Proof.
  intros (Hl & Ht & Hw & _). unfold fragment_text.
  rewrite !occurs_app, Hw, (occurs_all isspace "," _ Hl), (occurs_all isspace "," _ Ht);
    done.
Qed.

Lemma lstrip_fragment f :
  fragment_ok f ->
  lstrip (fragment_text f) = match word f with
                             | "" => ""
                             | _ => word f +:+ trail f
                             end.
Proof.
  intros (Hl & Ht & _ & Hf & _). unfold fragment_text.
  rewrite lstrip_app_spaces by done.
  destruct (word f) as [|c w]; [rewrite str_app_nil_l; by apply lstrip_spaces |].
  rewrite str_app_cons. simpl in *. by rewrite Hf.
Qed.

Lemma rstrip_fragment f :
  fragment_ok f ->
  rstrip (fragment_text f) = match word f with
                             | "" => ""
                             | _ => lead f +:+ word f
                             end.
Proof.
  intros (Hl & Ht & _ & _ & Hlast). unfold fragment_text.
  rewrite <- str_app_assoc, rstrip_app_spaces by done.
  destruct (word f) as [|c w] eqn:E; [rewrite str_app_nil_r; by apply rstrip_spaces |].
  rewrite <- E in *. rewrite rstrip_app_keep; rewrite (rstrip_fixed _ Hlast); [done |].
  by rewrite E.
Qed.

Lemma strip_fragment f : fragment_ok f -> strip (fragment_text f) = word f.
Proof.
  intros Hf. unfold strip. rewrite (lstrip_fragment f Hf).
  destruct Hf as (_ & Ht & _ & _ & Hlast).
  destruct (word f) as [|c w] eqn:E; [done |]. rewrite <- E in *.
  by rewrite rstrip_app_spaces, rstrip_fixed.
Qed.

Lemma strip_fragments fs :
  Forall fragment_ok fs -> strip <$> (fragment_text <$> fs) = word <$> fs.
Proof.
  intros Hfs. induction Hfs as [|f fs Hf Hfs IH]; [done |].
  by rewrite !fmap_cons, IH, strip_fragment.
Qed.

Lemma fragments_no_comma fs :
  Forall fragment_ok fs ->
  Forall (fun t => occurs "," t = false) (fragment_text <$> fs).
Proof.
  intros Hfs. apply Forall_fmap. eapply Forall_impl; [exact Hfs |].
  intros f Hf. by apply fragment_no_comma.
Qed.

Lemma filter_lower (l : list string) :
  filter (fun t => t <> "") (lower <$> l) = lower <$> filter (fun w => w <> "") l.
Proof.
  induction l as [|w l IH]; [done |].
  rewrite fmap_cons, !filter_cons, IH.
  destruct (decide (lower w <> "")) as [H|H], (decide (w <> "")) as [H'|H']; try done.
  - exfalso. apply H'. by apply (proj1 (lower_nonempty w)).
  - exfalso. apply H. by apply (proj2 (lower_nonempty w)).
Qed.

(** The tokens of a text whose fragments between the commas are known up
    to the white space around them. *)
Lemma tokens_of_texts (ts : list string) (fs : list fragment) :
  Forall fragment_ok fs -> strip <$> ts = word <$> fs ->
  filter (fun t => t <> "") (lower <$> (strip <$> ts))
  = lower <$> filter (fun w => w <> "") (word <$> fs).
Proof. intros _ ->. apply filter_lower. Qed.

(** *** Stripping the fragments written one after the other *)

Lemma strip_written fs :
  Forall fragment_ok fs -> fs <> [] ->
  exists ts,
    strip (written fs) = join "," ts /\
    split "," (join "," ts) = ts /\
    strip <$> ts = word <$> fs.
Proof.
  intros Hfs Hne. unfold written.
  pose proof (fragments_no_comma fs Hfs) as Hcomma.
  pose proof (strip_fragments fs Hfs) as Hstrip.
  destruct (fragment_text <$> fs) as [|h r] eqn:E; [by destruct fs |].
  assert (exists init x, lstrip h :: r = init ++ [x]) as (init & x & Hsnoc).
  { destruct (list_snoc_inv (lstrip h :: r)) as [?|(init & x & ?)];
      [done | by exists init, x]. }
  assert (strip (join "," (h :: r)) = join "," (init ++ [rstrip x])) as ->.
  { unfold strip. rewrite lstrip_join, Hsnoc. apply rstrip_join_last. }
  exists (init ++ [rstrip x]).
  assert (Forall (fun t => occurs "," t = false) (init ++ [x])) as Hc.
  { rewrite <- Hsnoc. inversion Hcomma; subst.
    constructor; [by apply occurs_lstrip | done]. }
  apply Forall_app in Hc as [Hinit Hx]. apply Forall_inv in Hx.
  split; [done |]. split.
  - apply split_join_comma; [by destruct init |].
    apply Forall_app. split; [done |]. constructor; [| done].
    by apply occurs_rstrip.
  - rewrite <- Hstrip, fmap_cons, <- (strip_lstrip h), <- fmap_cons, Hsnoc.
    by rewrite !fmap_app, !fmap_cons, strip_rstrip.
Qed.

(** Brackets around the stripped text are brackets at the two ends of the
    skills. *)
Lemma strip_written_brackets fs :
  Forall fragment_ok fs ->
  startswith "[" (strip (written fs)) && endswith "]" (strip (written fs)) = true ->
  in_brackets fs.
Proof.
  intros Hfs [Hs He]%andb_prop. unfold in_brackets. split.
  - apply startswith_first in Hs. unfold strip in Hs.
    apply first_char_rstrip in Hs. unfold written in Hs.
    destruct Hfs as [|f fs Hf Hfs]; [done |].
    rewrite fmap_cons, lstrip_join in Hs.
    apply first_char_join in Hs; [| done].
    rewrite (lstrip_fragment f Hf) in Hs. simpl.
    destruct (word f) as [|c w]; [done |]. by rewrite str_app_cons in Hs.
  - apply endswith_last in He. unfold strip in He.
    rewrite <- lstrip_rstrip in He. apply last_char_lstrip in He.
    unfold written in He.
    destruct (list_snoc_inv fs) as [->|(init & f & ->)]; [done |].
    rewrite last_snoc. simpl.
    rewrite fmap_app in He. simpl in He.
    rewrite rstrip_join_last in He. apply last_char_join in He; [| done].
    assert (fragment_ok f) as Hf.
    { apply Forall_app in Hfs as [_ Hf]. by apply Forall_inv in Hf. }
    rewrite (rstrip_fragment f Hf) in He.
    destruct (word f) as [|c w] eqn:E; [done |]. rewrite <- E in *.
    rewrite last_char_app in He.
    destruct (last_char (word f)) as [d|] eqn:El; [done |].
    apply last_char_none in El. congruence.
Qed.

(** *** Brackets *)

Lemma endswith_app_char c a : endswith c (a +:+ String c "") = true.
Proof.
  apply endswith_last. rewrite last_char_app. done.
Qed.

Lemma drop_last_app_char a c : drop_last (a +:+ String c "") = a.
Proof.
  induction a as [|d a IH]; [done |]. rewrite str_app_cons. cbn [drop_last].
  rewrite IH. destruct (a +:+ String c "") eqn:E; [| done].
  by apply MatchFacts.str_app_inv_nil in E as [_ E].
Qed.

Lemma strip_bracketed before body after :
  all isspace before = true -> all isspace after = true ->
  strip (before +:+ "[" +:+ body +:+ "]" +:+ after) = "[" +:+ body +:+ "]".
Proof.
  intros Hb Ha. unfold strip. rewrite lstrip_app_spaces by done.
  rewrite str_app_cons, str_app_nil_l.
  rewrite lstrip_id by done.
  change (String "[" (body +:+ "]" +:+ after))
    with (String "[" body +:+ ("]" +:+ after)).
  rewrite <- (str_app_assoc (String "[" body) "]" after).
  rewrite rstrip_app_spaces by done.
  rewrite rstrip_app_keep by done. done.
Qed.

Lemma unbracket_bracketed body : unbracket ("[" +:+ body +:+ "]") = body.
Proof.
  unfold unbracket. rewrite str_app_cons, str_app_nil_l.
  change (startswith "[" (String "[" (body +:+ "]"))) with true.
  change (String "[" (body +:+ "]")) with (String "[" body +:+ "]") at 1.
  rewrite endswith_app_char. simpl. unfold slice_1_m1. simpl.
  apply drop_last_app_char.
Qed.

(** *** The tokens of an entry *)

Lemma spec_tokens_written e :
  written_ok e -> spec_tokens (entry_of e) = written_tokens e.
Proof.
  destruct e as [|fs|before fs after]; [done | |].
  - intros [Hfs Hnb]. unfold entry_of, spec_tokens, written_tokens.
    destruct (decide (fs = [])) as [->|Hne]; [done |].
    assert (unbracket (strip (written fs)) = strip (written fs)) as ->.
    { unfold unbracket.
      destruct (startswith "[" (strip (written fs))
                && endswith "]" (strip (written fs))) eqn:E; [| done].
      destruct Hnb. by apply strip_written_brackets. }
    destruct (strip_written fs Hfs Hne) as (ts & -> & -> & Hts).
    by apply tokens_of_texts.
  - intros (Hb & Ha & Hfs). unfold entry_of, spec_tokens, written_tokens.
    rewrite strip_bracketed, unbracket_bracketed by done.
    destruct (decide (fs = [])) as [->|Hne]; [done |].
    unfold written. rewrite split_join_comma;
      [| by destruct fs | by apply fragments_no_comma].
    apply tokens_of_texts; [done | by apply strip_fragments].
Qed.

Lemma bind_spec_tokens_written entries :
  Forall written_ok entries ->
  (entry_of <$> entries) ≫= spec_tokens = entries ≫= written_tokens.
Proof.
  intros H. induction H as [|e entries He Hes IH]; [done |].
  by rewrite fmap_cons, !bind_cons, IH, spec_tokens_written.
Qed.

(** *** Every text is written in one of the two ways *)

Lemma lstrip_split s : exists a, s = a +:+ lstrip s /\ all isspace a = true.
Proof.
  induction s as [|c s (a & Hs & Ha)]; [by exists "" |]. simpl.
  destruct (isspace c) eqn:Hc.
  - exists (String c a). rewrite str_app_cons, <- Hs. simpl. by rewrite Hc.
  - by exists "".
Qed.

Lemma rstrip_split s : exists b, s = rstrip s +:+ b /\ all isspace b = true.
Proof.
  induction s as [|c s (b & Hs & Hb)]; [by exists "" |]. simpl.
  destruct (rstrip s) as [|d r] eqn:E.
  - rewrite str_app_nil_l in Hs. subst b. destruct (isspace c) eqn:Hc.
    + exists (String c s). simpl. by rewrite Hc.
    + by exists s.
  - exists b. by rewrite str_app_cons, <- Hs.
Qed.

Lemma strip_split s :
  exists a b, s = a +:+ strip s +:+ b /\ all isspace a = true /\ all isspace b = true.
Proof.
  destruct (lstrip_split s) as (a & Hs & Ha).
  destruct (rstrip_split (lstrip s)) as (b & Hl & Hb).
  exists a, b. unfold strip. by rewrite <- Hl, <- Hs.
Qed.

Lemma first_char_strip s : space_char (first_char (strip s)) = false.
Proof.
  unfold strip. destruct (lstrip_head s) as [->|(c & t & -> & Hc)]; [done |].
  by rewrite rstrip_char.
Qed.

Lemma last_char_rstrip s : space_char (last_char (rstrip s)) = false.
Proof.
  induction s as [|c s IH]; [done |]. simpl.
  destruct (rstrip s) as [|d r] eqn:E.
  - by destruct (isspace c) eqn:Hc.
  - cbn [last_char] in *. by destruct (last_char r).
Qed.

Lemma fragment_of_text t :
  occurs "," t = false -> exists f, fragment_ok f /\ fragment_text f = t.
Proof.
  intros Ht. destruct (strip_split t) as (a & b & Hs & Ha & Hb).
  exists {| lead := a; word := strip t; trail := b |}.
  split; [| unfold fragment_text; simpl; by symmetry].
  split; [done |]. split; [done |]. simpl. split.
  - unfold strip. by apply occurs_rstrip, occurs_lstrip.
  - split; [apply first_char_strip | apply last_char_rstrip].
Qed.

Lemma split_nonempty sep s : split sep s <> [].
Proof.
  destruct s as [|c s]; [done |]. simpl.
  destruct (Ascii.eqb c sep); [done |]. by destruct (split sep s).
Qed.

Lemma join_string c h r : join "," (String c h :: r) = String c (join "," (h :: r)).
Proof. by destruct r. Qed.

Lemma join_split s :
  join "," (split "," s) = s /\ Forall (fun t => occurs "," t = false) (split "," s).
Proof.
  induction s as [|c s [IH1 IH2]]; [split; [done | by repeat constructor] |].
  cbn [split]. pose proof (split_nonempty "," s) as Hne.
  destruct (Ascii.eqb_spec c ",") as [->|Hc].
  - destruct (split "," s) as [|h r]; [done |]. split; [| by constructor].
    by rewrite join_cons, IH1.
  - destruct (split "," s) as [|h r]; [done |]. split.
    + by rewrite join_string, IH1.
    + inversion IH2; subst. constructor; [| done]. cbn [occurs].
      apply orb_false_intro; [| done]. apply Ascii.eqb_neq. congruence.
Qed.

Lemma fragments_of_texts ts :
  Forall (fun t => occurs "," t = false) ts ->
  exists fs, Forall fragment_ok fs /\ fragment_text <$> fs = ts.
Proof.
  intros Hts. induction Hts as [|t ts Ht Hts (fs & Hfs & Heq)]; [by exists [] |].
  destruct (fragment_of_text t Ht) as (f & Hf & Hft).
  exists (f :: fs). split; [by constructor |]. by rewrite fmap_cons, Hft, Heq.
Qed.

Lemma fragments_of_text s : exists fs, Forall fragment_ok fs /\ written fs = s.
Proof.
  destruct (join_split s) as [Hj Hc].
  destruct (fragments_of_texts _ Hc) as (fs & Hfs & Heq).
  exists fs. split; [done |]. unfold written. by rewrite Heq.
Qed.

Lemma first_char_join_head c x r :
  first_char x = Some c -> first_char (join "," (x :: r)) = Some c.
Proof.
  destruct x as [|d x]; [done |]. intros H. by rewrite join_string.
Qed.

Lemma last_char_join_last c ts x :
  last_char x = Some c -> last_char (join "," (ts ++ [x])) = Some c.
Proof.
  intros Hx. induction ts as [|y ts IH]; [done |].
  change ((y :: ts) ++ [x]) with (y :: (ts ++ [x])).
  destruct (ts ++ [x]) as [|a l] eqn:E; [by destruct ts |].
  rewrite join_cons.
  change (y +:+ String "," (join "," (a :: l)))
    with (y +:+ ("," +:+ join "," (a :: l))).
  by rewrite !last_char_app, IH.
Qed.

Lemma first_char_rstrip_keep c s :
  isspace c = false -> first_char s = Some c -> first_char (rstrip s) = Some c.
Proof.
  destruct s as [|d s]; [done |]. intros Hc [= ->]. by rewrite rstrip_char.
Qed.

Lemma last_char_lstrip_keep c s :
  isspace c = false -> last_char s = Some c -> last_char (lstrip s) = Some c.
Proof.
  intros Hc. induction s as [|d s IH]; [done |]. cbn [lstrip last_char].
  destruct (isspace d) eqn:Hd; [| done].
  destruct (last_char s) as [e|] eqn:E.
  - intros [= ->]. by apply IH.
  - intros [= ->]. congruence.
Qed.

(** Brackets at the two ends of the skills are brackets around the
    stripped text. *)
Lemma in_brackets_strip_written fs :
  Forall fragment_ok fs -> in_brackets fs ->
  startswith "[" (strip (written fs)) && endswith "]" (strip (written fs)) = true.
Proof.
  intros Hfs [Hh Hl]. apply andb_true_intro. split.
  - apply startswith_first. unfold strip, written.
    apply first_char_rstrip_keep; [done |].
    destruct Hfs as [|f fs Hf Hfs]; [done |]. simpl in Hh.
    rewrite fmap_cons, lstrip_join. apply first_char_join_head.
    rewrite (lstrip_fragment f Hf).
    destruct (word f) as [|c w]; [done |]. by rewrite str_app_cons.
  - apply endswith_last. unfold strip, written. rewrite <- lstrip_rstrip.
    apply last_char_lstrip_keep; [done |].
    destruct (list_snoc_inv fs) as [->|(init & f & ->)]; [done |].
    rewrite last_snoc in Hl. simpl in Hl.
    assert (fragment_ok f) as Hf.
    { apply Forall_app in Hfs as [_ Hf]. by apply Forall_inv in Hf. }
    rewrite fmap_app. simpl. rewrite rstrip_join_last.
    apply last_char_join_last. rewrite (rstrip_fragment f Hf).
    destruct (word f) as [|c w] eqn:E; [done |]. rewrite <- E in *.
    by rewrite last_char_app, Hl.
Qed.

Lemma bracketed_text c :
  startswith "[" c && endswith "]" c = true ->
  exists body, c = "[" +:+ body +:+ "]".
Proof.
  intros [Hs He]%andb_prop. destruct c as [|d c]; [done |].
  cbn [startswith] in Hs. apply Ascii.eqb_eq in Hs as <-.
  assert (forall t, endswith "]" t = true -> exists body, t = body +:+ "]") as Hend.
  { clear. induction t as [|d t IH]; [done |]. cbn [endswith].
    destruct t as [|e t].
    - intros ->%Ascii.eqb_eq. by exists "".
    - intros H. destruct (IH H) as [body ->]. exists (String d body).
      by rewrite str_app_cons. }
  destruct c as [|e c]; [done |].
  destruct (Hend (String e c)) as [body ->]; [done |]. by exists body.
Qed.

Lemma written_entry_of_text s : exists e, written_ok e /\ entry_of e = EntryStr s.
Proof.
  destruct (startswith "[" (strip s) && endswith "]" (strip s)) eqn:E.
  - destruct (bracketed_text _ E) as [body Hbody].
    destruct (strip_split s) as (a & b & Hs & Ha & Hb).
    destruct (fragments_of_text body) as (fs & Hfs & Hw).
    exists (Bracketed a fs b). split; [done |]. simpl.
    rewrite Hw, Hs at 1. rewrite Hbody. f_equal.
    by rewrite !str_app_assoc.
  - destruct (fragments_of_text s) as (fs & Hfs & Hw).
    exists (Plain fs). split; [| simpl; by rewrite Hw].
    split; [done |]. intros Hb.
    apply (in_brackets_strip_written fs Hfs) in Hb. rewrite Hw in Hb. congruence.
Qed.

End WrittenFacts.

Import WrittenFacts.

(** C7.  Take a series whose entries are missing values and texts, each
    text written as fragments with commas between, every fragment a skill
    with white space around it, the whole in one pair of brackets or in
    none.  The count that [analyze_skills] holds for a token is the number
    of skills, not empty, whose lower-case form is the token: the missing
    entries are skipped, one pair of brackets is removed, the text is
    split at the commas, the fragments are trimmed and lower-cased, and the
    empty ones dropped.  Every text can be written in this way.  The two
    entries "python, sql" and "python, go" give python 2, sql 1, go 1; so
    do a text in brackets with upper case and an empty fragment, a missing
    value and a text without spaces. *)
Theorem analyze_skills_counts (entries : list written_entry) (token : string) :
  Forall written_ok entries ->
  analyze_skills (Some (entry_of <$> entries)) !! token =
    match occurrences token (entries ≫= written_tokens) with
    | O => None
    | S n => Some (S n)
    end /\
  (forall s, exists e, written_ok e /\ entry_of e = EntryStr s) /\
  analyze_skills (Some [EntryStr "python, sql"; EntryStr "python, go"])
    = {[ "python" := 2%nat; "sql" := 1%nat; "go" := 1%nat ]} /\
  analyze_skills (Some [EntryStr " [Python, SQL ,, ] "; EntryNA; EntryStr "GO,python"])
    = {[ "python" := 2%nat; "sql" := 1%nat; "go" := 1%nat ]}.
Proof.
  intros Hok. split; [| split; [apply written_entry_of_text |]].
  - rewrite analyze_skills_flat, bind_spec_tokens_written by done.
    apply Counter_lookup.
  - split; vm_compute; reflexivity.
Qed.

(** The series of " [Python, SQL ,, ] ", a missing value and "GO,python",
    written by fragments. *)
Lemma analyze_skills_counts_witness :
  Forall written_ok
    [ Bracketed " "
        [ {| lead := ""; word := "Python"; trail := "" |};
          {| lead := " "; word := "SQL"; trail := " " |};
          {| lead := ""; word := ""; trail := "" |};
          {| lead := " "; word := ""; trail := "" |} ] " ";
      Missing;
      Plain [ {| lead := ""; word := "GO"; trail := "" |};
              {| lead := ""; word := "python"; trail := "" |} ] ] /\
  entry_of <$>
    [ Bracketed " "
        [ {| lead := ""; word := "Python"; trail := "" |};
          {| lead := " "; word := "SQL"; trail := " " |};
          {| lead := ""; word := ""; trail := "" |};
          {| lead := " "; word := ""; trail := "" |} ] " ";
      Missing;
      Plain [ {| lead := ""; word := "GO"; trail := "" |};
              {| lead := ""; word := "python"; trail := "" |} ] ]
  = [EntryStr " [Python, SQL ,, ] "; EntryNA; EntryStr "GO,python"] /\
  analyze_skills (Some [EntryStr " [Python, SQL ,, ] "; EntryNA; EntryStr "GO,python"])
    !! "python" = Some 2%nat.
Proof.
  assert (Forall written_ok
    [ Bracketed " "
        [ {| lead := ""; word := "Python"; trail := "" |};
          {| lead := " "; word := "SQL"; trail := " " |};
          {| lead := ""; word := ""; trail := "" |};
          {| lead := " "; word := ""; trail := "" |} ] " ";
      Missing;
      Plain [ {| lead := ""; word := "GO"; trail := "" |};
              {| lead := ""; word := "python"; trail := "" |} ] ]) as Hok.
  { repeat constructor; try done. intros [H _]. simpl in H. discriminate. }
  split; [exact Hok |]. split; [reflexivity |].
  exact (proj1 (analyze_skills_counts _ "python" Hok)).
Defined.

(** ** The order of the rows of [fetch_jobs] *)

Module OrderFacts.

Lemma compare_gt_ltb a b : String.compare a b = Gt <-> String.ltb b a = true.
Proof.
  unfold String.ltb. rewrite (String.compare_antisym b a).
  destruct (String.compare a b); simpl; split; congruence.
Qed.

(** The ORDER BY clause says what the specification says. *)
Lemma order_by_newest_first a b : order_by a b <-> newest_first a b.
Proof.
  unfold order_by, newest_first.
  change (coalesce_parsed_date a) with (date_or_1970 a).
  change (coalesce_parsed_date b) with (date_or_1970 b).
  destruct (String.compare (date_or_1970 a) (date_or_1970 b)) eqn:E.
  - apply String.compare_eq_iff in E. rewrite E. split.
    + intros H. right. done.
    + intros [H|[_ H]]; [| done].
      unfold String.ltb in H.
      by rewrite (FetchFacts.compare_refl (date_or_1970 b)) in H.
  - split; [done |]. intros [H|[H _]].
    + apply compare_gt_ltb in H. congruence.
    + rewrite H, FetchFacts.compare_refl in E. done.
  - split; [| done]. intros _. left. by apply compare_gt_ltb.
Qed.

Lemma select_jobs_newest_first keyword source_filter t :
  StronglySorted newest_first (select_jobs keyword source_filter t).
Proof.
  pose proof (select_jobs_sorted keyword source_filter t) as H.
  induction H as [|j l Hl IH Hj]; constructor; [done |].
  eapply Forall_impl; [exact Hj |]. intros b Hb. by apply order_by_newest_first.
Qed.

End OrderFacts.

Import OrderFacts.

(** C4, amended.  For a keyword without ['%'] and ['_'], [fetch_jobs]
    returns the rows whose search keyword contains the keyword, the letters
    A..Z taken for a..z, each once; without a filter it returns every row;
    of two rows the one with the later [parsed_date] comes first, a row
    without date taken as dated 1970-01-01, and of two rows of the same
    date the one with the later [scraped_at]; and a query without result
    returns a frame without rows. *)
Theorem fetch_jobs_filter_order (t : table) (keyword : string) :
  no_wildcard keyword = true ->
  (exists found,
     fetch_jobs (Available t) (Some keyword) None
       = Return {| frame_columns := selected_columns; frame_rows := found |} /\
     found ≡ₚ filter (keyword_in keyword) (jobs t) /\
     StronglySorted newest_first found /\
     ((forall j, j ∈ jobs t -> ~ keyword_in keyword j) -> found = [])) /\
  (exists found,
     fetch_jobs (Available t) None None
       = Return {| frame_columns := selected_columns; frame_rows := found |} /\
     found ≡ₚ jobs t /\
     StronglySorted newest_first found).
Proof.
  intros Hk. split.
  - exists (select_jobs (Some keyword) None t).
    assert (select_jobs (Some keyword) None t ≡ₚ filter (keyword_in keyword) (jobs t)) as Hperm.
    { rewrite select_jobs_perm.
      rewrite (list_filter_iff _ (keyword_in keyword)); [done |].
      intros j. by apply where_clause_keyword. }
    split; [done |]. split; [done |]. split; [apply select_jobs_newest_first |].
    intros Hnone. apply no_member_nil. intros j Hj.
    rewrite Hperm in Hj. apply list_elem_of_filter in Hj as [Hin Hjobs].
    by apply (Hnone j).
  - exists (select_jobs None None t).
    split; [done |]. split; [| apply select_jobs_newest_first].
    rewrite select_jobs_perm.
    induction (jobs t) as [|j l IH]; [done |].
    rewrite filter_cons. by rewrite decide_True, IH.
Qed.

(** On the sample table the keyword "PYTHON" finds the two rows stored for
    "python", and the order that the theorem gives leaves one result: the
    row without date first, the row dated 1969-12-31 after it. *)
Lemma fetch_jobs_filter_order_witness :
  no_wildcard "PYTHON" = true /\
  fetch_jobs (Available sample_table) (Some "PYTHON") None
    = Return {| frame_columns := selected_columns;
                frame_rows := [undated_job; old_job] |}.
Proof.
  split; [reflexivity |].
  destruct (fetch_jobs_filter_order sample_table "PYTHON" eq_refl)
    as [(found & -> & Hperm & Hsorted & _) _].
  do 2 f_equal.
  assert (filter (keyword_in "PYTHON") (jobs sample_table) = [undated_job; old_job])
    as Hf by (vm_compute; reflexivity).
  rewrite Hf in Hperm. symmetry in Hperm.
  apply Permutation_length_2_inv in Hperm as [->| ->]; [done |].
  exfalso. apply StronglySorted_inv in Hsorted as [_ Hhd].
  apply Forall_inv in Hhd. destruct Hhd as [H|[H _]]; vm_compute in H; discriminate.
Defined.

(** C5, the failing input.  When the database file opens but the query
    fails, [fetch_jobs] returns the empty frame it started with, for every
    filter: it raises nothing, the frame has no more rows than the answer
    of an empty table, and the start-up check of the dashboard, which waits
    for an exception, goes on.  Only when the file cannot be opened does an
    exception reach the caller; it is the [UnboundLocalError] of the
    handler, not an error of the storage. *)
Theorem fetch_jobs_unavailable (keyword source_filter : option string) :
  fetch_jobs Unqueryable keyword source_filter = Return empty_frame /\
  (forall e, fetch_jobs Unqueryable keyword source_filter <> Raise e) /\
  startup_check Unqueryable = Started /\
  (exists df,
     fetch_jobs (Available empty_table) keyword source_filter = Return df /\
     frame_rows df = frame_rows empty_frame) /\
  fetch_jobs Unavailable keyword source_filter = Raise UnboundLocalError /\
  startup_check Unavailable = Stopped.
Proof.
  split; [reflexivity |]. split; [discriminate |]. split; [reflexivity |].
  split; [| split; reflexivity].
  eexists. split; reflexivity.
Qed.
